(** * Clamban: agent-cycle supervisor, event fabric and board routes

    A shallow embedding of the server-side TypeScript of clamban
    (turn governor, event delivery, resilient watcher, cycle supervisor,
    HTTP routes over the board store) together with the properties of the
    specification that concern them.

    Conventions of the embedding:
    - module-level [let] variables of a TypeScript module become the fields
      of a state record that every operation takes and returns;
    - optional callbacks ([onExit], [onBudgetExhausted], ...) become a
      boolean ("was a callback supplied") and a log of the calls made;
    - [setTimeout]/[clearTimeout] become a table of armed timers, the
      callback of a timer being run by an explicit "timer fired" event;
    - [Date.now()], [new Date().toISOString()], process ids and generated
      ids are inputs of the operation that reads them;
    - a field of a request body that the route stores or compares without
      checking its type (the type of a ref, the order of a task) is a
      JSON value; the numbers the routes compute with are IEEE 754
      doubles, and the two conversions between numbers and strings are
      functions of the host; counts of turns, process ids and instants
      are integers, the warning threshold of the governor a rational. *)

From Stdlib Require Import ZArith QArith List String Ascii Bool Lia Arith Floats.
Import ListNotations.

Local Open Scope Z_scope.

(* ===================================================================== *)
(** * Turn governor ([createTurnGovernor]) *)
(* ===================================================================== *)

Module Governor.

(** [TurnGovernorOptions]; the two callbacks are optional. *)
Record Options := mkOptions {
  maxTurns : Z;
  warningThreshold : Q;            (* default 0.1 *)
  onBudgetExhausted : bool;        (* callback supplied? *)
  onBudgetWarning : bool           (* callback supplied? *)
}.

Definition defaultThreshold : Q := 1 # 10.

(** The closure variables of one governor, plus the calls it made to
    its callbacks, oldest first. *)
Record State := mkState {
  turnsUsed : Z;
  exhausted : bool;
  warningFired : bool;
  exhaustedCalls : list (Z * Z);       (* onBudgetExhausted(used, max) *)
  warningCalls : list (Z * Z * Z)      (* onBudgetWarning(used, max, remaining) *)
}.

Definition init : State := mkState 0 false false [] [].

(** [remaining / maxTurns <= warningThreshold] on JavaScript numbers.
    A zero [maxTurns] divides by zero: [0/0] is NaN (every comparison is
    false), a negative numerator gives [-Infinity], a positive one
    [+Infinity]. *)
Definition ratio_le (remaining max : Z) (thr : Q) : bool :=
  if max =? 0 then remaining <? 0
  else Qle_bool (inject_Z remaining / inject_Z max) thr.

Definition checkWarning (o : Options) (s : State) : State :=
  if warningFired s || negb (onBudgetWarning o) then s
  else
    let remaining := maxTurns o - turnsUsed s in
    if ratio_le remaining (maxTurns o) (warningThreshold o) then
      mkState (turnsUsed s) (exhausted s) true (exhaustedCalls s)
              (warningCalls s ++ [(turnsUsed s, maxTurns o, remaining)])
    else s.

(** [recordTurns(count)]: the returned boolean and the new state. *)
Definition recordTurns (o : Options) (count : Z) (s : State) : bool * State :=
  let s1 := mkState (turnsUsed s + count) (exhausted s) (warningFired s)
                    (exhaustedCalls s) (warningCalls s) in
  let s2 := checkWarning o s1 in
  if turnsUsed s2 >=? maxTurns o then
    (false,
     mkState (turnsUsed s2) true (warningFired s2)
             (if onBudgetExhausted o
              then exhaustedCalls s2 ++ [(turnsUsed s2, maxTurns o)]
              else exhaustedCalls s2)
             (warningCalls s2))
  else (true, s2).

Definition allocateCycleBudget (o : Options) (perCycleCap : Z) (s : State) : Z :=
  let remaining := maxTurns o - turnsUsed s in
  if remaining <=? 0 then 0 else Z.min perCycleCap remaining.

Definition canSpawn (o : Options) (s : State) : bool :=
  negb (exhausted s) && (turnsUsed s <? maxTurns o).

(** [reset()] zeroes the counters; the call logs are the observer's and
    are kept, so that an epoch is a suffix of the log. *)
Definition reset (s : State) : State :=
  mkState 0 false false (exhaustedCalls s) (warningCalls s).

(** A run of [recordTurns] calls with no [reset] in between. *)
Fixpoint recordAll (o : Options) (counts : list Z) (s : State) : State :=
  match counts with
  | [] => s
  | c :: cs => recordAll o cs (snd (recordTurns o c s))
  end.

End Governor.

(* ===================================================================== *)
(** * Event delivery ([createEventDelivery]) *)
(* ===================================================================== *)

Module Delivery.

(** What one invocation of [action] (or of [confirm]) does. *)
Inductive ActionResult := Returns | Throws.

(** The environment of a delivery: the outcome of the n-th invocation
    of [action] and, when a [confirm] predicate is configured, the
    answer of its n-th invocation, [None] when it throws (both counted
    from 0 over the life of the delivery object). *)
Record Options := mkOptions {
  action : nat -> ActionResult;
  maxRetries : Z;                    (* default 3 *)
  baseDelayMs : Z;                   (* default 500 *)
  confirm : option (nat -> option bool);
  onExhausted : bool;                (* callback supplied? *)
  onDelivered : bool                 (* callback supplied? *)
}.

Record State := mkState {
  deliveredCount : Z;
  failedCount : Z;
  actionCalls : nat;                 (* invocations of action so far *)
  confirmCalls : nat;                (* invocations of confirm so far *)
  exhaustedCalls : list Z;           (* first argument of each onExhausted call *)
  deliveredCalls : nat;              (* number of onDelivered calls *)
  sleeps : list Z                    (* every backoff delay awaited, oldest first *)
}.

Definition init : State := mkState 0 0 0 0 [] 0 [].

Definition callAction (s : State) : State :=
  mkState (deliveredCount s) (failedCount s) (S (actionCalls s)) (confirmCalls s)
          (exhaustedCalls s) (deliveredCalls s) (sleeps s).

Definition callConfirm (s : State) : State :=
  mkState (deliveredCount s) (failedCount s) (actionCalls s) (S (confirmCalls s))
          (exhaustedCalls s) (deliveredCalls s) (sleeps s).

(** [deliveredCount++; onDelivered?.()] *)
Definition delivered (o : Options) (s : State) : State :=
  mkState (deliveredCount s + 1) (failedCount s) (actionCalls s) (confirmCalls s)
          (exhaustedCalls s)
          (if onDelivered o then S (deliveredCalls s) else deliveredCalls s)
          (sleeps s).

(** [failedCount++; onExhausted?.(attempts, ...)] *)
Definition exhaust (o : Options) (attempts : Z) (s : State) : State :=
  mkState (deliveredCount s) (failedCount s + 1) (actionCalls s) (confirmCalls s)
          (if onExhausted o then exhaustedCalls s ++ [attempts] else exhaustedCalls s)
          (deliveredCalls s) (sleeps s).

Definition sleep (ms : Z) (s : State) : State :=
  mkState (deliveredCount s) (failedCount s) (actionCalls s) (confirmCalls s)
          (exhaustedCalls s) (deliveredCalls s) (sleeps s ++ [ms]).

(** The tail of one loop iteration: back off when a retry is left. *)
Definition backoff (o : Options) (attempt : Z) (s : State) : State :=
  if attempt <? maxRetries o
  then sleep (baseDelayMs o * 2 ^ attempt) s
  else s.

(** The [for (attempt = 0; attempt <= maxRetries; attempt++)] loop of
    [deliver], from a given [attempt]; [fuel] bounds the iterations and
    [None] means the bound was too small.  [caught] is the [catch]
    block, entered when [action] or [confirm] throws. *)
Fixpoint deliverFrom (o : Options) (fuel : nat) (attempt : Z) (s : State)
  : option (bool * State) :=
  if attempt <=? maxRetries o then
    match fuel with
    | O => None
    | S fuel' =>
        let caught (s' : State) :=
          if attempt =? maxRetries o
          then Some (false, exhaust o (attempt + 1) s')
          else deliverFrom o fuel' (attempt + 1) (backoff o attempt s') in
        let s1 := callAction s in
        match action o (actionCalls s) with
        | Throws => caught s1
        | Returns =>
            match confirm o with
            | None => Some (true, delivered o s1)
            | Some c =>
                let s2 := callConfirm s1 in
                match c (confirmCalls s1) with
                | None => caught s2
                | Some true => Some (true, delivered o s2)
                | Some false =>
                    deliverFrom o fuel' (attempt + 1) (backoff o attempt s2)
                end
            end
        end
    end
  else Some (false, exhaust o (maxRetries o + 1) s).

(** [deliver()]: the loop never needs more than [maxRetries + 1]
    iterations. *)
Definition deliver (o : Options) (s : State) : option (bool * State) :=
  deliverFrom o (Z.to_nat (maxRetries o + 1)) 0 s.

(** An action that throws on every invocation. *)
Definition alwaysThrows (o : Options) : Prop := forall n, action o n = Throws.

(** The backoff delays before retries 1 .. n: [baseDelayMs * 2^i] for
    [i = 0 .. n-1]. *)
Definition schedule (o : Options) (n : nat) : list Z :=
  map (fun i => baseDelayMs o * 2 ^ Z.of_nat i) (seq 0 n).

(** The delays slept from attempt [a] on, when [n] invocations follow. *)
Definition delaysFrom (o : Options) (a : Z) (n : nat) : list Z :=
  map (fun i => baseDelayMs o * 2 ^ (a + Z.of_nat i)) (seq 0 (n - 1)).

(** An action that never throws, checked by a [confirm] that always
    answers false. *)
Definition neverConfirmed (o : Options) : Prop :=
  (forall n, action o n = Returns) /\
  exists c, confirm o = Some c /\ forall n, c n = Some false.

End Delivery.

(* ===================================================================== *)
(** * Resilient watcher ([createResilientWatcher]) *)
(* ===================================================================== *)

Module Watcher.

Record Options := mkOptions {
  directories : list string;
  heartbeatTimeoutMs : Z;            (* default 0 = disabled *)
  recursive : bool                   (* default false *)
}.

Section WithPlatform.

(** The file system of the host, as Node's [fs] and [path] modules
    show it to the watcher. *)
Variable FS : Type.
Variable existsSync : FS -> string -> bool.
Variable mkdirSync : FS -> string -> FS.                  (* { recursive: true } *)
Variable readdirDirs : FS -> string -> option (list string).
  (* names of the entries of a directory that are directories;
     [None] when [readdirSync] throws *)
Variable watchThrows : FS -> string -> bool.              (* [fs.watch] throws *)
Variable join : string -> string -> string.               (* [path.join] *)
Variable linux : bool.                    (* [process.platform === "linux"] *)
Variable depth : nat.                     (* bound on the nesting of directories *)

Variable o : Options.

(** The closure variables of one watcher.  [timers] holds the ids of
    the timeouts that are armed, [heartbeatTimer] the handle the
    watcher remembers, [changes] the calls made to [onChange]. *)
Record State := mkState {
  watchers : list (string * bool);     (* watched directory, recursive flag *)
  heartbeatTimer : option nat;
  timers : list nat;
  nextTimer : nat;
  isActive : bool;
  reinitCount : nat;
  fs : FS;
  changes : list string
}.

Definition init (f : FS) : State := mkState [] None [] 0 false 0 f [].

Definition ensureDirectories (s : State) : State :=
  mkState (watchers s) (heartbeatTimer s) (timers s) (nextTimer s)
          (isActive s) (reinitCount s)
          (fold_left (fun f dir => if existsSync f dir then f else mkdirSync f dir)
                     (directories o) (fs s))
          (changes s).

Fixpoint walkDirs (fuel : nat) (f : FS) (root : string) : list string :=
  root ::
  match fuel with
  | O => []
  | S fuel' =>
      match readdirDirs f root with
      | None => []                               (* dir may have vanished *)
      | Some names => flat_map (fun n => walkDirs fuel' f (join root n)) names
      end
  end.

Definition watchSingle (dir : string) (useRecursive : bool) (s : State) : State :=
  if watchThrows (fs s) dir then s
  else mkState (watchers s ++ [(dir, useRecursive)]) (heartbeatTimer s) (timers s)
               (nextTimer s) (isActive s) (reinitCount s) (fs s) (changes s).

Definition teardownWatchers (s : State) : State :=
  mkState [] (heartbeatTimer s) (timers s) (nextTimer s)
          (isActive s) (reinitCount s) (fs s) (changes s).

Definition initWatchers (s : State) : State :=
  let needsManualRecursion := recursive o && linux in
  fold_left
    (fun s' dir =>
       if needsManualRecursion
       then fold_left (fun s'' subdir => watchSingle subdir false s'')
                      (walkDirs depth (fs s') dir) s'
       else watchSingle dir (recursive o) s')
    (directories o) (teardownWatchers s).

Definition clearTimeout (id : nat) (l : list nat) : list nat :=
  filter (fun i => negb (Nat.eqb i id)) l.

(** [resetHeartbeat]: cancel the remembered timeout and arm a new one. *)
Definition resetHeartbeat (s : State) : State :=
  if (heartbeatTimeoutMs o <=? 0) || negb (isActive s) then s
  else
    let cleared := match heartbeatTimer s with
                   | Some id => clearTimeout id (timers s)
                   | None => timers s
                   end in
    mkState (watchers s) (Some (nextTimer s)) (cleared ++ [nextTimer s])
            (S (nextTimer s)) (isActive s) (reinitCount s) (fs s) (changes s).

(** The callback given to [setTimeout] in [resetHeartbeat]. *)
Definition heartbeatExpired (s : State) : State :=
  if negb (isActive s) then s
  else
    let s1 := mkState (watchers s) (heartbeatTimer s) (timers s) (nextTimer s)
                      (isActive s) (S (reinitCount s)) (fs s) (changes s) in
    resetHeartbeat (initWatchers (ensureDirectories s1)).

(** The event loop runs the callback of a timeout that is still armed;
    a timeout that was cleared never fires. *)
Definition timerFired (id : nat) (s : State) : State :=
  if existsb (Nat.eqb id) (timers s) then
    heartbeatExpired
      (mkState (watchers s) (heartbeatTimer s) (clearTimeout id (timers s))
               (nextTimer s) (isActive s) (reinitCount s) (fs s) (changes s))
  else s.

(** [watchCallback(dir)]: what an [fs.watch] listener does. *)
Definition watchCallback (dir : string) (s : State) : State :=
  let s1 := resetHeartbeat s in
  mkState (watchers s1) (heartbeatTimer s1) (timers s1) (nextTimer s1)
          (isActive s1) (reinitCount s1) (fs s1) (changes s1 ++ [dir]).

Definition start (s : State) : State :=
  let s1 := mkState (watchers s) (heartbeatTimer s) (timers s) (nextTimer s)
                    true 0 (fs s) (changes s) in
  resetHeartbeat (initWatchers (ensureDirectories s1)).

Definition stop (s : State) : State :=
  let s1 := teardownWatchers
              (mkState (watchers s) (heartbeatTimer s) (timers s) (nextTimer s)
                       false (reinitCount s) (fs s) (changes s)) in
  match heartbeatTimer s1 with
  | Some id =>
      mkState (watchers s1) None (clearTimeout id (timers s1)) (nextTimer s1)
              (isActive s1) (reinitCount s1) (fs s1) (changes s1)
  | None => s1
  end.

Definition heartbeat (s : State) : State := resetHeartbeat s.

(** Everything that can happen to a watcher: calls of its three
    methods, a listener of [fs.watch] being run, a timeout firing, and
    the outside world changing the file system. *)
Inductive Event :=
| EStart
| EStop
| EHeartbeat
| EFsEvent (dir : string)
| ETimer (id : nat)
| EExternal (change : FS -> FS).

Definition step (s : State) (e : Event) : State :=
  match e with
  | EStart => start s
  | EStop => stop s
  | EHeartbeat => heartbeat s
  | EFsEvent dir => watchCallback dir s
  | ETimer id => timerFired id s
  | EExternal change =>
      mkState (watchers s) (heartbeatTimer s) (timers s) (nextTimer s)
              (isActive s) (reinitCount s) (change (fs s)) (changes s)
  end.

Definition run (evs : list Event) (s : State) : State := fold_left step evs s.

Definition isStart (e : Event) : bool :=
  match e with EStart => true | _ => false end.

(** Every armed timeout is the one the watcher remembers. *)
Definition tracked (s : State) : Prop :=
  forall id, In id (timers s) -> heartbeatTimer s = Some id.

(** No timeout is armed, or exactly the remembered one. *)
Definition atMostOne (s : State) : Prop :=
  timers s = [] \/ exists h, timers s = [h] /\ heartbeatTimer s = Some h.

(** Handles are handed out in increasing order. *)
Definition fresh (s : State) : Prop :=
  forall id, In id (timers s) -> (id < nextTimer s)%nat.

(** The invariant of the timeouts: at most the remembered one is armed,
    and every handle in use is below the next one. *)
Definition timed (s : State) : Prop :=
  atMostOne s /\ fresh s /\
  (forall h, heartbeatTimer s = Some h -> (h < nextTimer s)%nat).

(** What the watcher relies on from [fs]: [mkdirSync] creates the
    directory it is given and removes none. *)
Definition mkdirCreates : Prop :=
  (forall f d, existsSync (mkdirSync f d) d = true) /\
  (forall f d d', existsSync f d' = true -> existsSync (mkdirSync f d) d' = true).

(** [fs.watch] succeeds on a directory that exists. *)
Definition watchesExisting : Prop :=
  forall f d, existsSync f d = true -> watchThrows f d = false.

End WithPlatform.

(** A host whose file system is the list of the directories that exist
    and where nothing is nested: enough to run a watcher. *)
Definition listExists (f : list string) (d : string) : bool :=
  existsb (String.eqb d) f.

Definition listMkdir (f : list string) (d : string) : list string := f ++ [d].

Definition listReaddir (f : list string) (d : string) : option (list string) :=
  if listExists f d then Some [] else None.

Definition listWatchThrows (f : list string) (d : string) : bool :=
  negb (listExists f d).

Definition slashJoin (a b : string) : string := (a ++ "/" ++ b)%string.

End Watcher.

(* ===================================================================== *)
(** * JavaScript values *)
(* ===================================================================== *)

Module Js.

Local Open Scope string_scope.

(** What [JSON.parse] returns: a number is a double ([1e999] parses to
    [Infinity]), an object is the list of its own properties. *)
#[warnings="-register-all"]
Inductive Json :=
| JNull
| JBool (b : bool)
| JNum (x : float)
| JStr (s : string)
| JArr (items : list Json)
| JObj (fields : list (string * Json)).

(** [Number::toString] and [StringToNumber], the conversions of the
    language between numbers and strings. *)
Record Host := mkHost {
  numberToString : float -> string;
  stringToNumber : string -> float
}.

(** [ToBoolean]: [null], [false], [0], [-0], [NaN] and [""] are falsy. *)
Definition truthy (v : Json) : bool :=
  match v with
  | JNull => false
  | JBool b => b
  | JNum x => negb (PrimFloat.eqb x 0 || PrimFloat.is_nan x)
  | JStr s => negb (String.eqb s "")
  | JArr _ | JObj _ => true
  end.

(** [a === b] for two values that are not the same object: primitives
    are compared by value, an array or an object equals no other. *)
Definition strictEq (a b : Json) : bool :=
  match a, b with
  | JNull, JNull => true
  | JBool x, JBool y => Bool.eqb x y
  | JNum x, JNum y => PrimFloat.eqb x y
  | JStr x, JStr y => String.eqb x y
  | _, _ => false
  end.

Definition hasOwn (key : string) (fields : list (string * Json)) : bool :=
  existsb (fun kv => String.eqb (fst kv) key) fields.

(** [ToString(v)], as [ToPropertyKey] and [Array.prototype.join] use it;
    [None] is a TypeError.  An array is the join of its elements with
    [","], [null] elements being empty.  An object without a property
    [toString] of its own inherits the one of [Object.prototype]; with
    one (no JSON value is callable) neither [toString] nor [valueOf]
    gives a primitive: "Cannot convert object to primitive value". *)
Fixpoint toString (H : Host) (v : Json) : option string :=
  match v with
  | JNull => Some "null"
  | JBool b => Some (if b then "true" else "false")
  | JNum x => Some (numberToString H x)
  | JStr s => Some s
  | JArr items =>
      (fix join (l : list Json) : option string :=
         match l with
         | [] => Some ""
         | x :: rest =>
             let element := match x with JNull => Some "" | _ => toString H x end in
             match rest with
             | [] => element
             | _ :: _ =>
                 match element, join rest with
                 | Some a, Some b => Some (a ++ "," ++ b)
                 | _, _ => None
                 end
             end
         end) items
  | JObj fields =>
      if hasOwn "toString" fields then None else Some "[object Object]"
  end.

(** [ToNumber(v)], the coercion of [Math.max]; [None] is a TypeError. *)
Definition toNumber (H : Host) (v : Json) : option float :=
  match v with
  | JNull => Some 0%float
  | JBool b => Some (if b then 1%float else 0%float)
  | JNum x => Some x
  | JStr s => Some (stringToNumber H s)
  | JArr _ | JObj _ => option_map (stringToNumber H) (toString H v)
  end.

(** What is read back of a value after [JSON.stringify] (in the board
    file, in a response): [NaN] and the infinities are written as
    [null], [-0] as [0]. *)
Fixpoint serialize (v : Json) : Json :=
  match v with
  | JNum x =>
      if PrimFloat.is_finite x
      then JNum (if PrimFloat.eqb x 0 then 0%float else x)
      else JNull
  | JArr items => JArr (map serialize items)
  | JObj fields => JObj (map (fun kv => (fst kv, serialize (snd kv))) fields)
  | JNull | JBool _ | JStr _ => v
  end.

(** [Math.max(...l)] on numbers: [NaN] when one of them is, otherwise
    the scan from [-Infinity] in which [+0] is above [-0]. *)
Definition maxStep (highest number : float) : float :=
  if PrimFloat.is_zero number && negb (PrimFloat.get_sign number)
     && PrimFloat.is_zero highest && PrimFloat.get_sign highest
  then number
  else if PrimFloat.ltb highest number then number else highest.

Definition Math_max (l : list float) : float :=
  if existsb PrimFloat.is_nan l then PrimFloat.nan
  else fold_left maxStep l PrimFloat.neg_infinity.

(** The coercion of the arguments of [Math.max(...l)], left to right. *)
Fixpoint toNumbers (H : Host) (l : list Json) : option (list float) :=
  match l with
  | [] => Some []
  | v :: rest =>
      match toNumber H v, toNumbers H rest with
      | Some x, Some xs => Some (x :: xs)
      | _, _ => None
      end
  end.

(** A number as it is read back after [JSON.stringify]. *)
Definition numberJson (x : float) : Json := serialize (JNum x).

(** The properties that every object inherits from [Object.prototype]. *)
Definition objectPrototype : list string :=
  [ "constructor"; "__defineGetter__"; "__defineSetter__"; "hasOwnProperty";
    "__lookupGetter__"; "__lookupSetter__"; "isPrototypeOf";
    "propertyIsEnumerable"; "toString"; "valueOf"; "__proto__";
    "toLocaleString" ].

(** The value of [table[key]] for an object literal whose properties are
    strings: its own property, an inherited one, or [undefined]. *)
Inductive Lookup :=
| Found (s : string)
| Undefined
| Inherited (name : string).

Definition property (table : list (string * string)) (key : string) : Lookup :=
  match find (fun kv => String.eqb (fst kv) key) table with
  | Some kv => Found (snd kv)
  | None =>
      if existsb (String.eqb key) objectPrototype then Inherited key else Undefined
  end.

(** What is read back of [{..., type: l}] after [JSON.stringify]: an
    [undefined] or a function drops the key; [__proto__] is the
    prototype object itself, written as [{}]. *)
Definition storedLookup (l : Lookup) : option Json :=
  match l with
  | Found s => Some (JStr s)
  | Undefined => None
  | Inherited name => if String.eqb name "__proto__" then Some (JObj []) else None
  end.

(** [x === l] for a stored property [x] ([None]: the key is missing, the
    property reads [undefined]); no stored value is an inherited
    function or the prototype object. *)
Definition lookupEq (x : option Json) (l : Lookup) : bool :=
  match x, l with
  | Some (JStr s'), Found s => String.eqb s' s
  | None, Undefined => true
  | _, _ => false
  end.

End Js.

(* ===================================================================== *)
(** * Board data model ([types/board.ts]) *)
(* ===================================================================== *)

Module Types.

(** [TeamConfig].  [maxTurns] and the [num_turns] of a result line are
    JavaScript numbers that nothing validates; the supervisor is
    modelled for whole numbers of turns, which is what [claude] counts
    and reports.  A budget that is no whole number ([0.5], which would
    be passed on as [--max-turns 0.5]) is outside the model. *)
Record TeamConfig := mkTeamConfig {
  teamName : string;
  projectDir : string;
  model : option string;
  maxTurns : option Z
}.

(** [RefType], the union type of [types/board.ts], and the strings it
    stands for. *)
Inductive RefType := related | blocks | blocked_by | parent | child.

Definition refTypeName (t : RefType) : string :=
  match t with
  | related => "related"
  | blocks => "blocks"
  | blocked_by => "blocked-by"
  | parent => "parent"
  | child => "child"
  end.

(** [TaskRef] as the board file holds it.  [type] is declared a
    [RefType], but the routes store what the request carried, checked by
    nothing: it is any JSON value, or missing ([None]) when what was
    stored had no JSON form. *)
Record TaskRef := mkTaskRef { taskId : string; rtype : option Js.Json }.

(** A ref whose type is one of the five. *)
Definition mkRef (i : string) (t : RefType) : TaskRef :=
  mkTaskRef i (Some (Js.JStr (refTypeName t))).

Record Comment := mkComment {
  cid : string; author : string; text : string; timestamp : Z
}.

Record FileContext := mkFileContext { path : string; note : option string }.

(** [Task].  The routes store [column], [priority] and [type] exactly
    as the request carries them, so they are the strings found in the
    board file; [order] is declared a number, but PATCH stores what the
    request carried, so it is any JSON value; timestamps are instants in
    milliseconds. *)
Record Task := mkTask {
  id : string;
  title : string;
  description : string;
  column : string;
  order : Js.Json;
  priority : string;
  type : string;
  tags : list string;
  comments : list Comment;
  context : option (list FileContext);   (* [None]: the key is missing *)
  refs : option (list TaskRef);          (* [None]: the key is missing *)
  assignee : option string;
  createdAt : Z;
  updatedAt : Z
}.

Record BoardMeta := mkMeta {
  name : string;
  metaCreatedAt : Z;
  version : Z;
  team : option TeamConfig
}.

Record ColumnDef := mkColumnDef { colId : string; colName : string }.

Record Board := mkBoard {
  meta : BoardMeta;
  columns : list ColumnDef;
  tasks : list Task
}.

(** The five column ids of [ColumnId], in board order. *)
Definition COLUMNS : list ColumnDef :=
  [ mkColumnDef "backlog" "Backlog";
    mkColumnDef "ready" "Ready";
    mkColumnDef "in-progress" "In Progress";
    mkColumnDef "review" "Review";
    mkColumnDef "done" "Done" ]%string.


End Types.

(* ===================================================================== *)
(** * Cycle supervisor (event-driven [team-manager]) *)
(* ===================================================================== *)

Module Supervisor.
Import Types.

Inductive Signal := SIGTERM | SIGKILL.

(** What the callback of an armed timeout does. *)
Inductive TimerKind :=
| TRespawn                 (* exit handler, 1000 ms: spawnCycle() *)
| TIdle                    (* notifyBoardChanged, 3000 ms *)
| TKillLead                (* stopTeam, 5000 ms: SIGKILL the lead handle *)
| TKillPid (pid : Z).      (* stopTeam, 5000 ms: SIGKILL a persisted pid *)

Record Timer := mkTimer { timerId : nat; delayMs : Z; kind : TimerKind }.

(** The state file of a team ([Partial<TeamState>]). *)
Record Persisted := mkPersisted {
  leadPid : option Z;
  startedAt : option Z;
  stoppedAt : option Z
}.

Definition noState : Persisted := mkPersisted None None None.

(** One spawned [claude] process: its exit handler closes over the
    configuration of the cycle that spawned it. *)
Record Child := mkChild { pid : Z; config : TeamConfig }.

(** One call of [spawn]: pid, [--max-turns] and the time of the call. *)
Record Spawn := mkSpawn { spawnPid : Z; cycleTurns : Z; spawnedAt : Z }.

(** The module variables of the supervisor and the part of the host it
    acts on: state files, the processes that are alive, the signals
    sent, the armed timeouts, the calls of [onExit], and the error, if
    any, that was raised with nobody to handle it (an 'error' event of
    a stream without a listener ends the Node process). *)
Record State := mkState {
  leadProcess : option (Z * bool);       (* pid and [killed] flag of the handle *)
  debounceTimer : option nat;
  teamActive : bool;
  pendingBoardChange : bool;
  lastSpawnTime : Z;
  totalTurnsUsed : Z;
  currentConfig : option TeamConfig;
  currentPort : Z;
  currentOnExit : bool;                  (* callback supplied? *)
  children : list Child;                 (* spawned and not yet exited *)
  alivePids : list Z;                    (* processes alive on the host *)
  persisted : string -> Persisted;
  timers : list Timer;
  nextTimer : nat;
  signals : list (Z * Signal);
  spawns : list Spawn;
  onExitCalls : nat;
  hostError : option string              (* an error nobody handles: the host dies *)
}.

Definition init : State :=
  mkState None None false false 0 0 None 0 false [] [] (fun _ => noState)
          [] 0 [] [] 0 None.

(* Field updates. *)
Definition setLead v s :=
  mkState v (debounceTimer s) (teamActive s) (pendingBoardChange s) (lastSpawnTime s)
    (totalTurnsUsed s) (currentConfig s) (currentPort s) (currentOnExit s) (children s)
    (alivePids s) (persisted s) (timers s) (nextTimer s) (signals s) (spawns s)
    (onExitCalls s) (hostError s).
Definition setDebounce v s :=
  mkState (leadProcess s) v (teamActive s) (pendingBoardChange s) (lastSpawnTime s)
    (totalTurnsUsed s) (currentConfig s) (currentPort s) (currentOnExit s) (children s)
    (alivePids s) (persisted s) (timers s) (nextTimer s) (signals s) (spawns s)
    (onExitCalls s) (hostError s).
Definition setActive v s :=
  mkState (leadProcess s) (debounceTimer s) v (pendingBoardChange s) (lastSpawnTime s)
    (totalTurnsUsed s) (currentConfig s) (currentPort s) (currentOnExit s) (children s)
    (alivePids s) (persisted s) (timers s) (nextTimer s) (signals s) (spawns s)
    (onExitCalls s) (hostError s).
Definition setPending v s :=
  mkState (leadProcess s) (debounceTimer s) (teamActive s) v (lastSpawnTime s)
    (totalTurnsUsed s) (currentConfig s) (currentPort s) (currentOnExit s) (children s)
    (alivePids s) (persisted s) (timers s) (nextTimer s) (signals s) (spawns s)
    (onExitCalls s) (hostError s).
Definition setLastSpawn v s :=
  mkState (leadProcess s) (debounceTimer s) (teamActive s) (pendingBoardChange s) v
    (totalTurnsUsed s) (currentConfig s) (currentPort s) (currentOnExit s) (children s)
    (alivePids s) (persisted s) (timers s) (nextTimer s) (signals s) (spawns s)
    (onExitCalls s) (hostError s).
Definition setTurns v s :=
  mkState (leadProcess s) (debounceTimer s) (teamActive s) (pendingBoardChange s)
    (lastSpawnTime s) v (currentConfig s) (currentPort s) (currentOnExit s) (children s)
    (alivePids s) (persisted s) (timers s) (nextTimer s) (signals s) (spawns s)
    (onExitCalls s) (hostError s).
Definition setConfig v port onExit s :=
  mkState (leadProcess s) (debounceTimer s) (teamActive s) (pendingBoardChange s)
    (lastSpawnTime s) (totalTurnsUsed s) v port onExit (children s)
    (alivePids s) (persisted s) (timers s) (nextTimer s) (signals s) (spawns s)
    (onExitCalls s) (hostError s).
Definition setProcs cs ps s :=
  mkState (leadProcess s) (debounceTimer s) (teamActive s) (pendingBoardChange s)
    (lastSpawnTime s) (totalTurnsUsed s) (currentConfig s) (currentPort s)
    (currentOnExit s) cs ps (persisted s) (timers s) (nextTimer s) (signals s)
    (spawns s) (onExitCalls s) (hostError s).
Definition setTimers ts next s :=
  mkState (leadProcess s) (debounceTimer s) (teamActive s) (pendingBoardChange s)
    (lastSpawnTime s) (totalTurnsUsed s) (currentConfig s) (currentPort s)
    (currentOnExit s) (children s) (alivePids s) (persisted s) ts next (signals s)
    (spawns s) (onExitCalls s) (hostError s).
Definition addSpawn sp s :=
  mkState (leadProcess s) (debounceTimer s) (teamActive s) (pendingBoardChange s)
    (lastSpawnTime s) (totalTurnsUsed s) (currentConfig s) (currentPort s)
    (currentOnExit s) (children s) (alivePids s) (persisted s) (timers s)
    (nextTimer s) (signals s) (spawns s ++ [sp]) (onExitCalls s) (hostError s).

(** [persistState(teamName, state)] replaces the whole state file. *)
Definition persistState (team : string) (p : Persisted) (s : State) : State :=
  mkState (leadProcess s) (debounceTimer s) (teamActive s) (pendingBoardChange s)
    (lastSpawnTime s) (totalTurnsUsed s) (currentConfig s) (currentPort s)
    (currentOnExit s) (children s) (alivePids s)
    (fun t => if String.eqb t team then p else persisted s t)
    (timers s) (nextTimer s) (signals s) (spawns s) (onExitCalls s) (hostError s).

(** [process.kill(pid, sig)] / [handle.kill(sig)] *)
Definition sendSignal (p : Z) (sg : Signal) (s : State) : State :=
  mkState (leadProcess s) (debounceTimer s) (teamActive s) (pendingBoardChange s)
    (lastSpawnTime s) (totalTurnsUsed s) (currentConfig s) (currentPort s)
    (currentOnExit s) (children s) (alivePids s) (persisted s) (timers s)
    (nextTimer s) (signals s ++ [(p, sg)]) (spawns s) (onExitCalls s) (hostError s).

(** [currentOnExit?.()] *)
Definition fireOnExit (s : State) : State :=
  mkState (leadProcess s) (debounceTimer s) (teamActive s) (pendingBoardChange s)
    (lastSpawnTime s) (totalTurnsUsed s) (currentConfig s) (currentPort s)
    (currentOnExit s) (children s) (alivePids s) (persisted s) (timers s)
    (nextTimer s) (signals s) (spawns s)
    (if currentOnExit s then S (onExitCalls s) else onExitCalls s) (hostError s).

(** An error is raised and nothing handles it. *)
Definition raise (code : string) (s : State) : State :=
  mkState (leadProcess s) (debounceTimer s) (teamActive s) (pendingBoardChange s)
    (lastSpawnTime s) (totalTurnsUsed s) (currentConfig s) (currentPort s)
    (currentOnExit s) (children s) (alivePids s) (persisted s) (timers s)
    (nextTimer s) (signals s) (spawns s) (onExitCalls s)
    (match hostError s with Some c => Some c | None => Some code end).

(** [logStream.write(...)] on the log stream of a cycle after its
    [logStream.end()]: the stream emits 'error' with
    ERR_STREAM_WRITE_AFTER_END, and the stream has no 'error' listener. *)
Definition writeAfterEnd (s : State) : State :=
  raise "ERR_STREAM_WRITE_AFTER_END" s.

(** [setTimeout(cb, delay)]: the new state and the handle. *)
Definition setTimeout (k : TimerKind) (delay : Z) (s : State) : State * nat :=
  (setTimers (timers s ++ [mkTimer (nextTimer s) delay k]) (S (nextTimer s)) s,
   nextTimer s).

Definition clearTimeout (h : nat) (s : State) : State :=
  setTimers (filter (fun t => negb (Nat.eqb (timerId t) h)) (timers s)) (nextTimer s) s.

Definition isPidAlive (p : Z) (s : State) : bool := existsb (Z.eqb p) (alivePids s).

Definition getPersistedPid (team : string) (s : State) : option Z :=
  leadPid (persisted s team).

Definition checkRunning (team : string) (s : State) : bool :=
  if teamActive s then true
  else match getPersistedPid team s with
       | Some p => isPidAlive p s
       | None => false
       end.

(** [config.maxTurns || 1000] *)
Definition maxTurnsOr1000 (c : TeamConfig) : Z :=
  match maxTurns c with
  | Some m => if m =? 0 then 1000 else m
  | None => 1000
  end.

(** [spawnCycle()], reading [now] from the clock and getting [newPid]
    from [spawn]. *)
Definition spawnCycle (now newPid : Z) (s : State) : State :=
  match currentConfig s with
  | None => s
  | Some cfg =>
      let maxT := maxTurnsOr1000 cfg in
      let remainingBudget := maxT - totalTurnsUsed s in
      if remainingBudget <=? 0 then
        fireOnExit
          (persistState (teamName cfg) (mkPersisted None None (Some now))
             (setActive false s))
      else
        let turns := Z.min 50 remainingBudget in
        let s1 := setPending false (setLastSpawn now s) in
        let s2 := setLead (Some (newPid, false)) s1 in
        let s3 := setProcs (children s2 ++ [mkChild newPid cfg])
                           (alivePids s2 ++ [newPid]) s2 in
        persistState (teamName cfg) (mkPersisted (Some newPid) (Some now) None)
          (addSpawn (mkSpawn newPid turns now) s3)
  end.

(** A [result] event with a numeric [num_turns] on the child's stdout. *)
Definition childResult (numTurns : Z) (s : State) : State :=
  setTurns (totalTurnsUsed s + numTurns) s.

(** The body of [leadProcess.on("exit", ...)] for a child spawned with
    configuration [cfg], run at time [now].  The handler first writes
    the "Cycle exited" line and calls [logStream.end()]; only the
    crash-guard branch writes to the stream again. *)
Definition exitHandler (cfg : TeamConfig) (now : Z) (s : State) : State :=
  let team := teamName cfg in
  let s1 := persistState team (mkPersisted None None None) (setLead None s) in
  if negb (teamActive s1) then
    (* Team was stopped while process was running *)
    fireOnExit (persistState team (mkPersisted None None (Some now)) s1)
  else
    let elapsed := now - lastSpawnTime s1 in
    if elapsed <? 5000 then
      (* Crash guard: process exited < 5s after spawn *)
      (* logStream.write?.("") -- "no-op, stream already ended" *)
      fireOnExit (writeAfterEnd s1)
    else
      let maxT := maxTurnsOr1000 cfg in
      if totalTurnsUsed s1 >=? maxT then
        (* Turn budget exhausted *)
        fireOnExit
          (persistState team (mkPersisted None None (Some now)) (setActive false s1))
      else if pendingBoardChange s1 then
        (* Board changed while we were running *)
        let '(s2, h) := setTimeout TRespawn 1000 s1 in
        fireOnExit (setDebounce (Some h) s2)
      else
        (* Nothing pending: go idle *)
        fireOnExit s1.

(** The host reports the exit of the process [p]: it leaves the
    process table and, when it is a child of this supervisor, its exit
    handler runs. *)
Definition childExit (p now : Z) (s : State) : State :=
  match find (fun c => Z.eqb (pid c) p) (children s) with
  | None => s
  | Some c =>
      exitHandler (config c) now
        (setProcs (filter (fun c' => negb (Z.eqb (pid c') p)) (children s))
                  (filter (fun q => negb (Z.eqb q p)) (alivePids s)) s)
  end.

Inductive StartResult :=
| Started (pid : Z) (s : State)
| AlreadyRunning.                      (* throws "Team is already running" *)

Definition startTeam (cfg : TeamConfig) (port : Z) (onExit : bool)
           (now newPid : Z) (s : State) : StartResult :=
  if checkRunning (teamName cfg) s then AlreadyRunning
  else
    let s1 := setConfig (Some cfg) port onExit
                (setPending false (setTurns 0 (setActive true s))) in
    let s2 := spawnCycle now newPid s1 in
    Started (match leadProcess s2 with Some (p, _) => p | None => 0 end) s2.

Definition stopTeam (team : string) (now : Z) (s : State) : State :=
  let s1 := setPending false (setActive false s) in
  let s2 := match debounceTimer s1 with
            | Some h => setDebounce None (clearTimeout h s1)
            | None => s1
            end in
  let s3 :=
    match leadProcess s2 with
    | Some (p, false) =>
        fst (setTimeout TKillLead 5000
               (setLead (Some (p, true)) (sendSignal p SIGTERM s2)))
    | _ =>
        match getPersistedPid team s2 with
        | Some p =>
            if negb (p =? 0) && isPidAlive p s2
            then fst (setTimeout (TKillPid p) 5000 (sendSignal p SIGTERM s2))
            else s2
        | None => s2
        end
    end in
  persistState team (mkPersisted None None (Some now))
    (setConfig None (currentPort s3) (currentOnExit s3) (setLead None s3)).

Definition leadRunning (s : State) : bool :=
  match leadProcess s with
  | Some (_, killed) => negb killed
  | None => false
  end.

(** [notifyBoardChanged()] *)
Definition notifyBoardChanged (s : State) : State :=
  if negb (teamActive s) then s
  else if leadRunning s then setPending true s
  else
    let s1 := match debounceTimer s with
              | Some h => clearTimeout h s
              | None => s
              end in
    let '(s2, h) := setTimeout TIdle 3000 s1 in
    setDebounce (Some h) s2.

(** The callback of an armed timeout. *)
Definition timerCallback (k : TimerKind) (now newPid : Z) (s : State) : State :=
  match k with
  | TRespawn => spawnCycle now newPid (setDebounce None s)
  | TIdle =>
      let s1 := setDebounce None s in
      if teamActive s1 && negb (match leadProcess s1 with Some _ => true | None => false end)
      then spawnCycle now newPid s1
      else s1
  | TKillLead =>
      match leadProcess s with
      | Some (p, false) => setLead (Some (p, true)) (sendSignal p SIGKILL s)
      | _ => s
      end
  | TKillPid p => if isPidAlive p s then sendSignal p SIGKILL s else s
  end.

(** The event loop runs the callback of a timeout that is still armed. *)
Definition timerFired (h : nat) (now newPid : Z) (s : State) : State :=
  match find (fun t => Nat.eqb (timerId t) h) (timers s) with
  | None => s
  | Some t => timerCallback (kind t) now newPid (clearTimeout h s)
  end.

(** The three states of the comment that heads the module. *)
Inductive Phase := STOPPED | IDLE | RUNNING.

Definition phase (s : State) : Phase :=
  if negb (teamActive s) then STOPPED
  else match leadProcess s with
       | Some _ => RUNNING
       | None => IDLE
       end.

(** A team configuration for examples. *)
Definition demoConfig : TeamConfig :=
  mkTeamConfig "alpha" "/srv/alpha" (Some "sonnet"%string) (Some 200).

(** The state a [Started] result carries ([init] when the start threw). *)
Definition startedState (r : StartResult) : State :=
  match r with
  | Started _ s => s
  | AlreadyRunning => init
  end.

(** What can happen to the supervisor: the three exported operations,
    a [result] line on the child's stdout, the exit of a process, and
    an armed timeout coming due. *)
Inductive Event :=
| EStart (cfg : TeamConfig) (port : Z) (onExit : bool) (now newPid : Z)
| EStop (team : string) (now : Z)
| ENotify
| EResult (numTurns : Z)
| EExit (p now : Z)
| ETimer (h : nat) (now newPid : Z).

(** One turn of the event loop.  A [startTeam] that throws leaves the
    module variables as they were; once an error went unhandled the host
    process is gone and nothing more happens. *)
Definition step (s : State) (e : Event) : State :=
  match hostError s with
  | Some _ => s
  | None =>
      match e with
      | EStart cfg port onExit now newPid =>
          match startTeam cfg port onExit now newPid s with
          | Started _ s' => s'
          | AlreadyRunning => s
          end
      | EStop team now => stopTeam team now s
      | ENotify => notifyBoardChanged s
      | EResult n => childResult n s
      | EExit p now => childExit p now s
      | ETimer h now newPid => timerFired h now newPid s
      end
  end.

Definition run (evs : list Event) (s : State) : State := fold_left step evs s.

Definition isStart (e : Event) : bool :=
  match e with EStart _ _ _ _ _ => true | _ => false end.

(** Events that are not a call of [startTeam] or [stopTeam]. *)
Definition isPassive (e : Event) : bool :=
  match e with EStart _ _ _ _ _ | EStop _ _ => false | _ => true end.

(** Handles are handed out in increasing order. *)
Definition freshTimers (s : State) : Prop :=
  forall t, In t (timers s) -> (timerId t < nextTimer s)%nat.

Definition isKillPid (k : TimerKind) : bool :=
  match k with TKillPid _ => true | _ => false end.

(** The armed timeouts other than the one [debounceTimer] holds. *)
Definition withoutDebounce (s : State) : list Timer :=
  match debounceTimer s with
  | Some d => filter (fun t => negb (Nat.eqb (timerId t) d)) (timers s)
  | None => timers s
  end.

(** [n] calls of [notifyBoardChanged()] in a row. *)
Definition notifications (n : nat) (s : State) : State :=
  Nat.iter n notifyBoardChanged s.










End Supervisor.

(* ===================================================================== *)
(** * Paths: the part of Node's [path] module the routes call *)
(* ===================================================================== *)

Module Paths.

Local Open Scope string_scope.

(** [path.isAbsolute], [path.resolve(...segments)] and [path.sep]. *)
Record PathApi := mkPathApi {
  isAbsolute : string -> bool;
  resolve : list string -> string;
  sep : string
}.

(** ** [path.posix], for a process whose working directory is [cwd] *)

Definition slash : ascii := "/"%char.

Definition posixIsAbsolute (p : string) : bool :=
  match p with
  | String c _ => Ascii.eqb c slash
  | EmptyString => false
  end.

(** [p.split("/")] *)
Fixpoint splitSlash (p : string) : list string :=
  match p with
  | EmptyString => [EmptyString]
  | String c rest =>
      let r := splitSlash rest in
      if Ascii.eqb c slash then EmptyString :: r
      else match r with
           | seg :: more => String c seg :: more
           | [] => [String c EmptyString]
           end
  end.

(** [normalizeString] of an absolute path: the stack of segments kept so
    far, innermost first; empty and [.] segments are dropped, [..] pops
    and is dropped at the root. *)
Definition pushSegment (stack : list string) (seg : string) : list string :=
  if String.eqb seg "" || String.eqb seg "." then stack
  else if String.eqb seg ".." then tl stack
  else seg :: stack.

Definition normalizeSegments (segs : list string) : list string :=
  rev (fold_left pushSegment segs []).

(** The right-to-left scan of [resolve]: prepend arguments until one is
    absolute; empty arguments are skipped. *)
Fixpoint resolveArgs (revArgs : list string) (acc : string) : string * bool :=
  match revArgs with
  | [] => (acc, false)
  | p :: rest =>
      if String.eqb p "" then resolveArgs rest acc
      else
        let acc' := p ++ "/" ++ acc in
        if posixIsAbsolute p then (acc', true) else resolveArgs rest acc'
  end.

(** The segments of [path.resolve(...args)]; [cwd] is [process.cwd()],
    an absolute path. *)
Definition posixResolveSegments (cwd : string) (args : list string) : list string :=
  let '(p, absolute) := resolveArgs (rev args) "" in
  normalizeSegments (splitSlash (if absolute then p else cwd ++ "/" ++ p)).

Definition posixResolve (cwd : string) (args : list string) : string :=
  "/" ++ String.concat "/" (posixResolveSegments cwd args).

Definition posix (cwd : string) : PathApi :=
  mkPathApi posixIsAbsolute (posixResolve cwd) "/".






End Paths.

(* ===================================================================== *)
(** * HTTP routes over the board store ([routes], [board-store]) *)
(* ===================================================================== *)

Module Routes.
Import Types.

Local Open Scope string_scope.
Local Open Scope list_scope.

(** ** Board store *)

(** The board file of the active team: absent, or holding a board. *)
Definition Disk := option Board.

Definition defaultBoard (now : Z) : Board :=
  mkBoard (mkMeta "My Board" now 1 None) COLUMNS [].

(** What a request reads from its surroundings: the successive readings
    of the clock ([new Date()]), the successive results of
    [generateId()], and the conversions of the language between numbers
    and strings. *)
Record Env := mkEnv {
  clock : nat -> Z;
  newId : nat -> string;
  host : Js.Host
}.

(** [readBoard()]: the board, the disk afterwards, the boards written
    (a missing file is materialized) and the clock readings consumed. *)
Definition readBoard (e : Env) (d : Disk) : Board * Disk * list Board * nat :=
  match d with
  | Some b => (b, d, [], O)
  | None => let b := defaultBoard (clock e 0) in (b, Some b, [b], 1%nat)
  end.

(** ** Requests and responses *)

(** The outcome of [parseBody]: the promise rejects with "Invalid JSON"
    when the body does not parse; an empty body parses as [{}].  A parsed
    body is a JSON object, seen through the keys the route reads. *)
Inductive Payload (A : Type) :=
| Malformed
| Parsed (body : A).
Arguments Malformed {A}.
Arguments Parsed {A} body.

(** The fields each route reads from the parsed body; [None] is a key
    that is absent.  The text fields are at the type the route casts
    them to ([body.title as string], ...); [order] of a PATCH and
    [taskId] and [type] of a ref are JSON values, as the routes compare
    and store them whatever they are. *)
Record TaskBody := mkTaskBody {
  b_title : option string;
  b_description : option string;
  b_column : option string;
  b_priority : option string;
  b_type : option string;
  b_tags : option (list string)
}.

Record PatchBody := mkPatchBody {
  p_title : option string;
  p_description : option string;
  p_column : option string;
  p_order : option Js.Json;
  p_priority : option string;
  p_type : option string;
  p_tags : option (list string);
  p_context : option (list FileContext);
  p_assignee : option string
}.

Record CommentBody := mkCommentBody {
  c_author : option string;
  c_text : option string
}.

Record ContextBody := mkContextBody {
  x_path : option string;
  x_note : option string
}.

Record RefBody := mkRefBody {
  r_taskId : option Js.Json;
  r_type : option Js.Json
}.

Inductive Request :=
| GetBoard
| PostTask (body : Payload TaskBody)
| PatchTask (id : string) (body : Payload PatchBody)
| DeleteTask (id : string)
| PostComment (id : string) (body : Payload CommentBody)
| PostContext (id : string) (body : Payload ContextBody)
| PostRef (id : string) (body : Payload RefBody)
| DeleteRef (id target : string).

Inductive ResponseBody :=
| RBoard (b : Board)
| RTask (t : Task)
| RComment (c : Comment)
| ROk                                  (* { ok: true } *)
| RError (error : string).             (* { error } *)

Inductive Outcome :=
| Responded (status : Z) (body : ResponseBody)
| Rejected (message : string).
  (* the promise of [handleRoute] rejects; the API plugin answers 500 *)

(** What a request leaves behind: the answer, the board file, and the
    boards passed to [writeBoardSync], oldest first. *)
Record Result := mkResult {
  outcome : Outcome;
  disk : Disk;
  writes : list Board
}.

Definition statusOf (r : Result) : option Z :=
  match outcome r with
  | Responded st _ => Some st
  | Rejected _ => None
  end.

(** ** JavaScript idioms *)

(** [(x as string) || d]: an absent key and the empty string are falsy. *)
Definition orDefault (x : option string) (d : string) : string :=
  match x with
  | Some s => if String.eqb s "" then d else s
  | None => d
  end.

(** [!x] for a string-valued key. *)
Definition falsy (x : option string) : bool :=
  match x with
  | Some s => String.eqb s ""
  | None => true
  end.

(** ** Tasks of a board *)

Definition hasId (i : string) (t : Task) : bool := String.eqb (id t) i.

(** [tasks.find(t => t.id === i)] *)
Definition findTask (i : string) (ts : list Task) : option Task :=
  find (hasId i) ts.

(** Mutation of the object that [find]/[findIndex] returned: the first
    task with the id is replaced by its image. *)
Fixpoint updTask (i : string) (f : Task -> Task) (ts : list Task) : list Task :=
  match ts with
  | [] => []
  | t :: rest => if hasId i t then f t :: rest else t :: updTask i f rest
  end.

(** [tasks.splice(tasks.findIndex(t => t.id === i), 1)] *)
Fixpoint removeTask (i : string) (ts : list Task) : list Task :=
  match ts with
  | [] => []
  | t :: rest => if hasId i t then rest else t :: removeTask i rest
  end.

Definition withTasks (b : Board) (ts : list Task) : Board :=
  mkBoard (meta b) (columns b) ts.

(** A missing [refs] or [context] array reads as the empty one. *)
Definition refsOf (t : Task) : list TaskRef :=
  match refs t with Some l => l | None => [] end.

Definition contextOf (t : Task) : list FileContext :=
  match context t with Some l => l | None => [] end.

Definition setRefs (l : list TaskRef) (t : Task) : Task :=
  mkTask (id t) (title t) (description t) (column t) (order t) (priority t)
         (type t) (tags t) (comments t) (context t) (Some l) (assignee t)
         (createdAt t) (updatedAt t).

Definition setContext (l : list FileContext) (t : Task) : Task :=
  mkTask (id t) (title t) (description t) (column t) (order t) (priority t)
         (type t) (tags t) (comments t) (Some l) (refs t) (assignee t)
         (createdAt t) (updatedAt t).

Definition setComments (l : list Comment) (t : Task) : Task :=
  mkTask (id t) (title t) (description t) (column t) (order t) (priority t)
         (type t) (tags t) l (context t) (refs t) (assignee t)
         (createdAt t) (updatedAt t).

Definition touch (now : Z) (t : Task) : Task :=
  mkTask (id t) (title t) (description t) (column t) (order t) (priority t)
         (type t) (tags t) (comments t) (context t) (refs t) (assignee t)
         (createdAt t) now.

(** [l.splice(l.findIndex(p), 1)] when the index is found. *)
Fixpoint removeFirst {A : Type} (p : A -> bool) (l : list A) : list A :=
  match l with
  | [] => []
  | x :: rest => if p x then rest else x :: removeFirst p rest
  end.

(** [r.taskId === target] *)
Definition refTo (target : string) (r : TaskRef) : bool :=
  String.eqb (taskId r) target.

(** [r.taskId === target && r.type === refType], the type being that
    of the request *)
Definition refMatches (target : string) (refType : Js.Json) (r : TaskRef) : bool :=
  String.eqb (taskId r) target &&
  match rtype r with
  | Some w => Js.strictEq w refType
  | None => false
  end.

(** [r.taskId === i && r.type === inverse], the type being what the
    table gave *)
Definition inverseMatches (i : string) (inverse : Js.Lookup) (r : TaskRef) : bool :=
  String.eqb (taskId r) i && Js.lookupEq (rtype r) inverse.

(** The two of them for a type that is one of the five. *)
Definition refIs (target : string) (ty : RefType) (r : TaskRef) : bool :=
  inverseMatches target (Js.Found (refTypeName ty)) r.

Definition respond (st : Z) (body : ResponseBody) (d : Disk) (w : list Board) : Result :=
  mkResult (Responded st body) d w.

Definition notFound (d : Disk) (w : list Board) : Result :=
  respond 404 (RError "Task not found") d w.

(** [writeBoardSync(board); json(res, st, body)] *)
Definition writeAndRespond (st : Z) (body : ResponseBody) (b : Board)
           (w : list Board) : Result :=
  respond st body (Some b) (w ++ [b]).

(** ** GET /api/board *)

Definition getBoard (e : Env) (d : Disk) : Result :=
  let '(board, d1, w, _) := readBoard e d in
  respond 200 (RBoard board) d1 w.

(** ** POST /api/tasks *)

Definition postTask (e : Env) (p : Payload TaskBody) (d : Disk) : Result :=
  match p with
  | Malformed => mkResult (Rejected "Invalid JSON") d []
  | Parsed body =>
      let '(board, d1, w, k) := readBoard e d in
      let now := clock e k in
      let columnTasks :=
        filter (fun t => String.eqb (column t) (orDefault (b_column body) "backlog"))
               (tasks board) in
      (* Math.max(...columnTasks.map((t) => t.order)) *)
      match Js.toNumbers (host e) (map order columnTasks) with
      | None => mkResult (Rejected "Cannot convert object to primitive value") d1 w
      | Some numbers =>
          let maxOrder :=
            match columnTasks with
            | [] => 0%float
            | _ => Js.Math_max numbers
            end in
          let task :=
            mkTask (newId e 0)
                   (orDefault (b_title body) "Untitled")
                   (orDefault (b_description body) "")
                   (orDefault (b_column body) "backlog")
                   (Js.numberJson (maxOrder + 1)%float)
                   (orDefault (b_priority body) "medium")
                   (orDefault (b_type body) "task")
                   (match b_tags body with Some l => l | None => [] end)
                   [] (Some []) (Some []) None now now in
          writeAndRespond 201 (RTask task) (withTasks board (tasks board ++ [task])) w
      end
  end.

(** ** PATCH /api/tasks/:id *)

Definition patchField {A : Type} (x : option A) (old : A) : A :=
  match x with Some v => v | None => old end.

(** The loop over the [updatable] keys, then [updatedAt]. *)
Definition applyPatch (body : PatchBody) (now : Z) (t : Task) : Task :=
  mkTask (id t)
         (patchField (p_title body) (title t))
         (patchField (p_description body) (description t))
         (patchField (p_column body) (column t))
         (patchField (option_map Js.serialize (p_order body)) (order t))
         (patchField (p_priority body) (priority t))
         (patchField (p_type body) (type t))
         (patchField (p_tags body) (tags t))
         (comments t)
         (match p_context body with Some l => Some l | None => context t end)
         (refs t)
         (match p_assignee body with Some a => Some a | None => assignee t end)
         (createdAt t)
         now.

Definition patchTask (e : Env) (i : string) (p : Payload PatchBody) (d : Disk) : Result :=
  match p with
  | Malformed => mkResult (Rejected "Invalid JSON") d []
  | Parsed body =>
      let '(board, d1, w, k) := readBoard e d in
      match findTask i (tasks board) with
      | None => notFound d1 w
      | Some t =>
          let t' := applyPatch body (clock e k) t in
          writeAndRespond 200 (RTask t')
            (withTasks board (updTask i (applyPatch body (clock e k)) (tasks board))) w
      end
  end.

(** ** DELETE /api/tasks/:id *)

Definition deleteTask (e : Env) (i : string) (d : Disk) : Result :=
  let '(board, d1, w, _) := readBoard e d in
  match findTask i (tasks board) with
  | None => notFound d1 w
  | Some _ =>
      writeAndRespond 200 ROk (withTasks board (removeTask i (tasks board))) w
  end.

(** ** POST /api/tasks/:id/comments *)

Definition postComment (e : Env) (i : string) (p : Payload CommentBody) (d : Disk)
  : Result :=
  match p with
  | Malformed => mkResult (Rejected "Invalid JSON") d []
  | Parsed body =>
      let '(board, d1, w, k) := readBoard e d in
      match findTask i (tasks board) with
      | None => notFound d1 w
      | Some _ =>
          let c := mkComment (newId e 0) (orDefault (c_author body) "User")
                             (orDefault (c_text body) "") (clock e k) in
          writeAndRespond 201 (RComment c)
            (withTasks board
               (updTask i (fun t => touch (clock e (S k)) (setComments (comments t ++ [c]) t))
                        (tasks board))) w
      end
  end.

(** ** POST /api/tasks/:id/context *)

Section WithPath.

Variable P : Paths.PathApi.

(** [filePath.startsWith(resolve(projectDir) + sep) ||
     filePath === resolve(projectDir)] *)
Definition staysWithin (projectDir filePath : string) : bool :=
  String.prefix (Paths.resolve P [projectDir] ++ Paths.sep P) filePath
  || String.eqb filePath (Paths.resolve P [projectDir]).

(** [board.meta.team?.projectDir] *)
Definition projectDirOf (b : Board) : option string :=
  match team (meta b) with
  | Some cfg => Some (projectDir cfg)
  | None => None
  end.

Definition hasPath (filePath : string) (ctx : list FileContext) : bool :=
  existsb (fun f => String.eqb (path f) filePath) ctx.

(** [(body.note as string) || undefined] *)
Definition noteOf (x : option string) : option string :=
  match x with
  | Some s => if String.eqb s "" then None else Some s
  | None => None
  end.

(** [task.context.push(entry); task.updatedAt = now] *)
Definition addContextTo (entry : FileContext) (now : Z) (t : Task) : Task :=
  touch now (setContext (contextOf t ++ [entry]) t).

Definition postContext (e : Env) (i : string) (p : Payload ContextBody) (d : Disk)
  : Result :=
  match p with
  | Malformed => mkResult (Rejected "Invalid JSON") d []
  | Parsed body =>
      let '(board, d1, w, k) := readBoard e d in
      match findTask i (tasks board) with
      | None => notFound d1 w
      | Some task =>
          if falsy (x_path body) then
            respond 400 (RError "path is required") d1 w
          else
            let rawPath := orDefault (x_path body) "" in
            if Paths.isAbsolute P rawPath then
              respond 400
                (RError "Absolute paths are not allowed; use a path relative to projectDir")
                d1 w
            else if falsy (projectDirOf board) then
              respond 400 (RError "No projectDir configured; connect a team first") d1 w
            else
              let dir := orDefault (projectDirOf board) "" in
              let filePath := Paths.resolve P [dir; rawPath] in
              if negb (staysWithin dir filePath) then
                respond 400 (RError "Path escapes projectDir") d1 w
              else if hasPath filePath (contextOf task) then
                (* Avoid duplicates by path *)
                respond 201 (RTask (setContext (contextOf task) task)) d1 w
              else
                let entry := mkFileContext filePath (noteOf (x_note body)) in
                writeAndRespond 201 (RTask (addContextTo entry (clock e k) task))
                  (withTasks board
                     (updTask i (addContextTo entry (clock e k)) (tasks board))) w
      end
  end.

End WithPath.

(** ** POST /api/tasks/:id/refs *)

(** The table of the two ref routes. *)
Definition inverseType : list (string * string) :=
  [ ("related", "related");
    ("blocks", "blocked-by");
    ("blocked-by", "blocks");
    ("parent", "child");
    ("child", "parent") ].

(** [inverseType[refType]]: the value is made a property key first;
    [None] is the TypeError of that conversion. *)
Definition lookupInverse (H : Js.Host) (refType : Js.Json) : option Js.Lookup :=
  option_map (Js.property inverseType) (Js.toString H refType).

(** [board.tasks.find((t) => t.id === targetId)]: the ids are strings *)
Definition findTarget (targetId : Js.Json) (ts : list Task) : option Task :=
  match targetId with
  | Js.JStr s => findTask s ts
  | _ => None
  end.

Definition addRefTo (r : TaskRef) (now : Z) (t : Task) : Task :=
  touch now (setRefs (refsOf t ++ [r]) t).

(** The target side: its [refs] array is materialized, and the inverse
    is pushed unless it is there.  (When source and target are one task
    the ref just pushed is among those compared; it has a type, and
    that type is a string only if the request's was: comparing what is
    read back of it gives the same.) *)
Definition addInverseTo (i : string) (inverse : Js.Lookup) (now : Z) (t : Task) : Task :=
  if existsb (inverseMatches i inverse) (refsOf t)
  then setRefs (refsOf t) t
  else touch now (setRefs (refsOf t ++ [mkTaskRef i (Js.storedLookup inverse)]) t).

Definition postRef (e : Env) (i : string) (p : Payload RefBody) (d : Disk) : Result :=
  match p with
  | Malformed => mkResult (Rejected "Invalid JSON") d []
  | Parsed body =>
      let '(board, d1, w, k) := readBoard e d in
      match findTask i (tasks board) with
      | None => notFound d1 w
      | Some task =>
          match r_taskId body, r_type body with
          | Some targetId, Some refType =>
              if negb (Js.truthy targetId) || negb (Js.truthy refType) then
                respond 400 (RError "taskId and type are required") d1 w
              else
                match findTarget targetId (tasks board) with
                | None => respond 404 (RError "Referenced task not found") d1 w
                | Some target =>
                    if existsb (refMatches (id target) refType) (refsOf task) then
                      (* Avoid duplicates *)
                      respond 200 (RTask (setRefs (refsOf task) task)) d1 w
                    else
                      match lookupInverse (host e) refType with
                      | None =>
                          mkResult (Rejected "Cannot convert object to primitive value")
                                   d1 w
                      | Some inverse =>
                          let ts1 :=
                            updTask i
                              (addRefTo (mkTaskRef (id target)
                                                   (Some (Js.serialize refType)))
                                        (clock e k))
                              (tasks board) in
                          let ts2 :=
                            updTask (id target)
                                    (addInverseTo i inverse (clock e (S k))) ts1 in
                          writeAndRespond 201
                            (RTask (match findTask i ts2 with
                                    | Some t => t
                                    | None => task
                                    end))
                            (withTasks board ts2) w
                      end
                end
          | _, _ => respond 400 (RError "taskId and type are required") d1 w
          end
      end
  end.

(** ** DELETE /api/tasks/:id/refs/:targetId *)

(** The source side: the first ref that names the target goes. *)
Definition dropRefTo (target : string) (now : Z) (t : Task) : Task :=
  touch now (setRefs (removeFirst (refTo target) (refsOf t)) t).

(** The target side, entered only when it has a [refs] array. *)
Definition dropInverseFrom (i : string) (inv : Js.Lookup) (now : Z) (t : Task) : Task :=
  match refs t with
  | Some l => touch now (setRefs (removeFirst (inverseMatches i inv) l) t)
  | None => t
  end.

(** [removedType]: the type of the first ref of the task to the target;
    [None] stands for [null] (no such ref) and for [undefined] (the ref
    has no type), which are both falsy. *)
Definition removedType (target : string) (t : Task) : option Js.Json :=
  match find (refTo target) (refsOf t) with
  | Some r => rtype r
  | None => None
  end.

Definition deleteRef (e : Env) (i target : string) (d : Disk) : Result :=
  let '(board, d1, w, k) := readBoard e d in
  match findTask i (tasks board) with
  | None => notFound d1 w
  | Some task =>
      let ts1 := updTask i (dropRefTo target (clock e k)) (tasks board) in
      let written ts2 :=
        writeAndRespond 200
          (RTask (match findTask i ts2 with Some t => t | None => task end))
          (withTasks board ts2) w in
      match removedType target task with
      | Some removed =>
          if Js.truthy removed then
            match findTask target ts1 with
            | Some tgt =>
                match refs tgt with
                | Some _ =>
                    match lookupInverse (host e) removed with
                    | None =>
                        mkResult (Rejected "Cannot convert object to primitive value")
                                 d1 w
                    | Some inv =>
                        written
                          (updTask target (dropInverseFrom i inv (clock e (S k))) ts1)
                    end
                | None => written ts1
                end
            | None => written ts1
            end
          else written ts1
      | None => written ts1
      end
  end.

(** ** Dispatch *)

Section Dispatch.

Variable P : Paths.PathApi.

(** The board routes of [handleRoute]. *)
Definition handleRoute (e : Env) (r : Request) (d : Disk) : Result :=
  match r with
  | GetBoard => getBoard e d
  | PostTask body => postTask e body d
  | PatchTask i body => patchTask e i body d
  | DeleteTask i => deleteTask e i d
  | PostComment i body => postComment e i body d
  | PostContext i body => postContext P e i body d
  | PostRef i body => postRef e i body d
  | DeleteRef i target => deleteRef e i target d
  end.

End Dispatch.

(** ** Boards produced by the ref endpoints *)


(** The inverse of a ref type in the words of the specification:
    related <-> related, blocks <-> blocked-by, parent <-> child.  It is
    what the table [inverseType] of the routes is compared with. *)
Definition claimedInverse (t : RefType) : RefType :=
  match t with
  | related => related
  | blocks => blocked_by
  | blocked_by => blocks
  | parent => child
  | child => parent
  end.

(** The body [{taskId: target, type: ty}] for one of the five types. *)
Definition refBody (target : string) (ty : RefType) : RefBody :=
  mkRefBody (Some (Js.JStr target)) (Some (Js.JStr (refTypeName ty))).









(** The [RefType] a stored ref has, if its type is one of the five. *)
Definition knownType (r : TaskRef) : option RefType :=
  find (fun ty => Js.lookupEq (rtype r) (Js.Found (refTypeName ty)))
       [related; blocks; blocked_by; parent; child].

(** [removedType] when it is one of the five. *)
Definition knownRemoved (target : string) (l : list TaskRef) : option RefType :=
  match find (refTo target) l with
  | Some r => knownType r
  | None => None
  end.

(** What POST /api/tasks/i/refs with [{taskId: target, type: ty}] does to
    the refs [l] of the task whose id is [a], when it writes. *)
Definition postRefs (i target : string) (ty : RefType) (a : string)
           (l : list TaskRef) : list TaskRef :=
  let l1 := if String.eqb a i then l ++ [mkRef target ty] else l in
  if String.eqb a target
  then if existsb (refIs i (claimedInverse ty)) l1
       then l1
       else l1 ++ [mkRef i (claimedInverse ty)]
  else l1.

(** What DELETE /api/tasks/i/refs/target does to the refs [l] of the task
    whose id is [a]; [removed] is [removedType] of the source task. *)
Definition deleteRefs (i target : string) (removed : option RefType) (a : string)
           (l : list TaskRef) : list TaskRef :=
  let l1 := if String.eqb a i then removeFirst (refTo target) l else l in
  match removed with
  | Some ty =>
      if String.eqb a target
      then removeFirst (refIs i (claimedInverse ty)) l1
      else l1
  | None => l1
  end.

(** The tasks that a POST /api/tasks/i/refs of one of the five types
    writes. *)
Definition afterPost (i target : string) (ty : RefType) (n1 n2 : Z) (ts : list Task) :=
  updTask target
          (addInverseTo i (Js.Found (refTypeName (claimedInverse ty))) n2)
          (updTask i (addRefTo (mkRef target ty) n1) ts).

(** The tasks that a DELETE /api/tasks/i/refs/target writes when the
    type removed is one of the five, or when there is none. *)
Definition afterDelete (i target : string) (removed : option RefType) (n1 n2 : Z)
           (ts : list Task) :=
  match removed with
  | Some ty =>
      updTask target
              (dropInverseFrom i (Js.Found (refTypeName (claimedInverse ty))) n2)
              (updTask i (dropRefTo target n1) ts)
  | None => updTask i (dropRefTo target n1) ts
  end.

(** ** Requests by shape *)

(** The task id in the URL of a request, for the routes that have one. *)
Definition taskIdOf (r : Request) : option string :=
  match r with
  | GetBoard | PostTask _ => None
  | PatchTask i _ | DeleteTask i | PostComment i _ | PostContext i _
  | PostRef i _ | DeleteRef i _ => Some i
  end.

(** The request carries a body that does not parse. *)
Definition malformed (r : Request) : bool :=
  match r with
  | PostTask Malformed | PatchTask _ Malformed | PostComment _ Malformed
  | PostContext _ Malformed | PostRef _ Malformed => true
  | _ => false
  end.

(** ** Data for examples *)

(** The examples hold numbers where numbers are wanted and strings
    where strings are, so that neither conversion of the host is ever
    called in them. *)
Definition demoEnv : Env :=
  mkEnv (fun k => 1700000000000 + Z.of_nat k) (fun _ => "n1")
        (Js.mkHost (fun _ => "0") (fun _ => PrimFloat.nan)).

Definition plainTask (i col : string) (ord : float) (rs : list TaskRef) : Task :=
  mkTask i "A task" "" col (Js.JNum ord) "medium" "task" [] [] (Some []) (Some rs)
         None 0 0.

(** Two tasks linked a1 -blocks-> b2, on the board of team [alpha]. *)
Definition demoBoard : Board :=
  mkBoard (mkMeta "My Board" 0 1 (Some (mkTeamConfig "alpha" "/tmp/p" None None)))
          COLUMNS
          [ plainTask "a1" "backlog" 1%float [mkRef "b2" blocks];
            plainTask "b2" "backlog" 2.5%float [mkRef "a1" blocked_by] ].

(** The same two tasks before they were linked. *)
Definition unlinkedBoard : Board :=
  withTasks demoBoard
    [ plainTask "a1" "backlog" 1%float []; plainTask "b2" "backlog" 2.5%float [] ].


End Routes.

(* ===================================================================== *)
(** * Search route *)
(* ===================================================================== *)

Module Search.
Import Types.

Local Open Scope string_scope.

(** Modelled from the spec: [String.prototype.toLowerCase] on one ASCII
    character, for the case-insensitive match of the search route. *)
Definition lowerAscii (c : ascii) : ascii :=
  let n := nat_of_ascii c in
  if (65 <=? n)%nat && (n <=? 90)%nat then ascii_of_nat (n + 32) else c.

(** Modelled from the spec: lower-casing of a string, character by
    character. *)
Fixpoint toLowerCase (s : string) : string :=
  match s with
  | EmptyString => EmptyString
  | String c rest => String (lowerAscii c) (toLowerCase rest)
  end.

(** Modelled from the spec: "substring match": [needle] occurs in [hay]. *)
Fixpoint contains (needle hay : string) : bool :=
  String.prefix needle hay ||
  match hay with
  | EmptyString => false
  | String _ rest => contains needle rest
  end.

(** Modelled from the spec: "Substring match (case-insensitive)". *)
Definition containsCI (q s : string) : bool :=
  contains (toLowerCase q) (toLowerCase s).

(** Modelled from the spec: the match is "on title/description/tag". *)
Definition matches (q : string) (t : Task) : bool :=
  containsCI q (title t) || containsCI q (description t)
  || existsb (containsCI q) (tags t).

(** Modelled from the spec: the query string of
    [GET /api/tasks/search?q=&column=&limit=]; [limit] is [None] when
    the parameter is missing or not numeric. *)
Record Query := mkQuery {
  q : option string;
  qcolumn : option string;
  limit : option nat
}.

(** Modelled from the spec: "optional column filter". *)
Definition inColumn (c : option string) (t : Task) : bool :=
  match c with
  | Some col => String.eqb (column t) col
  | None => true
  end.

(** Modelled from the spec: "limit default 20, cap 100, non-numeric
    falls back to default". *)
Definition effectiveLimit (l : option nat) : nat :=
  Nat.min (match l with Some n => n | None => 20%nat end) 100.

Inductive Response :=
| Found (status : Z) (results : list Task)
| Failed (status : Z) (error : string).

(** Modelled from the spec: the search route of [handleRoute], which the
    source tree does not contain (its test suite does): the tasks of the
    board that match, in board order, cut at the limit; a request
    without [q] is answered 400 as the tests expect. *)
Definition search (query : Query) (b : Board) : Response :=
  match q query with
  | None => Failed 400 "q parameter is required"
  | Some needle =>
      Found 200
        (firstn (effectiveLimit (limit query))
                (filter (fun t => matches needle t && inColumn (qcolumn query) t)
                        (tasks b)))
  end.

(** A board for examples: the two tasks of the first test of the route,
    and a third one in another column. *)
Definition searchTask (i ttl desc col : string) (tgs : list string) : Task :=
  mkTask i ttl desc col (Js.JNum 0) "medium" "task" tgs [] (Some []) (Some []) None 0 0.

Definition searchBoard : Board :=
  mkBoard (mkMeta "test" 0 1 None) COLUMNS
          [ searchTask "1" "Fix Authentication Bug" "" "backlog" [];
            searchTask "2" "Add logging" "" "backlog" ["backend"];
            searchTask "3" "Review" "oauth flow" "done" ["Auth"] ].

End Search.

(* ===================================================================== *)
(** * Properties *)
(* ===================================================================== *)

(** ** Turn governor *)

Module GovernorFacts.
Import Governor.

(** [checkWarning] never touches the turn count nor the exhaustion log. *)
Lemma checkWarning_turns o s :
  turnsUsed (checkWarning o s) = turnsUsed s /\
  exhaustedCalls (checkWarning o s) = exhaustedCalls s.
Proof.
  unfold checkWarning.
  destruct (warningFired s || negb (onBudgetWarning o)); [tauto|].
  destruct (ratio_le _ _ _); simpl; tauto.
Qed.

(** With the callback supplied, [recordTurns] calls it exactly when the
    count reaches the budget after the call, whatever [exhausted] was. *)
Lemma recordTurns_fires o count s :
  onBudgetExhausted o = true ->
  exhaustedCalls (snd (recordTurns o count s)) =
    if turnsUsed s + count >=? maxTurns o
    then exhaustedCalls s ++ [(turnsUsed s + count, maxTurns o)]
    else exhaustedCalls s.
Proof.
  intros Hcb. unfold recordTurns. cbv zeta.
  destruct (checkWarning_turns o
              (mkState (turnsUsed s + count) (exhausted s) (warningFired s)
                       (exhaustedCalls s) (warningCalls s))) as [Ht He].
  rewrite Ht. cbn [turnsUsed].
  destruct (turnsUsed s + count >=? maxTurns o); cbn [snd exhaustedCalls].
  - rewrite Hcb, He. reflexivity.
  - rewrite He. reflexivity.
Qed.

(** C3, evaluated on the code: with a budget of 10 turns,
    [recordTurns(10)] exhausts the budget and calls [onBudgetExhausted],
    and the next [recordTurns(5)] of the same epoch calls it a second
    time: the callback is not one-shot. *)
Theorem exhausted_callback_fires_again :
  let o := mkOptions 10 defaultThreshold true false in
  let s1 := snd (recordTurns o 10 init) in
  let s2 := snd (recordTurns o 5 s1) in
  exhausted s1 = true /\
  exhaustedCalls s1 = [(10, 10)] /\
  exhaustedCalls s2 = [(10, 10); (15, 10)].
Proof. vm_compute. auto. Qed.

End GovernorFacts.

(** ** Event delivery *)

Module DeliveryFacts.
Import Delivery.

Section AlwaysThrows.

Variable o : Options.
Hypothesis Hthrows : alwaysThrows o.

(** The loop from [attempt], when every invocation throws: it makes
    one invocation per remaining attempt and gives up on the last. *)
Lemma deliverFrom_throws fuel : forall attempt s,
  0 <= attempt <= maxRetries o ->
  fuel = Z.to_nat (maxRetries o - attempt + 1) ->
  exists s',
    deliverFrom o fuel attempt s = Some (false, s') /\
    actionCalls s' = (actionCalls s + fuel)%nat /\
    confirmCalls s' = confirmCalls s /\
    failedCount s' = failedCount s + 1 /\
    deliveredCount s' = deliveredCount s /\
    deliveredCalls s' = deliveredCalls s /\
    exhaustedCalls s' =
      exhaustedCalls s ++ (if onExhausted o then [maxRetries o + 1] else []).
Proof.
  induction fuel as [|fuel IH]; intros attempt s Hrange Hfuel.
  - exfalso. lia.
  - cbn [deliverFrom].
    replace (attempt <=? maxRetries o) with true by (symmetry; apply Z.leb_le; lia).
    rewrite Hthrows.
    destruct (Z.eqb_spec attempt (maxRetries o)) as [Heq|Hne].
    + assert (fuel = 0%nat) by lia. subst fuel.
      eexists; split; [reflexivity|].
      unfold exhaust, callAction; cbn.
      repeat split; try lia.
      rewrite Heq. destruct (onExhausted o); [reflexivity|].
      now rewrite app_nil_r.
    + destruct (IH (attempt + 1) (backoff o attempt (callAction s)))
        as (s' & Hrun & Hact & Hconf & Hfail & Hdel & Hdc & Hex); [lia|lia|].
      exists s'. split; [exact Hrun|].
      unfold backoff in Hact, Hconf, Hfail, Hdel, Hdc, Hex.
      destruct (attempt <? maxRetries o); cbn in *; repeat split; lia || assumption.
Qed.

End AlwaysThrows.

(** C7: with [maxRetries = k >= 0] and an action that throws on every
    invocation, [deliver()] returns (the loop needs no more fuel than it
    is given), invokes the action exactly [k + 1] times, increments
    [failedCount] by one, calls [onExhausted] (when supplied) once, with
    [k + 1] attempts, and resolves [false]; nothing is counted as
    delivered. *)
Theorem deliver_always_throws (o : Options) (s : State) (k : Z) :
  maxRetries o = k -> 0 <= k -> alwaysThrows o ->
  exists s',
    deliver o s = Some (false, s') /\
    Z.of_nat (actionCalls s') = Z.of_nat (actionCalls s) + (k + 1) /\
    failedCount s' = failedCount s + 1 /\
    exhaustedCalls s' = exhaustedCalls s ++ (if onExhausted o then [k + 1] else []) /\
    deliveredCount s' = deliveredCount s /\
    deliveredCalls s' = deliveredCalls s.
Proof.
  intros Hk Hpos Hthrows. unfold deliver.
  destruct (deliverFrom_throws o Hthrows (Z.to_nat (maxRetries o + 1)) 0 s)
    as (s' & Hrun & Hact & _ & Hfail & Hdel & Hdc & Hex).
  - lia.
  - f_equal. lia.
  - exists s'. rewrite Hrun, Hact, Hfail, Hex, Hdel, Hdc, Hk.
    repeat split. lia.
Qed.

(** C7 at [maxRetries = 2], the case of the test suite: three
    invocations, one [onExhausted(3)]. *)
Lemma deliver_always_throws_witness :
  exists s',
    deliver (mkOptions (fun _ => Throws) 2 10 None true false) init = Some (false, s') /\
    Z.of_nat (actionCalls s') = Z.of_nat (actionCalls init) + (2 + 1) /\
    failedCount s' = failedCount init + 1 /\
    exhaustedCalls s' = exhaustedCalls init ++ [2 + 1] /\
    deliveredCount s' = deliveredCount init /\
    deliveredCalls s' = deliveredCalls init.
Proof.
  apply (deliver_always_throws (mkOptions (fun _ => Throws) 2 10 None true false) init 2).
  - reflexivity.
  - lia.
  - intro n. reflexivity.
Defined.

End DeliveryFacts.

(** ** Resilient watcher *)

Module WatcherFacts.
Import Watcher.

Section WithPlatform.

Variable FS : Type.
Variable existsSync : FS -> string -> bool.
Variable mkdirSync : FS -> string -> FS.
Variable readdirDirs : FS -> string -> option (list string).
Variable watchThrows : FS -> string -> bool.
Variable join : string -> string -> string.
Variable linux : bool.
Variable depth : nat.
Variable o : Options.

Abbreviation State := (State FS).
Abbreviation Event := (Event FS).
Abbreviation step :=
  (step FS existsSync mkdirSync readdirDirs watchThrows join linux depth o).
Abbreviation run :=
  (run FS existsSync mkdirSync readdirDirs watchThrows join linux depth o).
Abbreviation start :=
  (start FS existsSync mkdirSync readdirDirs watchThrows join linux depth o).
Abbreviation initWatchers :=
  (initWatchers FS readdirDirs watchThrows join linux depth o).
Abbreviation ensureDirectories := (ensureDirectories FS existsSync mkdirSync o).
Abbreviation resetHeartbeat := (resetHeartbeat FS o).
Abbreviation heartbeatExpired :=
  (heartbeatExpired FS existsSync mkdirSync readdirDirs watchThrows join linux depth o).
Abbreviation timerFired :=
  (timerFired FS existsSync mkdirSync readdirDirs watchThrows join linux depth o).
Abbreviation stop := (stop FS).
Abbreviation tracked := (tracked FS).

Lemma clearTimeout_tracked id l :
  (forall i, In i l -> i = id) -> clearTimeout id l = [].
Proof.
  induction l as [|x l IH]; intro H; [reflexivity|].
  cbn. rewrite (H x (or_introl eq_refl)), Nat.eqb_refl. cbn.
  apply IH. intros i Hi. apply H. now right.
Qed.

Lemma clearTimeout_incl id l i : In i (clearTimeout id l) -> In i l.
Proof. unfold clearTimeout. rewrite filter_In. tauto. Qed.

(** Watching and directory creation leave the timers alone. *)
Lemma watchSingle_timers dir r (s : State) :
  timers FS (watchSingle FS watchThrows dir r s) = timers FS s /\
  heartbeatTimer FS (watchSingle FS watchThrows dir r s) = heartbeatTimer FS s /\
  isActive FS (watchSingle FS watchThrows dir r s) = isActive FS s /\
  reinitCount FS (watchSingle FS watchThrows dir r s) = reinitCount FS s /\
  nextTimer FS (watchSingle FS watchThrows dir r s) = nextTimer FS s.
Proof. unfold watchSingle. destruct (watchThrows _ _); cbn; tauto. Qed.

Lemma initWatchers_timers (s : State) :
  timers FS (initWatchers s) = timers FS s /\
  heartbeatTimer FS (initWatchers s) = heartbeatTimer FS s /\
  isActive FS (initWatchers s) = isActive FS s /\
  reinitCount FS (initWatchers s) = reinitCount FS s /\
  nextTimer FS (initWatchers s) = nextTimer FS s.
Proof.
  unfold Watcher.initWatchers.
  assert (Hbase : forall s0 : State,
             timers FS (teardownWatchers FS s0) = timers FS s0 /\
             heartbeatTimer FS (teardownWatchers FS s0) = heartbeatTimer FS s0 /\
             isActive FS (teardownWatchers FS s0) = isActive FS s0 /\
             reinitCount FS (teardownWatchers FS s0) = reinitCount FS s0 /\
             nextTimer FS (teardownWatchers FS s0) = nextTimer FS s0)
    by (intro; cbn; tauto).
  specialize (Hbase s). revert Hbase.
  generalize (teardownWatchers FS s) as s0.
  induction (directories o) as [|dir dirs IH]; intros s0 H0; [exact H0|].
  cbn [fold_left]. apply IH.
  destruct (recursive o && linux).
  - generalize (walkDirs FS readdirDirs join depth (fs FS s0) dir) as subs.
    intro subs. revert s0 H0.
    induction subs as [|sub subs IHs]; intros s0 H0; [exact H0|].
    cbn [fold_left]. apply IHs.
    destruct (watchSingle_timers sub false s0) as (A & B & C & D & E).
    rewrite A, B, C, D, E. exact H0.
  - destruct (watchSingle_timers dir (recursive o) s0) as (A & B & C & D & E).
    rewrite A, B, C, D, E. exact H0.
Qed.

Lemma resetHeartbeat_tracked (s : State) : tracked s -> tracked (resetHeartbeat s).
Proof.
  intro H. unfold Watcher.resetHeartbeat.
  destruct ((heartbeatTimeoutMs o <=? 0) || negb (isActive FS s)); [exact H|].
  intros id Hin. cbn in *.
  apply in_app_or in Hin. destruct Hin as [Hin|[<-|[]]]; [|reflexivity].
  exfalso. destruct (heartbeatTimer FS s) as [h|] eqn:Hh.
  - rewrite clearTimeout_tracked in Hin; [destruct Hin|].
    intros i Hi. specialize (H i Hi). congruence.
  - specialize (H id Hin). congruence.
Qed.

Lemma reinit_tracked (s : State) :
  tracked s -> tracked (resetHeartbeat (initWatchers (ensureDirectories s))).
Proof.
  intro H. apply resetHeartbeat_tracked.
  destruct (initWatchers_timers (ensureDirectories s)) as (A & B & _).
  unfold tracked. rewrite A, B. exact H.
Qed.

Lemma stop_tracked (s : State) : tracked s -> timers FS (stop s) = [].
Proof.
  intro H. unfold Watcher.stop. cbn.
  destruct (heartbeatTimer FS s) as [h|] eqn:Hh; cbn.
  - apply clearTimeout_tracked. intros i Hi. specialize (H i Hi). congruence.
  - destruct (timers FS s) as [|x l] eqn:Ht; [reflexivity|].
    specialize (H x). rewrite Ht in H. specialize (H (or_introl eq_refl)).
    congruence.
Qed.

Lemma step_tracked (s : State) e : tracked s -> tracked (step s e).
Proof.
  intro H. destruct e as [| | |dir|id|change]; cbn [Watcher.step].
  - apply (reinit_tracked (mkState FS _ _ _ _ true 0%nat _ _)). exact H.
  - intros id Hin. rewrite (stop_tracked s H) in Hin. destruct Hin.
  - now apply resetHeartbeat_tracked.
  - unfold watchCallback. intros id Hin. cbn in *.
    now apply (resetHeartbeat_tracked s H).
  - unfold Watcher.timerFired. destruct (existsb _ _); [|exact H].
    unfold Watcher.heartbeatExpired. cbn [isActive].
    assert (Hc : tracked (mkState FS (watchers FS s) (heartbeatTimer FS s)
                            (clearTimeout id (timers FS s)) (nextTimer FS s)
                            (isActive FS s) (reinitCount FS s) (fs FS s)
                            (changes FS s))).
    { intros i Hi. cbn in *. apply H. eapply clearTimeout_incl; eauto. }
    destruct (negb (isActive FS s)); [exact Hc|].
    apply (reinit_tracked (mkState FS _ _ _ _ _ _ _ _)). exact Hc.
  - exact H.
Qed.

Lemma run_tracked evs : forall s : State, tracked s -> tracked (run evs s).
Proof.
  induction evs as [|e evs IH]; intros s H; [exact H|].
  cbn. apply IH. now apply step_tracked.
Qed.

(** A stopped watcher stays stopped under every event but [start()],
    and its [reinitCount] does not move. *)
Lemma step_inactive (s : State) e :
  isStart FS e = false -> isActive FS s = false ->
  isActive FS (step s e) = false /\ reinitCount FS (step s e) = reinitCount FS s.
Proof.
  intros He Hs. destruct e as [| | |dir|id|change]; cbn [Watcher.step].
  - discriminate.
  - unfold Watcher.stop. cbn. destruct (heartbeatTimer FS s); cbn; auto.
  - unfold heartbeat, Watcher.resetHeartbeat. rewrite Hs, orb_true_r. auto.
  - unfold watchCallback, Watcher.resetHeartbeat. rewrite Hs, orb_true_r. cbn. auto.
  - unfold Watcher.timerFired. destruct (existsb _ _); [|auto].
    unfold Watcher.heartbeatExpired. cbn [isActive]. rewrite Hs. cbn. auto.
  - cbn. auto.
Qed.

Lemma run_inactive evs : forall s : State,
  forallb (fun e => negb (isStart FS e)) evs = true ->
  isActive FS s = false ->
  isActive FS (run evs s) = false /\ reinitCount FS (run evs s) = reinitCount FS s.
Proof.
  induction evs as [|e evs IH]; intros s Hev Hs; [cbn; auto|].
  cbn in Hev. apply andb_prop in Hev. destruct Hev as [He Hev].
  apply negb_true_iff in He.
  destruct (step_inactive s e He Hs) as [Ha Hr].
  destruct (IH (step s e) Hev Ha) as [Ha' Hr'].
  change (run (e :: evs) s) with (run evs (step s e)).
  split; [exact Ha'|]. now rewrite Hr'.
Qed.

Lemma stop_stop (s : State) : stop (stop s) = stop s.
Proof. unfold Watcher.stop. cbn. destruct (heartbeatTimer FS s); reflexivity. Qed.

(** C9: take a watcher after any history of events [pre] (calls of
    [start], [stop], [heartbeat], file-system events, timeouts firing,
    outside changes of the file system), whatever
    [heartbeatTimeoutMs] is, and call [stop()].  Then [active] is
    false, no timeout is left armed and no directory is watched; a
    second [stop()] changes nothing; and for every later sequence of
    events [post] in which the watcher is not started again, [active]
    stays false and [reinitCount] keeps the value it had at
    [stop()]: no heartbeat re-initialization fires. *)
Theorem stop_is_final (f : FS) (pre post : list Event) :
  forallb (fun e => negb (isStart FS e)) post = true ->
  let s := run pre (init FS f) in
  let stopped := stop s in
  isActive FS stopped = false /\
  timers FS stopped = [] /\
  heartbeatTimer FS stopped = None /\
  watchers FS stopped = [] /\
  reinitCount FS stopped = reinitCount FS s /\
  stop stopped = stopped /\
  isActive FS (run post stopped) = false /\
  reinitCount FS (run post stopped) = reinitCount FS s /\
  timers FS (run post stopped) = [].
Proof.
  intros Hpost s stopped.
  assert (Htr : tracked s).
  { apply run_tracked. intros id Hin. destruct Hin. }
  assert (Hact : isActive FS stopped = false).
  { unfold stopped, Watcher.stop. cbn. destruct (heartbeatTimer FS s); reflexivity. }
  assert (Hre : reinitCount FS stopped = reinitCount FS s).
  { unfold stopped, Watcher.stop. cbn. destruct (heartbeatTimer FS s); reflexivity. }
  assert (Hhb : heartbeatTimer FS stopped = None).
  { unfold stopped, Watcher.stop. cbn. destruct (heartbeatTimer FS s); reflexivity. }
  assert (Htm : timers FS stopped = []) by (apply stop_tracked; exact Htr).
  destruct (run_inactive post stopped Hpost Hact) as [Ha Hr].
  repeat split; auto.
  - unfold stopped, Watcher.stop. cbn. destruct (heartbeatTimer FS s); reflexivity.
  - apply stop_stop.
  - congruence.
  - assert (Htr' : tracked (run post stopped)).
    { apply run_tracked. intros id Hin. rewrite Htm in Hin. destruct Hin. }
    assert (Hnone : heartbeatTimer FS (run post stopped) = None).
    { clear - Hpost Hact Hhb. revert Hpost Hact Hhb.
      generalize stopped as s0. clear stopped.
      induction post as [|e evs IH]; intros s0 Hev Hs Hh; [exact Hh|].
      cbn in Hev. apply andb_prop in Hev. destruct Hev as [He Hev].
      apply negb_true_iff in He. cbn [Watcher.run fold_left].
      destruct (step_inactive s0 e He Hs) as [Ha' _].
      apply IH; auto.
      destruct e as [| | |dir|id|change]; cbn [Watcher.step].
      - discriminate.
      - unfold Watcher.stop. cbn. rewrite Hh. reflexivity.
      - unfold heartbeat, Watcher.resetHeartbeat. rewrite Hs, orb_true_r. exact Hh.
      - unfold watchCallback, Watcher.resetHeartbeat. rewrite Hs, orb_true_r. exact Hh.
      - unfold Watcher.timerFired. destruct (existsb _ _); [|exact Hh].
        unfold Watcher.heartbeatExpired. cbn [isActive]. rewrite Hs. exact Hh.
      - exact Hh. }
    destruct (timers FS (run post stopped)) as [|x l] eqn:Ht; [reflexivity|].
    specialize (Htr' x). rewrite Ht in Htr'.
    specialize (Htr' (or_introl eq_refl)). congruence.
Qed.

End WithPlatform.

(** C9 on a host with one watched directory and a 50 ms heartbeat: the
    watcher is started, its heartbeat expires once, then it is stopped;
    afterwards timeouts, heartbeats and a second [stop()] are tried. *)
Lemma stop_is_final_witness :
  let o := mkOptions ["/teams/t"%string] 50 false in
  let run := run (list string) listExists listMkdir listReaddir listWatchThrows
                 slashJoin true 2 o in
  let pre := [EStart _; ETimer _ 0; EFsEvent _ "/teams/t"%string] in
  let post := [ETimer _ 1; ETimer _ 2; EHeartbeat _; EStop _; ETimer _ 2] in
  let s := run pre (init _ []) in
  let stopped := stop _ s in
  forallb (fun e => negb (isStart _ e)) post = true /\
  reinitCount _ s = 1%nat /\
  isActive _ stopped = false /\
  timers _ stopped = [] /\
  heartbeatTimer _ stopped = None /\
  watchers _ stopped = [] /\
  reinitCount _ stopped = reinitCount _ s /\
  stop _ stopped = stopped /\
  isActive _ (run post stopped) = false /\
  reinitCount _ (run post stopped) = reinitCount _ s /\
  timers _ (run post stopped) = [].
Proof.
  split; [reflexivity|]. split; [reflexivity|].
  apply (stop_is_final (list string) listExists listMkdir listReaddir listWatchThrows
           slashJoin true 2 (mkOptions ["/teams/t"%string] 50 false) []
           [EStart _; ETimer _ 0; EFsEvent _ "/teams/t"%string]
           [ETimer _ 1; ETimer _ 2; EHeartbeat _; EStop _; ETimer _ 2]).
  reflexivity.
Defined.

End WatcherFacts.


(** ** Cycle supervisor *)

Module SupervisorFacts.
Import Types Supervisor.

(** The exit handler inside the crash-guard window, team active: it
    clears the handle and the state file, writes to the log stream it
    has just ended, and calls [onExit]. *)
Lemma exitHandler_crash_guard cfg now s :
  teamActive s = true -> now - lastSpawnTime s < 5000 ->
  exitHandler cfg now s =
    fireOnExit
      (writeAfterEnd
         (persistState (teamName cfg) (mkPersisted None None None) (setLead None s))).
Proof.
  intros Ha Ht. unfold exitHandler. cbn. rewrite Ha. cbn.
  replace (now - lastSpawnTime s <? 5000) with true; [reflexivity|].
  symmetry. apply Z.ltb_lt. exact Ht.
Qed.

(** Once an error went unhandled nothing more happens. *)
Lemma run_after_error later : forall s c, hostError s = Some c -> run later s = s.
Proof.
  induction later as [|e later IH]; intros s c H; [reflexivity|].
  change (run (e :: later) s) with (run later (step s e)).
  assert (Hs : step s e = s) by (unfold step; now rewrite H).
  rewrite Hs. now apply (IH s c).
Qed.

(** C2, what the code does instead: when a child of the supervisor
    exits less than 5 s after the last spawn and the team has not been
    stopped, the supervisor does not become STOPPED.  [teamActive] stays
    true and the handle is cleared, which is the state IDLE; [onExit] is
    fired (when one was supplied), no timeout is armed and nothing is
    spawned.  On the way the handler writes to the log stream after
    ending it: ERR_STREAM_WRITE_AFTER_END is raised with nobody to handle
    it, and from then on the host processes no event at all. *)
Theorem crash_guard_breaks_host (s : State) (p now : Z) (c : Child) :
  find (fun c' => Z.eqb (pid c') p) (children s) = Some c ->
  teamActive s = true ->
  now - lastSpawnTime s < 5000 ->
  hostError s = None ->
  let s' := childExit p now s in
  teamActive s' = true /\
  phase s' <> STOPPED /\
  phase s' = IDLE /\
  leadProcess s' = None /\
  timers s' = timers s /\
  debounceTimer s' = debounceTimer s /\
  spawns s' = spawns s /\
  onExitCalls s' = (if currentOnExit s then S (onExitCalls s) else onExitCalls s) /\
  hostError s' = Some "ERR_STREAM_WRITE_AFTER_END"%string /\
  forall later, run later s' = s'.
Proof.
  intros Hc Ha Ht He s'.
  assert (Herr : hostError s' = Some "ERR_STREAM_WRITE_AFTER_END"%string).
  { unfold s', childExit. rewrite Hc.
    rewrite exitHandler_crash_guard by (cbn; assumption).
    cbn. now rewrite He. }
  assert (Hfields :
            teamActive s' = true /\ leadProcess s' = None /\ timers s' = timers s /\
            debounceTimer s' = debounceTimer s /\ spawns s' = spawns s /\
            onExitCalls s' = (if currentOnExit s then S (onExitCalls s) else onExitCalls s)).
  { unfold s', childExit. rewrite Hc.
    rewrite exitHandler_crash_guard by (cbn; assumption).
    cbn. repeat split; auto. }
  destruct Hfields as (A & B & C & D & E & F).
  assert (Hphase : phase s' = IDLE) by (unfold phase; now rewrite A, B).
  repeat split; auto.
  - rewrite Hphase. discriminate.
  - intro later. now apply (run_after_error later s' _ Herr).
Qed.

(** C2 on scenario S5: the team is started at time 0 with pid 100 and
    its lead exits at time 1000; the board change, the timeout and the
    stop that follow find no host. *)
Lemma crash_guard_breaks_host_witness :
  let s := startedState (startTeam demoConfig 5173 true 0 100 init) in
  let s' := childExit 100 1000 s in
  (find (fun c' => Z.eqb (pid c') 100) (children s) = Some (mkChild 100 demoConfig) /\
   teamActive s = true /\ 1000 - lastSpawnTime s < 5000 /\ hostError s = None) /\
  teamActive s' = true /\
  phase s' <> STOPPED /\
  phase s' = IDLE /\
  leadProcess s' = None /\
  timers s' = timers s /\
  debounceTimer s' = debounceTimer s /\
  spawns s' = spawns s /\
  onExitCalls s' = 1%nat /\
  hostError s' = Some "ERR_STREAM_WRITE_AFTER_END"%string /\
  run [ENotify; ETimer 0 4000 101; EStop "alpha" 5000] s' = s'.
Proof.
  split; [repeat split|].
  destruct (crash_guard_breaks_host
              (startedState (startTeam demoConfig 5173 true 0 100 init))
              100 1000 (mkChild 100 demoConfig))
    as (A & B & C & D & E & F & G & H & I & J);
    [reflexivity|reflexivity|vm_compute; reflexivity|reflexivity|].
  exact (conj A (conj B (conj C (conj D (conj E (conj F (conj G (conj H (conj I (J _)))))))))).
Defined.

End SupervisorFacts.


(** ** Strings and POSIX paths *)

Module PathFacts.
Import Paths.

Local Open Scope string_scope.
Local Open Scope list_scope.



Lemma prefix_spec n h : String.prefix n h = true <-> exists post, h = (n ++ post)%string.
Proof.
  revert h. induction n as [|c n IH]; intro h.
  - split; [intros _; now exists h|intros _; destruct h; reflexivity].
  - destruct h as [|d h]; cbn;
      [split; [discriminate|intros [post H]; discriminate]|].
    destruct (Ascii.ascii_dec c d) as [->|Hne].
    + rewrite IH. split; intros [post H]; exists post; [now subst|now injection H].
    + split; [discriminate|]. intros [post H]. injection H as H _. congruence.
Qed.















End PathFacts.

(** ** JavaScript values *)

Module JsFacts.

(** *** The order of doubles *)












(** *** [Math.max] *)






(** *** Coercion of a list *)




(** *** Property keys *)

Lemma strictEq_string w s :
  Js.strictEq w (Js.JStr s) = Js.lookupEq (Some w) (Js.Found s).
Proof. destruct w; reflexivity. Qed.

End JsFacts.


(** ** Routes: task creation, update and deletion *)

Module RouteFacts.
Import Types Routes JsFacts.

Local Open Scope string_scope.
Local Open Scope list_scope.

(** *** [find] and in-place update *)

Lemma hasId_true i t : hasId i t = true <-> id t = i.
Proof. unfold hasId. apply String.eqb_eq. Qed.

Lemma findTask_some i ts t : findTask i ts = Some t -> In t ts /\ id t = i.
Proof.
  unfold findTask. intro H. apply find_some in H. destruct H as [Hin Hid].
  split; [exact Hin|]. now apply hasId_true.
Qed.

Lemma findTask_none i ts : findTask i ts = None -> forall t, In t ts -> id t <> i.
Proof.
  unfold findTask. intros H t Hin Hid.
  pose proof (find_none _ _ H t Hin) as Hn.
  apply hasId_true in Hid. congruence.
Qed.


Lemma updTask_ids i f ts :
  (forall t, id (f t) = id t) -> map id (updTask i f ts) = map id ts.
Proof.
  intro Hf. induction ts as [|x ts IH]; [reflexivity|].
  cbn. destruct (hasId i x); cbn; [now rewrite Hf|now rewrite IH].
Qed.

Lemma findTask_updTask a i f ts :
  (forall t, id (f t) = id t) ->
  findTask a (updTask i f ts) =
    option_map (fun t => if String.eqb a i then f t else t) (findTask a ts).
Proof.
  intro Hf. induction ts as [|x ts IH]; [reflexivity|].
  cbn [updTask]. destruct (hasId i x) eqn:Hix.
  - apply hasId_true in Hix. cbn [findTask find]. unfold hasId at 1 3.
    rewrite Hf, Hix. destruct (String.eqb_spec i a) as [->|Hne].
    + cbn. now rewrite String.eqb_refl.
    + fold (findTask a ts). destruct (findTask a ts) as [t|] eqn:Hfind; cbn; [|reflexivity].
      destruct (String.eqb_spec a i); [congruence|reflexivity].
  - cbn [findTask find]. destruct (hasId a x) eqn:Hax.
    + cbn. destruct (String.eqb_spec a i) as [->|]; [congruence|reflexivity].
    + exact IH.
Qed.

(** [removeTask] takes out the first task with the id and nothing else. *)
Lemma removeTask_split i ts t :
  findTask i ts = Some t ->
  exists before after,
    ts = before ++ t :: after /\
    removeTask i ts = before ++ after /\
    forall u, In u before -> id u <> i.
Proof.
  induction ts as [|x ts IH]; intro H; [discriminate|].
  cbn in H. cbn [removeTask]. destruct (hasId i x) eqn:Hix.
  - injection H as ->. exists [], ts. repeat split. intros u [].
  - destruct (IH H) as (before & after & Hts & Hrm & Hno).
    exists (x :: before), after. cbn. rewrite Hts at 1. rewrite Hrm.
    repeat split. intros u [<-|Hu]; [|now apply Hno].
    intro Hid. apply hasId_true in Hid. congruence.
Qed.

(** *** [orDefault] *)



(** *** POST /api/tasks *)



(** Beyond 2^53 the order is not one greater: on a column whose largest
    order is 2^53 the new task gets the order 2^53 again. *)
Example post_task_order_saturates :
  let board :=
    mkBoard (meta demoBoard) (columns demoBoard)
            [plainTask "a1" "backlog" 9007199254740992%float []] in
  option_map (fun b => map order (tasks b))
             (disk (postTask demoEnv
                      (Parsed (mkTaskBody None None None None None None)) (Some board)))
    = Some [Js.JNum 9007199254740992%float; Js.JNum 9007199254740992%float].
Proof. reflexivity. Qed.

(** A stored order that has no number: PATCH stores [{toString: 1}] as
    the order of a1, after which no task can be created in its column;
    [Math.max] throws, and nothing is written. *)
Example post_task_unconvertible_order :
  let patched :=
    patchTask demoEnv "a1"
      (Parsed (mkPatchBody None None None
                 (Some (Js.JObj [("toString", Js.JNum 1)])) None None None None None))
      (Some demoBoard) in
  let r := postTask demoEnv (Parsed (mkTaskBody None None None None None None))
                    (disk patched) in
  statusOf patched = Some 200 /\
  outcome r = Rejected "Cannot convert object to primitive value" /\
  writes r = [] /\ disk r = disk patched.
Proof. repeat split. Qed.


(** *** Column values *)




(** *** DELETE /api/tasks/:id *)

(** C4 as the code has it: DELETE /api/tasks/:id on a task that exists is
    answered 200 and writes the board without the first task that has the
    id; nothing else changes: every other task stays as it was, with all
    its refs, those that name the deleted id included. *)
Theorem delete_task_only_removes (e : Env) (i : string) (board : Board) (t : Task) :
  findTask i (tasks board) = Some t ->
  let r := deleteTask e i (Some board) in
  exists before after,
    tasks board = before ++ t :: after /\
    (forall u, In u before -> id u <> i) /\
    outcome r = Responded 200 ROk /\
    writes r = [withTasks board (before ++ after)] /\
    disk r = Some (withTasks board (before ++ after)) /\
    (forall u, In u (tasks board) -> id u <> i -> In u (before ++ after)).
Proof.
  intros Hfind r. unfold r, deleteTask. cbn [readBoard]. rewrite Hfind.
  destruct (removeTask_split i (tasks board) t Hfind) as (before & after & Hts & Hrm & Hno).
  exists before, after. rewrite Hrm. unfold writeAndRespond, respond.
  cbn [outcome disk writes app].
  repeat split; auto.
  intros u Hu Hid. rewrite Hts in Hu. apply in_app_or in Hu.
  apply in_or_app. destruct Hu as [Hu|[<-|Hu]]; auto.
  apply findTask_some in Hfind. tauto.
Qed.

(** C4 on the linked board of the examples: deleting b2. *)
Lemma delete_task_only_removes_witness :
  exists before after,
    tasks demoBoard = before ++ plainTask "b2" "backlog" 2.5%float [mkRef "a1" blocked_by] :: after /\
    (forall u, In u before -> id u <> "b2") /\
    outcome (deleteTask demoEnv "b2" (Some demoBoard)) = Responded 200 ROk /\
    writes (deleteTask demoEnv "b2" (Some demoBoard)) = [withTasks demoBoard (before ++ after)] /\
    disk (deleteTask demoEnv "b2" (Some demoBoard)) = Some (withTasks demoBoard (before ++ after)) /\
    (forall u, In u (tasks demoBoard) -> id u <> "b2" -> In u (before ++ after)).
Proof.
  apply (delete_task_only_removes demoEnv "b2" demoBoard
           (plainTask "b2" "backlog" 2.5%float [mkRef "a1" blocked_by])).
  reflexivity.
Defined.

(** C4 as stated fails: on the board where a1 blocks b2, DELETE
    /api/tasks/b2 removes b2 and leaves a1 with its ref to b2: the
    resulting board has a ref that points at the deleted id. *)
Lemma delete_task_leaves_dangling_ref :
  let r := deleteTask demoEnv "b2" (Some demoBoard) in
  statusOf r = Some 200 /\
  exists b' A,
    disk r = Some b' /\
    findTask "b2" (tasks b') = None /\
    findTask "a1" (tasks b') = Some A /\
    In (mkRef "b2" blocks) (refsOf A).
Proof.
  cbn. split; [reflexivity|].
  do 2 eexists. split; [reflexivity|]. split; [reflexivity|].
  split; [reflexivity|]. cbn. now left.
Qed.

(** *** POST /api/tasks/:id/context *)

Section ContextFacts.

Variable P : Paths.PathApi.


End ContextFacts.





(** Scenario S3, rejections: a path that climbs out of [/tmp/p], an
    absolute path, and a board without a team are answered 400 without
    a write; a second POST of the same file is answered 201 without a
    write. *)
Lemma context_scenarios :
  let post path b := postContext (Paths.posix "/srv") demoEnv "a1"
                       (Parsed (mkContextBody (Some path) None)) (Some b) in
  let noTeam := mkBoard (mkMeta "My Board" 0 1 None) COLUMNS (tasks demoBoard) in
  (statusOf (post "../etc/passwd" demoBoard), writes (post "../etc/passwd" demoBoard))
    = (Some 400, []) /\
  (statusOf (post "src/../../p2/x" demoBoard), writes (post "src/../../p2/x" demoBoard))
    = (Some 400, []) /\
  (statusOf (post "/tmp/p/a.ts" demoBoard), writes (post "/tmp/p/a.ts" demoBoard))
    = (Some 400, []) /\
  (statusOf (post "src/a.ts" noTeam), writes (post "src/a.ts" noTeam)) = (Some 400, []) /\
  (forall b', disk (post "./src//a.ts" demoBoard) = Some b' ->
     (statusOf (post "src/b/../a.ts" b'), writes (post "src/b/../a.ts" b')) = (Some 201, [])).
Proof.
  cbn zeta. repeat split; try (vm_compute; reflexivity).
  intros b' Hb'. vm_compute in Hb'. injection Hb' as <-. vm_compute. reflexivity.
Qed.

(** *** Refs *)




(** The table of the routes gives, on the five types, the inverse of the
    specification. *)
Lemma lookupInverse_known H ty :
  lookupInverse H (Js.JStr (refTypeName ty))
    = Some (Js.Found (refTypeName (claimedInverse ty))).
Proof. now destruct ty. Qed.

Lemma refIs_true i ty r : refIs i ty r = true <-> r = mkRef i ty.
Proof.
  unfold refIs, inverseMatches, mkRef. destruct r as [x t]. cbn [taskId rtype].
  rewrite andb_true_iff, String.eqb_eq. split.
  - intros [-> H]. destruct t as [[]|]; cbn in H; try discriminate.
    apply String.eqb_eq in H. now subst.
  - intro H. injection H as -> ->. split; [reflexivity|]. cbn. apply String.eqb_refl.
Qed.

Lemma refMatches_refIs target ty r :
  refMatches target (Js.JStr (refTypeName ty)) r = refIs target ty r.
Proof.
  unfold refMatches, refIs, inverseMatches.
  destruct (rtype r) as [w|]; [now rewrite strictEq_string|reflexivity].
Qed.

Lemma existsb_refMatches target ty l :
  existsb (refMatches target (Js.JStr (refTypeName ty))) l
    = existsb (refIs target ty) l.
Proof.
  induction l as [|r l IH]; [reflexivity|].
  cbn [existsb]. now rewrite refMatches_refIs, IH.
Qed.

Lemma knownType_mkRef i ty : knownType (mkRef i ty) = Some ty.
Proof. now destruct ty. Qed.


Lemma existsb_refIs i ty l : existsb (refIs i ty) l = true <-> In (mkRef i ty) l.
Proof.
  rewrite existsb_exists. split.
  - intros (r & Hin & Hr). apply refIs_true in Hr. now subst.
  - intro Hin. exists (mkRef i ty). split; [exact Hin|]. now apply refIs_true.
Qed.

Lemma existsb_refIs_false i ty l : existsb (refIs i ty) l = false <-> ~ In (mkRef i ty) l.
Proof.
  rewrite <- existsb_refIs. destruct (existsb (refIs i ty) l); split; congruence.
Qed.

(** *** [findIndex] then [splice] *)

Section RemoveFirst.

Context {A : Type} (p : A -> bool).





Lemma removeFirst_none l : find p l = None -> removeFirst p l = l.
Proof.
  induction l as [|y l IH]; cbn; [auto|].
  destruct (p y); [discriminate|]. intro H. now rewrite IH.
Qed.

End RemoveFirst.

Lemma find_refTo target l r :
  find (refTo target) l = Some r -> taskId r = target.
Proof.
  intro H. apply find_some in H. destruct H as [_ H].
  unfold refTo in H. now apply String.eqb_eq in H.
Qed.


Lemma removeFirst_last {A : Type} (p : A -> bool) (l : list A) (x : A) (r : list A) :
  find p l = None -> p x = true -> removeFirst p (l ++ x :: r) = l ++ r.
Proof.
  intros Hl Hx. induction l as [|y l IH]; cbn.
  - now rewrite Hx.
  - cbn in Hl. destruct (p y); [discriminate|]. f_equal. now apply IH.
Qed.

Lemma find_last_ref {A : Type} (p : A -> bool) (l : list A) (x : A) (r : list A) :
  find p l = None -> p x = true -> find p (l ++ x :: r) = Some x.
Proof.
  intros Hl Hx. induction l as [|y l IH]; cbn.
  - now rewrite Hx.
  - cbn in Hl. destruct (p y); [discriminate|]. now apply IH.
Qed.


(** *** The effect of the two ref routes on one list of refs *)

Section PostRefs.

Variables (i target : string) (ty : RefType).






End PostRefs.

Section DeleteRefs.

Variables (i target : string) (removed : option RefType).






End DeleteRefs.

(** *** The ref routes on the tasks of a board *)

Lemma refsOf_dropInverseFrom i ty now t :
  refsOf (dropInverseFrom i (Js.Found (refTypeName ty)) now t)
    = removeFirst (refIs i ty) (refsOf t).
Proof.
  unfold dropInverseFrom, refsOf. destruct (refs t) eqn:E; [reflexivity|].
  now rewrite E.
Qed.

Lemma refsOf_addInverseTo i ty now t :
  refsOf (addInverseTo i (Js.Found (refTypeName ty)) now t) =
    if existsb (refIs i ty) (refsOf t) then refsOf t else refsOf t ++ [mkRef i ty].
Proof.
  unfold addInverseTo. fold (refIs i ty). destruct (existsb _ _); reflexivity.
Qed.

Lemma id_addInverseTo i inv now t : id (addInverseTo i inv now t) = id t.
Proof. unfold addInverseTo. destruct (existsb _ _); reflexivity. Qed.

Lemma id_dropInverseFrom i inv now t : id (dropInverseFrom i inv now t) = id t.
Proof. unfold dropInverseFrom. destruct (refs t); reflexivity. Qed.

(** Updating a task to itself, or a task that is not there, changes
    nothing. *)
Lemma updTask_same i f ts :
  (forall t, findTask i ts = Some t -> f t = t) -> updTask i f ts = ts.
Proof.
  induction ts as [|x ts IH]; intro H; [reflexivity|].
  cbn [updTask]. unfold findTask in H. cbn [find] in H.
  destruct (hasId i x).
  - now rewrite (H x eq_refl).
  - now rewrite (IH H).
Qed.

Lemma afterPost_view i target ty n1 n2 ts a :
  match findTask a ts with
  | Some A => exists A2, findTask a (afterPost i target ty n1 n2 ts) = Some A2 /\
                         refsOf A2 = postRefs i target ty a (refsOf A)
  | None => findTask a (afterPost i target ty n1 n2 ts) = None
  end.
Proof.
  unfold afterPost.
  rewrite findTask_updTask by apply id_addInverseTo.
  rewrite findTask_updTask by (intro; reflexivity).
  destruct (findTask a ts) as [A|]; [|reflexivity].
  cbn [option_map]. eexists. split; [reflexivity|].
  unfold postRefs.
  destruct (String.eqb a target), (String.eqb a i);
    rewrite ?refsOf_addInverseTo; reflexivity.
Qed.

Lemma afterDelete_view i target removed n1 n2 ts a :
  match findTask a ts with
  | Some A => exists A2, findTask a (afterDelete i target removed n1 n2 ts) = Some A2 /\
                         refsOf A2 = deleteRefs i target removed a (refsOf A)
  | None => findTask a (afterDelete i target removed n1 n2 ts) = None
  end.
Proof.
  unfold afterDelete, deleteRefs. destruct removed as [ty|].
  - rewrite findTask_updTask by apply id_dropInverseFrom.
    rewrite findTask_updTask by (intro; reflexivity).
    destruct (findTask a ts) as [A|]; [|reflexivity].
    cbn [option_map]. eexists. split; [reflexivity|].
    destruct (String.eqb a target), (String.eqb a i);
      rewrite ?refsOf_dropInverseFrom; reflexivity.
  - rewrite findTask_updTask by (intro; reflexivity).
    destruct (findTask a ts) as [A|]; [|reflexivity].
    cbn [option_map]. eexists. split; [reflexivity|].
    destruct (String.eqb a i); reflexivity.
Qed.

Lemma afterPost_ids i target ty n1 n2 ts :
  map id (afterPost i target ty n1 n2 ts) = map id ts.
Proof.
  unfold afterPost. rewrite updTask_ids by apply id_addInverseTo.
  now rewrite updTask_ids by (intro; reflexivity).
Qed.

Lemma afterDelete_ids i target removed n1 n2 ts :
  map id (afterDelete i target removed n1 n2 ts) = map id ts.
Proof.
  unfold afterDelete. destruct removed.
  - rewrite updTask_ids by apply id_dropInverseFrom.
    now rewrite updTask_ids by (intro; reflexivity).
  - now rewrite updTask_ids by (intro; reflexivity).
Qed.






(** POST /api/tasks/:id/refs with one of the five types, on existing
    source and target. *)
Lemma postRef_known e i target ty b A B :
  findTask i (tasks b) = Some A -> findTask target (tasks b) = Some B ->
  target <> "" ->
  postRef e i (Parsed (refBody target ty)) (Some b) =
    if existsb (refIs target ty) (refsOf A)
    then respond 200 (RTask (setRefs (refsOf A) A)) (Some b) []
    else
      let ts2 := afterPost i target ty (clock e 0) (clock e 1) (tasks b) in
      writeAndRespond 201
        (RTask (match findTask i ts2 with Some t => t | None => A end))
        (withTasks b ts2) [].
Proof.
  intros Hi Ht Hne. unfold postRef, refBody.
  cbn [readBoard r_taskId r_type findTarget Js.truthy]. rewrite Hi, Ht.
  destruct (String.eqb_spec target ""); [contradiction|].
  assert (Hty : String.eqb (refTypeName ty) "" = false) by now destruct ty.
  rewrite Hty. cbn [negb orb].
  pose proof (findTask_some _ _ _ Ht) as [_ Hid]. rewrite Hid.
  rewrite existsb_refMatches.
  rewrite lookupInverse_known. reflexivity.
Qed.

(** DELETE /api/tasks/:id/refs/:targetId on a source whose first ref to
    the target, if any, has a type among the five. *)
Lemma deleteRef_known e i target b A :
  findTask i (tasks b) = Some A ->
  (forall r, find (refTo target) (refsOf A) = Some r ->
             exists ty, r = mkRef (taskId r) ty) ->
  deleteRef e i target (Some b) =
    let ts2 := afterDelete i target (knownRemoved target (refsOf A))
                           (clock e 0) (clock e 1) (tasks b) in
    writeAndRespond 200
      (RTask (match findTask i ts2 with Some t => t | None => A end))
      (withTasks b ts2) [].
Proof.
  intros Hi Hknown. unfold deleteRef. cbn [readBoard]. rewrite Hi.
  unfold removedType, knownRemoved, afterDelete.
  destruct (find (refTo target) (refsOf A)) as [r|] eqn:Hf; [|reflexivity].
  destruct (Hknown r eq_refl) as (ty & Hr).
  rewrite Hr. cbn [rtype mkRef]. rewrite knownType_mkRef.
  assert (Hty : Js.truthy (Js.JStr (refTypeName ty)) = true) by now destruct ty.
  rewrite Hty, lookupInverse_known.
  set (ts1 := updTask i _ (tasks b)).
  set (f := dropInverseFrom i _ (clock e 1)).
  destruct (findTask target ts1) as [tgt|] eqn:Ht.
  - destruct (refs tgt) eqn:Hrefs; [reflexivity|].
    rewrite (updTask_same target f ts1); [reflexivity|].
    intros t Ht'. assert (t = tgt) by congruence. subst t.
    unfold f, dropInverseFrom. now rewrite Hrefs.
  - rewrite (updTask_same target f ts1); [reflexivity|].
    intros t Ht'. congruence.
Qed.







End RouteFacts.


(** ** Search route *)

Module SearchFacts.
Import Types Search.

Local Open Scope string_scope.

(** [contains] is the substring relation. *)
Lemma contains_spec n h :
  contains n h = true <-> exists pre post, h = pre ++ n ++ post.
Proof.
  induction h as [|d h IH]; cbn [contains]; rewrite orb_true_iff, PathFacts.prefix_spec.
  - split.
    + intros [[post H]|H]; [|discriminate]. now exists "", post.
    + intros (pre & post & H). left. exists post.
      destruct pre; [exact H|discriminate].
  - rewrite IH. split.
    + intros [[post H]|(pre & post & H)]; [now exists "", post|].
      exists (String d pre), post. cbn. now rewrite H.
    + intros (pre & post & H). destruct pre as [|c pre].
      * left. now exists post.
      * right. exists pre, post. cbn in H. now injection H.
Qed.

(** A task matches when the lower-cased query occurs in its lower-cased
    title, description or one of its tags. *)
Lemma matches_spec needle t :
  matches needle t = true <->
  exists field,
    (field = title t \/ field = description t \/ In field (tags t)) /\
    exists pre post, toLowerCase field = pre ++ toLowerCase needle ++ post.
Proof.
  unfold matches, containsCI. rewrite !orb_true_iff, existsb_exists, !contains_spec.
  split.
  - intros [[H|H]|(tag & Hin & H)].
    + exists (title t). auto.
    + exists (description t). auto.
    + apply contains_spec in H. exists tag. auto.
  - intros (field & [->|[->|Hin]] & H); auto.
    right. exists field. split; [exact Hin|]. now apply contains_spec.
Qed.

(** C8: a GET /api/tasks/search request with a [q] parameter is answered
    200 with tasks of the board, each of which contains [q],
    case-insensitively, in its title, its description or one of its tags,
    and is in the given column when a column parameter is present; the
    results are the first matching tasks in board order, as many as there
    are up to min(limit, 100), where a missing or non-numeric limit
    counts as 20. *)
Theorem search_results (query : Query) (needle : string) (b : Board) :
  q query = Some needle ->
  exists results,
    search query b = Found 200 results /\
    (forall t, In t results ->
       In t (tasks b) /\
       (exists field,
          (field = title t \/ field = description t \/ In field (tags t)) /\
          exists pre post, toLowerCase field = pre ++ toLowerCase needle ++ post) /\
       (forall col, qcolumn query = Some col -> column t = col)) /\
    (exists rest,
       filter (fun t => matches needle t && inColumn (qcolumn query) t) (tasks b)
         = (results ++ rest)%list /\
       (rest <> [] ->
          List.length results
            = Nat.min (match limit query with Some n => n | None => 20%nat end) 100)) /\
    (List.length results
       <= Nat.min (match limit query with Some n => n | None => 20%nat end) 100)%nat.
Proof.
  intro Hq. unfold search. rewrite Hq. eexists. split; [reflexivity|].
  set (hits := filter _ (tasks b)).
  set (n := effectiveLimit (limit query)).
  split; [|split].
  - intros t Ht.
    assert (Hhit : In t hits).
    { rewrite <- (firstn_skipn n hits). apply in_or_app. now left. }
    apply filter_In in Hhit. destruct Hhit as [Hin Hm].
    apply andb_true_iff in Hm. destruct Hm as [Hm Hc].
    split; [exact Hin|]. split; [now apply matches_spec|].
    intros col Hcol. rewrite Hcol in Hc. cbn in Hc. now apply String.eqb_eq.
  - exists (skipn n hits). split; [now rewrite firstn_skipn|].
    intro Hrest. rewrite length_firstn. fold (effectiveLimit (limit query)). fold n.
    apply Nat.min_l.
    destruct (Nat.le_gt_cases n (List.length hits)) as [Hle|Hgt]; [exact Hle|].
    exfalso. apply Hrest. apply skipn_all2. lia.
  - rewrite length_firstn. fold (effectiveLimit (limit query)). fold n. apply Nat.le_min_l.
Qed.

(** C8 on the board of the examples: [q=AUTH] finds tasks 1 and 3 (title,
    then description and tag), [column=done] keeps task 3, [limit=1] cuts
    after task 1. *)
Lemma search_results_witness :
  (exists results, search (mkQuery (Some "AUTH") None None) searchBoard = Found 200 results /\
                   map id results = ["1"; "3"]) /\
  (exists results, search (mkQuery (Some "AUTH") (Some "done") None) searchBoard
                     = Found 200 results /\
                   map id results = ["3"]) /\
  (exists results, search (mkQuery (Some "AUTH") None (Some 1%nat)) searchBoard
                     = Found 200 results /\
                   map id results = ["1"]).
Proof.
  split; [|split].
  - destruct (search_results (mkQuery (Some "AUTH") None None) "AUTH" searchBoard eq_refl)
      as (results & Hs & _).
    exists results. split; [exact Hs|]. vm_compute in Hs. injection Hs as <-. reflexivity.
  - destruct (search_results (mkQuery (Some "AUTH") (Some "done") None) "AUTH" searchBoard
                eq_refl) as (results & Hs & _).
    exists results. split; [exact Hs|]. vm_compute in Hs. injection Hs as <-. reflexivity.
  - destruct (search_results (mkQuery (Some "AUTH") None (Some 1%nat)) "AUTH" searchBoard
                eq_refl) as (results & Hs & _).
    exists results. split; [exact Hs|]. vm_compute in Hs. injection Hs as <-. reflexivity.
Defined.

End SearchFacts.


(* ===================================================================== *)
(** * Further properties of the turn governor *)
(* ===================================================================== *)

Module GovernorBudget.
Import Governor.

(** One [recordTurns]: the warning flag only goes up, and the warning
    callback is called at most once, and only while the flag was down. *)
Lemma recordTurns_warning o count s :
  let s' := snd (recordTurns o count s) in
  (warningCalls s' = warningCalls s /\ (warningFired s = true -> warningFired s' = true)) \/
  (exists c, warningCalls s' = warningCalls s ++ [c] /\
             warningFired s = false /\ warningFired s' = true).
Proof.
  unfold recordTurns, checkWarning. cbn [warningFired onBudgetWarning turnsUsed].
  destruct (warningFired s) eqn:Hw; cbn [orb].
  - left. destruct (_ >=? _); cbn; auto.
  - destruct (negb (onBudgetWarning o)); cbn [orb].
    + left. destruct (_ >=? _); cbn; split; auto; congruence.
    + destruct (ratio_le _ _ _).
      * right. eexists. cbn. destruct (_ >=? _); cbn; auto.
      * left. cbn. destruct (_ >=? _); cbn; split; auto; congruence.
Qed.

(** X1: between two [reset()] calls, whatever the counts recorded,
    [onBudgetWarning] is called at most once, and not at all when it had
    already fired in the epoch. *)
Theorem warning_fires_at_most_once (o : Options) (counts : list Z) (s : State) :
  exists calls,
    warningCalls (recordAll o counts s) = warningCalls s ++ calls /\
    (List.length calls <= 1)%nat /\
    (warningFired s = true -> calls = []).
Proof.
  revert s. induction counts as [|c cs IH]; intro s.
  - exists []. cbn. rewrite app_nil_r. auto.
  - cbn [recordAll]. destruct (IH (snd (recordTurns o c s))) as (calls & Hc & Hlen & Hfired).
    destruct (recordTurns_warning o c s) as [[Hsame Hmono]|(x & Hx & Hoff & Hon)].
    + exists calls. rewrite Hc, Hsame. repeat split; auto.
    + exists [x]. rewrite Hc, Hx, (Hfired Hon), app_nil_r.
      repeat split; auto. congruence.
Qed.

(** X2: what [recordTurns] returns tells what the next cycle gets.  When
    it returns false, the next [allocateCycleBudget] is 0 and [canSpawn]
    is false; when it returns true, an allocation with a positive cap is
    at least 1, at most the cap and at most the turns that remain. *)
Theorem record_then_allocate (o : Options) (count cap : Z) (s : State) :
  let ok := fst (recordTurns o count s) in
  let s' := snd (recordTurns o count s) in
  turnsUsed s' = turnsUsed s + count /\
  (ok = false -> allocateCycleBudget o cap s' = 0 /\ canSpawn o s' = false) /\
  (ok = true -> 0 < cap ->
     1 <= allocateCycleBudget o cap s' <= cap /\
     allocateCycleBudget o cap s' <= maxTurns o - turnsUsed s').
Proof.
  unfold recordTurns. cbv zeta.
  destruct (GovernorFacts.checkWarning_turns o
              (mkState (turnsUsed s + count) (exhausted s) (warningFired s)
                       (exhaustedCalls s) (warningCalls s))) as [Ht _].
  cbn [turnsUsed] in Ht. rewrite Ht.
  destruct (Z.geb_spec (turnsUsed s + count) (maxTurns o)) as [Hge|Hlt];
    cbn [fst snd]; unfold allocateCycleBudget, canSpawn; cbn [turnsUsed exhausted];
    rewrite ?Ht.
  - split; [reflexivity|]. split; [|discriminate]. intros _.
    destruct (Z.leb_spec (maxTurns o - (turnsUsed s + count)) 0); [auto|lia].
  - split; [reflexivity|]. split; [discriminate|]. intros _ Hcap.
    destruct (Z.leb_spec (maxTurns o - (turnsUsed s + count)) 0); lia.
Qed.

(** [recordTurns] adds the count, whatever it returns. *)
Lemma recordTurns_turns o count s :
  turnsUsed (snd (recordTurns o count s)) = turnsUsed s + count.
Proof.
  unfold recordTurns. cbv zeta.
  destruct (GovernorFacts.checkWarning_turns o
              (mkState (turnsUsed s + count) (exhausted s) (warningFired s)
                       (exhaustedCalls s) (warningCalls s))) as [Ht _].
  cbn [turnsUsed] in Ht. rewrite Ht.
  destruct (turnsUsed s + count >=? maxTurns o); cbn [snd turnsUsed]; auto.
Qed.

(** The exhausted flag is never ahead of the count when turns are only
    added. *)
Lemma recordTurns_exhausted o count s :
  0 <= count ->
  (exhausted s = true -> turnsUsed s >= maxTurns o) ->
  exhausted (snd (recordTurns o count s)) = true ->
  turnsUsed (snd (recordTurns o count s)) >= maxTurns o.
Proof.
  intros Hc Hinv. unfold recordTurns. cbv zeta.
  destruct (GovernorFacts.checkWarning_turns o
              (mkState (turnsUsed s + count) (exhausted s) (warningFired s)
                       (exhaustedCalls s) (warningCalls s))) as [Ht _].
  cbn [turnsUsed] in Ht. rewrite Ht.
  destruct (Z.geb_spec (turnsUsed s + count) (maxTurns o)) as [Hge|Hlt]; cbn [snd].
  - cbn. lia.
  - rewrite Ht. unfold checkWarning. cbn [warningFired onBudgetWarning turnsUsed].
    destruct (warningFired s || negb (onBudgetWarning o)); cbn;
      [|destruct (ratio_le _ _ _); cbn]; intro He; specialize (Hinv He); lia.
Qed.

(** X3: in an epoch in which only non-negative counts are recorded, the
    used count is the sum of the counts, and [canSpawn()] is true exactly
    when the used count is below the budget. *)
Theorem canSpawn_tracks_budget (o : Options) (counts : list Z) :
  Forall (fun c => 0 <= c) counts ->
  let s := recordAll o counts init in
  turnsUsed s = fold_right Z.add 0 counts /\
  canSpawn o s = (turnsUsed s <? maxTurns o).
Proof.
  intro Hpos.
  assert (Hgen : forall s,
             (exhausted s = true -> turnsUsed s >= maxTurns o) ->
             turnsUsed (recordAll o counts s) = turnsUsed s + fold_right Z.add 0 counts /\
             (exhausted (recordAll o counts s) = true ->
              turnsUsed (recordAll o counts s) >= maxTurns o)).
  { induction Hpos as [|c cs Hc _ IH]; intros s Hinv.
    - cbn. split; [lia|exact Hinv].
    - cbn [recordAll fold_right].
      destruct (IH (snd (recordTurns o c s))) as [Hsum Hex].
      + now apply recordTurns_exhausted.
      + split; [|exact Hex]. rewrite Hsum, recordTurns_turns. lia. }
  destruct (Hgen init) as [Hsum Hex]; [discriminate|].
  cbv zeta. split; [rewrite Hsum; reflexivity|].
  unfold canSpawn. destruct (exhausted (recordAll o counts init)) eqn:He; [|reflexivity].
  cbn. symmetry. apply Z.ltb_ge. specialize (Hex eq_refl). lia.
Qed.

(** X3 on scenario S4: a budget of 10, 4 turns then 6. *)
Lemma canSpawn_tracks_budget_witness :
  let s := recordAll (mkOptions 10 defaultThreshold true true) [4; 6] init in
  turnsUsed s = fold_right Z.add 0 [4; 6] /\
  canSpawn (mkOptions 10 defaultThreshold true true) s
    = (turnsUsed s <? maxTurns (mkOptions 10 defaultThreshold true true)).
Proof.
  apply (canSpawn_tracks_budget (mkOptions 10 defaultThreshold true true) [4; 6]).
  repeat constructor; lia.
Defined.

(** Two governors that agree on the three closure variables answer the
    next [recordTurns] alike and make the same calls. *)
Lemma recordTurns_alike o c (s1 s2 : State) :
  turnsUsed s1 = turnsUsed s2 -> exhausted s1 = exhausted s2 ->
  warningFired s1 = warningFired s2 ->
  let r1 := recordTurns o c s1 in
  let r2 := recordTurns o c s2 in
  fst r1 = fst r2 /\
  turnsUsed (snd r1) = turnsUsed (snd r2) /\
  exhausted (snd r1) = exhausted (snd r2) /\
  warningFired (snd r1) = warningFired (snd r2) /\
  exists ex wa,
    exhaustedCalls (snd r1) = exhaustedCalls s1 ++ ex /\
    exhaustedCalls (snd r2) = exhaustedCalls s2 ++ ex /\
    warningCalls (snd r1) = warningCalls s1 ++ wa /\
    warningCalls (snd r2) = warningCalls s2 ++ wa.
Proof.
  destruct s1 as [t1 e1 w1 ec1 wc1], s2 as [t2 e2 w2 ec2 wc2]. cbn.
  intros -> -> ->. unfold recordTurns, checkWarning. cbn.
  destruct (w2 || negb (onBudgetWarning o)); cbn;
    [|destruct (ratio_le _ _ _); cbn];
    destruct (t2 + c >=? maxTurns o); cbn;
    try destruct (onBudgetExhausted o); cbn;
    (repeat split; do 2 eexists;
     repeat split; first [reflexivity | symmetry; apply app_nil_r]).
Qed.

(** X26: [reset()] starts a new epoch: after it, any sequence of
    [recordTurns] calls leaves the counters as on a fresh governor with
    the same options, and invokes [onBudgetExhausted] and
    [onBudgetWarning] exactly as the fresh governor would, with the same
    arguments. *)
Theorem reset_starts_fresh_epoch (o : Options) (counts : list Z) (s : State) :
  let a := recordAll o counts (reset s) in
  let b := recordAll o counts init in
  turnsUsed a = turnsUsed b /\ exhausted a = exhausted b /\
  warningFired a = warningFired b /\
  canSpawn o a = canSpawn o b /\
  exhaustedCalls a = exhaustedCalls s ++ exhaustedCalls b /\
  warningCalls a = warningCalls s ++ warningCalls b.
Proof.
  assert (Hgen : forall s1 s2,
             turnsUsed s1 = turnsUsed s2 -> exhausted s1 = exhausted s2 ->
             warningFired s1 = warningFired s2 ->
             turnsUsed (recordAll o counts s1) = turnsUsed (recordAll o counts s2) /\
             exhausted (recordAll o counts s1) = exhausted (recordAll o counts s2) /\
             warningFired (recordAll o counts s1) = warningFired (recordAll o counts s2) /\
             exists ex wa,
               exhaustedCalls (recordAll o counts s1) = exhaustedCalls s1 ++ ex /\
               exhaustedCalls (recordAll o counts s2) = exhaustedCalls s2 ++ ex /\
               warningCalls (recordAll o counts s1) = warningCalls s1 ++ wa /\
               warningCalls (recordAll o counts s2) = warningCalls s2 ++ wa).
  { induction counts as [|c cs IH]; intros s1 s2 Ht He Hw.
    - cbn. repeat split; auto. exists [], []. now rewrite !app_nil_r.
    - cbn [recordAll].
      destruct (recordTurns_alike o c s1 s2 Ht He Hw)
        as (_ & Ht' & He' & Hw' & ex & wa & E1 & E2 & W1 & W2).
      destruct (IH _ _ Ht' He' Hw') as (A & B & C & ex' & wa' & E1' & E2' & W1' & W2').
      repeat split; auto. exists (ex ++ ex'), (wa ++ wa').
      rewrite E1', E2', W1', W2', E1, E2, W1, W2, !app_assoc. auto. }
  destruct (Hgen (reset s) init eq_refl eq_refl eq_refl)
    as (A & B & C & ex & wa & E1 & E2 & W1 & W2).
  cbv zeta. unfold canSpawn. rewrite A, B, E1, E2, W1, W2. cbn.
  repeat split; auto.
Qed.

End GovernorBudget.

(* ===================================================================== *)
(** * Further properties of event delivery *)
(* ===================================================================== *)

Module DeliveryRetries.
Import Delivery.

Lemma backoff_fields o attempt s :
  deliveredCount (backoff o attempt s) = deliveredCount s /\
  failedCount (backoff o attempt s) = failedCount s /\
  actionCalls (backoff o attempt s) = actionCalls s /\
  confirmCalls (backoff o attempt s) = confirmCalls s /\
  exhaustedCalls (backoff o attempt s) = exhaustedCalls s /\
  deliveredCalls (backoff o attempt s) = deliveredCalls s /\
  sleeps (backoff o attempt s) =
    sleeps s ++ (if attempt <? maxRetries o then [baseDelayMs o * 2 ^ attempt] else []).
Proof.
  unfold backoff. destruct (attempt <? maxRetries o); cbn; rewrite ?app_nil_r; tauto.
Qed.

Lemma delaysFrom_step o a n :
  (1 <= n)%nat ->
  (baseDelayMs o * 2 ^ a) :: delaysFrom o (a + 1) n = delaysFrom o a (S n).
Proof.
  intro Hn. unfold delaysFrom.
  replace (S n - 1)%nat with (S (n - 1)) by lia.
  cbn [seq map]. rewrite Z.add_0_r. f_equal.
  rewrite <- seq_shift, map_map. apply map_ext. intro i.
  do 2 f_equal. lia.
Qed.

Section AnyEnvironment.

Variable o : Options.

(** The retry loop from [attempt], for any behaviour of [action] and
    [confirm]: it returns; it makes [n] invocations of the action, one
    per attempt tried; it sleeps before each retry and at no other
    time; it counts the delivery once, as delivered or as failed. *)
Lemma deliverFrom_any fuel : forall attempt s,
  0 <= attempt <= maxRetries o + 1 ->
  fuel = Z.to_nat (maxRetries o - attempt + 1) ->
  exists b s' n,
    deliverFrom o fuel attempt s = Some (b, s') /\
    actionCalls s' = (actionCalls s + n)%nat /\
    (n <= fuel)%nat /\ (attempt <= maxRetries o -> (1 <= n)%nat) /\
    sleeps s' = sleeps s ++ delaysFrom o attempt n /\
    ((b = true /\ deliveredCount s' = deliveredCount s + 1 /\
      failedCount s' = failedCount s) \/
     (b = false /\ failedCount s' = failedCount s + 1 /\
      deliveredCount s' = deliveredCount s /\ n = fuel)).
Proof.
  induction fuel as [|fuel IH]; intros attempt s Hrange Hfuel.
  - assert (attempt = maxRetries o + 1) by lia. subst attempt.
    cbn [deliverFrom].
    replace (maxRetries o + 1 <=? maxRetries o) with false by (symmetry; apply Z.leb_gt; lia).
    exists false, (exhaust o (maxRetries o + 1) s), 0%nat.
    unfold exhaust, delaysFrom; cbn. rewrite app_nil_r, Nat.add_0_r.
    repeat split; try lia; try (right; repeat split; lia).
  - assert (Hle : attempt <= maxRetries o) by lia.
    cbn [deliverFrom].
    replace (attempt <=? maxRetries o) with true by (symmetry; apply Z.leb_le; lia).
    (* what a failed attempt leads to, by exhaustion or by another round *)
    assert (Hretry : forall s1,
              actionCalls s1 = S (actionCalls s) -> sleeps s1 = sleeps s ->
              deliveredCount s1 = deliveredCount s -> failedCount s1 = failedCount s ->
              exists b s' n,
                deliverFrom o fuel (attempt + 1) (backoff o attempt s1) = Some (b, s') /\
                actionCalls s' = (actionCalls s + n)%nat /\
                (n <= S fuel)%nat /\ (1 <= n)%nat /\
                sleeps s' = sleeps s ++ delaysFrom o attempt n /\
                ((b = true /\ deliveredCount s' = deliveredCount s + 1 /\
                  failedCount s' = failedCount s) \/
                 (b = false /\ failedCount s' = failedCount s + 1 /\
                  deliveredCount s' = deliveredCount s /\ n = S fuel))).
    { intros s1 Ha Hs Hd Hf.
      destruct (IH (attempt + 1) (backoff o attempt s1)) as (b & s' & n & Hrun & Hn & Hnf & Hn1 & Hsl & Hcnt);
        [lia|lia|].
      destruct (backoff_fields o attempt s1) as (Bd & Bf & Ba & _ & _ & _ & Bs).
      exists b, s', (S n). split; [exact Hrun|].
      split; [rewrite Hn, Ba, Ha; lia|]. split; [lia|]. split; [lia|].
      split.
      - rewrite Hsl, Bs, Hs.
        destruct (Z.ltb_spec attempt (maxRetries o)) as [Hlt|Hge].
        + rewrite <- app_assoc. cbn [app]. rewrite delaysFrom_step; [reflexivity|].
          apply Hn1. lia.
        + rewrite app_nil_r. assert (fuel = 0%nat) by lia. subst fuel.
          assert (n = 0%nat) by lia. subst n. reflexivity.
      - rewrite Bd, Bf, Hd, Hf in Hcnt.
        destruct Hcnt as [Hc|(Hb & Hc1 & Hc2 & Hc3)]; [now left|].
        right. repeat split; auto. }
    (* the catch block *)
    assert (Hcaught : forall s1,
              actionCalls s1 = S (actionCalls s) -> sleeps s1 = sleeps s ->
              deliveredCount s1 = deliveredCount s -> failedCount s1 = failedCount s ->
              exists b s' n,
                (if attempt =? maxRetries o
                 then Some (false, exhaust o (attempt + 1) s1)
                 else deliverFrom o fuel (attempt + 1) (backoff o attempt s1)) = Some (b, s') /\
                actionCalls s' = (actionCalls s + n)%nat /\
                (n <= S fuel)%nat /\ (1 <= n)%nat /\
                sleeps s' = sleeps s ++ delaysFrom o attempt n /\
                ((b = true /\ deliveredCount s' = deliveredCount s + 1 /\
                  failedCount s' = failedCount s) \/
                 (b = false /\ failedCount s' = failedCount s + 1 /\
                  deliveredCount s' = deliveredCount s /\ n = S fuel))).
    { intros s1 Ha Hs Hd Hf.
      destruct (Z.eqb_spec attempt (maxRetries o)) as [Heq|Hne]; [|now apply Hretry].
      exists false, (exhaust o (attempt + 1) s1), 1%nat.
      unfold exhaust, delaysFrom; cbn. rewrite app_nil_r, Ha, Hs, Hd, Hf.
      repeat split; try lia; try (right; repeat split; lia). }
    assert (Hdone : forall s1,
              actionCalls s1 = S (actionCalls s) -> sleeps s1 = sleeps s ->
              deliveredCount s1 = deliveredCount s -> failedCount s1 = failedCount s ->
              exists b s' n,
                Some (true, delivered o s1) = Some (b, s') /\
                actionCalls s' = (actionCalls s + n)%nat /\
                (n <= S fuel)%nat /\ (1 <= n)%nat /\
                sleeps s' = sleeps s ++ delaysFrom o attempt n /\
                ((b = true /\ deliveredCount s' = deliveredCount s + 1 /\
                  failedCount s' = failedCount s) \/
                 (b = false /\ failedCount s' = failedCount s + 1 /\
                  deliveredCount s' = deliveredCount s /\ n = S fuel))).
    { intros s1 Ha Hs Hd Hf.
      exists true, (delivered o s1), 1%nat.
      unfold delivered, delaysFrom; cbn. rewrite app_nil_r, Ha, Hs, Hd, Hf.
      repeat split; try lia; try (left; repeat split; lia). }
    assert (Hwrap : forall (r : option (bool * State)),
              (exists b s' n,
                 r = Some (b, s') /\
                 actionCalls s' = (actionCalls s + n)%nat /\
                 (n <= S fuel)%nat /\ (1 <= n)%nat /\
                 sleeps s' = sleeps s ++ delaysFrom o attempt n /\
                 ((b = true /\ deliveredCount s' = deliveredCount s + 1 /\
                   failedCount s' = failedCount s) \/
                  (b = false /\ failedCount s' = failedCount s + 1 /\
                   deliveredCount s' = deliveredCount s /\ n = S fuel))) ->
              exists b s' n,
                r = Some (b, s') /\
                actionCalls s' = (actionCalls s + n)%nat /\
                (n <= S fuel)%nat /\ (attempt <= maxRetries o -> (1 <= n)%nat) /\
                sleeps s' = sleeps s ++ delaysFrom o attempt n /\
                ((b = true /\ deliveredCount s' = deliveredCount s + 1 /\
                  failedCount s' = failedCount s) \/
                 (b = false /\ failedCount s' = failedCount s + 1 /\
                  deliveredCount s' = deliveredCount s /\ n = S fuel))).
    { intros r (b & s' & n & H1 & H2 & H3 & H4 & H5 & H6).
      exists b, s', n. repeat split; auto. }
    apply Hwrap.
    destruct (action o (actionCalls s)).
    + destruct (confirm o) as [c|].
      * destruct (c (confirmCalls (callAction s))) as [[|]|].
        -- apply Hdone; reflexivity.
        -- apply Hretry; reflexivity.
        -- apply Hcaught; reflexivity.
      * apply Hdone; reflexivity.
    + apply Hcaught; reflexivity.
Qed.

End AnyEnvironment.

(** X4: [deliver()] always returns, whatever [action] and [confirm] do
    and whatever [maxRetries] is.  It resolves true exactly when it
    counted a delivery ([deliveredCount] + 1, [failedCount] unchanged)
    and false exactly when it counted a failure ([failedCount] + 1,
    [deliveredCount] unchanged); it invokes the action at most
    [maxRetries + 1] times (not at all when [maxRetries] is negative),
    and at least once when [maxRetries >= 0]. *)
Theorem deliver_returns (o : Options) (s : State) :
  exists b s',
    deliver o s = Some (b, s') /\
    (b = true -> deliveredCount s' = deliveredCount s + 1 /\ failedCount s' = failedCount s) /\
    (b = false -> failedCount s' = failedCount s + 1 /\ deliveredCount s' = deliveredCount s) /\
    Z.of_nat (actionCalls s') - Z.of_nat (actionCalls s) <= Z.max 0 (maxRetries o + 1) /\
    (0 <= maxRetries o -> (actionCalls s < actionCalls s')%nat).
Proof.
  unfold deliver. destruct (Z.le_gt_cases 0 (maxRetries o + 1)) as [Hk|Hk].
  - destruct (deliverFrom_any o (Z.to_nat (maxRetries o + 1)) 0 s)
      as (b & s' & n & Hrun & Hn & Hnf & Hn1 & _ & Hcnt); [lia|f_equal; lia|].
    exists b, s'. split; [exact Hrun|].
    split; [intros ->; destruct Hcnt as [(_ & H)|(H & _)]; [exact H|discriminate]|].
    split; [intros ->; destruct Hcnt as [(H & _)|(_ & H1 & H2 & _)]; [discriminate|auto]|].
    split; [lia|]. intro Hpos. specialize (Hn1 Hpos). lia.
  - replace (Z.to_nat (maxRetries o + 1)) with 0%nat by lia. cbn [deliverFrom].
    replace (0 <=? maxRetries o) with false by (symmetry; apply Z.leb_gt; lia).
    exists false, (exhaust o (maxRetries o + 1) s). unfold exhaust; cbn.
    split; [reflexivity|]. split; [discriminate|]. split; [auto|].
    split; lia.
Qed.

(** X5: the backoff of one [deliver()] with [maxRetries >= 0]: when the
    action was invoked [n] times, the delays awaited are
    [baseDelayMs * 2^0, ..., baseDelayMs * 2^(n-2)], in this order: one
    before each retry, none after the last attempt. *)
Theorem deliver_backoff (o : Options) (s : State) :
  0 <= maxRetries o ->
  exists b s' n,
    deliver o s = Some (b, s') /\
    actionCalls s' = (actionCalls s + n)%nat /\
    (1 <= n)%nat /\ Z.of_nat n <= maxRetries o + 1 /\
    sleeps s' = sleeps s ++ schedule o (n - 1).
Proof.
  intro Hk. unfold deliver.
  destruct (deliverFrom_any o (Z.to_nat (maxRetries o + 1)) 0 s)
    as (b & s' & n & Hrun & Hn & Hnf & Hn1 & Hsl & _); [lia|f_equal; lia|].
  exists b, s', n. repeat split; auto; try lia.
Qed.

Lemma deliver_backoff_witness :
  exists b s' n,
    deliver (mkOptions (fun i => if (i <? 2)%nat then Throws else Returns) 3 100 None false false)
            init = Some (b, s') /\
    actionCalls s' = (actionCalls init + n)%nat /\
    (1 <= n)%nat /\ Z.of_nat n <= 3 + 1 /\
    sleeps s' = sleeps init
                ++ schedule (mkOptions (fun i => if (i <? 2)%nat then Throws else Returns)
                                       3 100 None false false) (n - 1).
Proof.
  apply (deliver_backoff
           (mkOptions (fun i => if (i <? 2)%nat then Throws else Returns) 3 100 None false false)
           init).
  cbn. lia.
Defined.

Section Unconfirmed.

Variable o : Options.
Hypothesis Hnever : neverConfirmed o.

Lemma deliverFrom_unconfirmed fuel : forall attempt s,
  0 <= attempt <= maxRetries o + 1 ->
  fuel = Z.to_nat (maxRetries o - attempt + 1) ->
  exists s',
    deliverFrom o fuel attempt s = Some (false, s') /\
    actionCalls s' = (actionCalls s + fuel)%nat /\
    confirmCalls s' = (confirmCalls s + fuel)%nat /\
    failedCount s' = failedCount s + 1 /\
    deliveredCount s' = deliveredCount s /\
    deliveredCalls s' = deliveredCalls s /\
    exhaustedCalls s' =
      exhaustedCalls s ++ (if onExhausted o then [maxRetries o + 1] else []).
Proof.
  destruct Hnever as (Hact & c & Hc & Hfalse).
  induction fuel as [|fuel IH]; intros attempt s Hrange Hfuel.
  - assert (attempt = maxRetries o + 1) by lia. subst attempt. cbn [deliverFrom].
    replace (maxRetries o + 1 <=? maxRetries o) with false by (symmetry; apply Z.leb_gt; lia).
    eexists. split; [reflexivity|]. unfold exhaust; cbn.
    repeat split; try lia. destruct (onExhausted o); [reflexivity|now rewrite app_nil_r].
  - cbn [deliverFrom].
    replace (attempt <=? maxRetries o) with true by (symmetry; apply Z.leb_le; lia).
    rewrite Hact, Hc, Hfalse.
    destruct (IH (attempt + 1) (backoff o attempt (callConfirm (callAction s))))
      as (s' & Hrun & Ha & Hcf & Hf & Hd & Hdc & Hex); [lia|lia|].
    destruct (backoff_fields o attempt (callConfirm (callAction s)))
      as (Bd & Bf & Ba & Bc & Be & Bdc & _).
    exists s'. split; [exact Hrun|].
    rewrite Ha, Hcf, Hf, Hd, Hdc, Hex, Bd, Bf, Ba, Bc, Be, Bdc. cbn.
    repeat split; lia.
Qed.

End Unconfirmed.

(** X6: an attempt whose action succeeds but whose [confirm] answers
    false uses up a retry like a throw does: with [maxRetries = k >= 0],
    an action that never throws and a [confirm] that always answers
    false, [deliver()] invokes the action and [confirm] [k + 1] times
    each, counts one failure and no delivery, calls [onExhausted] (when
    supplied) once with [k + 1], and resolves false. *)
Theorem unconfirmed_consumes_retries (o : Options) (s : State) :
  0 <= maxRetries o -> neverConfirmed o ->
  exists s',
    deliver o s = Some (false, s') /\
    Z.of_nat (actionCalls s') = Z.of_nat (actionCalls s) + (maxRetries o + 1) /\
    Z.of_nat (confirmCalls s') = Z.of_nat (confirmCalls s) + (maxRetries o + 1) /\
    failedCount s' = failedCount s + 1 /\
    deliveredCount s' = deliveredCount s /\
    deliveredCalls s' = deliveredCalls s /\
    exhaustedCalls s' =
      exhaustedCalls s ++ (if onExhausted o then [maxRetries o + 1] else []).
Proof.
  intros Hk Hnever. unfold deliver.
  destruct (deliverFrom_unconfirmed o Hnever (Z.to_nat (maxRetries o + 1)) 0 s)
    as (s' & Hrun & Ha & Hc & Hrest); [lia|f_equal; lia|].
  exists s'. split; [exact Hrun|]. rewrite Ha, Hc. repeat split; try lia; apply Hrest.
Qed.

Lemma unconfirmed_consumes_retries_witness :
  exists s',
    deliver (mkOptions (fun _ => Returns) 3 10 (Some (fun _ => Some false)) true true) init
      = Some (false, s') /\
    Z.of_nat (actionCalls s') = Z.of_nat (actionCalls init) + (3 + 1) /\
    Z.of_nat (confirmCalls s') = Z.of_nat (confirmCalls init) + (3 + 1) /\
    failedCount s' = failedCount init + 1 /\
    deliveredCount s' = deliveredCount init /\
    deliveredCalls s' = deliveredCalls init /\
    exhaustedCalls s' = exhaustedCalls init ++ [3 + 1].
Proof.
  apply (unconfirmed_consumes_retries
           (mkOptions (fun _ => Returns) 3 10 (Some (fun _ => Some false)) true true) init).
  - cbn. lia.
  - split; [intro; reflexivity|]. eexists. split; [reflexivity|]. intro; reflexivity.
Defined.

Section FirstSuccess.

Variable o : Options.
Hypothesis Hnoconfirm : confirm o = None.

Lemma deliverFrom_first_success m : forall fuel attempt s,
  0 <= attempt -> attempt + Z.of_nat m <= maxRetries o ->
  fuel = Z.to_nat (maxRetries o - attempt + 1) ->
  (forall j, (j < m)%nat -> action o (actionCalls s + j) = Throws) ->
  action o (actionCalls s + m) = Returns ->
  exists s',
    deliverFrom o fuel attempt s = Some (true, s') /\
    actionCalls s' = (actionCalls s + S m)%nat /\
    deliveredCount s' = deliveredCount s + 1 /\
    failedCount s' = failedCount s /\
    exhaustedCalls s' = exhaustedCalls s /\
    deliveredCalls s' = (if onDelivered o then S (deliveredCalls s) else deliveredCalls s) /\
    confirmCalls s' = confirmCalls s /\
    sleeps s' = sleeps s ++ delaysFrom o attempt (S m).
Proof.
  induction m as [|m IH]; intros fuel attempt s Ha Hm Hfuel Hthrows Hreturns.
  - destruct fuel as [|fuel]; [lia|]. cbn [deliverFrom].
    replace (attempt <=? maxRetries o) with true by (symmetry; apply Z.leb_le; lia).
    rewrite Nat.add_0_r in Hreturns. rewrite Hreturns, Hnoconfirm.
    eexists. split; [reflexivity|]. unfold delivered, delaysFrom; cbn.
    rewrite app_nil_r. repeat split; lia.
  - destruct fuel as [|fuel]; [lia|]. cbn [deliverFrom].
    replace (attempt <=? maxRetries o) with true by (symmetry; apply Z.leb_le; lia).
    assert (H0 : action o (actionCalls s + 0) = Throws) by (apply Hthrows; lia).
    rewrite Nat.add_0_r in H0. rewrite H0.
    replace (attempt =? maxRetries o) with false by (symmetry; apply Z.eqb_neq; lia).
    destruct (backoff_fields o attempt (callAction s)) as (Bd & Bf & Ba & Bc & Be & Bdc & Bs).
    destruct (IH fuel (attempt + 1) (backoff o attempt (callAction s)))
      as (s' & Hrun & Hac & Hd & Hf & He & Hdc & Hcc & Hsl); try lia.
    + intros j Hj. rewrite Ba. cbn. rewrite <- Nat.add_succ_r. apply Hthrows. lia.
    + rewrite Ba. cbn. rewrite <- Nat.add_succ_r. exact Hreturns.
    + exists s'. split; [exact Hrun|].
      rewrite Hac, Hd, Hf, He, Hdc, Hcc, Hsl, Bd, Bf, Ba, Bc, Be, Bdc, Bs. cbn.
      repeat split; try lia.
      replace (attempt <? maxRetries o) with true by (symmetry; apply Z.ltb_lt; lia).
      rewrite <- app_assoc. cbn [app]. rewrite Nat.sub_0_r, Z.add_0_r.
      do 2 f_equal. rewrite <- seq_shift, map_map. apply map_ext.
      intro i. do 2 f_equal. lia.
Qed.

End FirstSuccess.

(** X7: without a [confirm] predicate, when the action throws on its
    next [m] invocations and then returns, with [m <= maxRetries],
    [deliver()] resolves true after exactly [m + 1] invocations, having
    awaited the [m] delays [baseDelayMs * 2^0 .. 2^(m-1)]; it counts one
    delivery, no failure, calls [onDelivered] (when supplied) exactly
    once and never calls [onExhausted]. *)
Theorem retries_until_first_success (o : Options) (s : State) (m : nat) :
  confirm o = None ->
  Z.of_nat m <= maxRetries o ->
  (forall j, (j < m)%nat -> action o (actionCalls s + j) = Throws) ->
  action o (actionCalls s + m) = Returns ->
  exists s',
    deliver o s = Some (true, s') /\
    actionCalls s' = (actionCalls s + m + 1)%nat /\
    deliveredCount s' = deliveredCount s + 1 /\
    failedCount s' = failedCount s /\
    deliveredCalls s' = (if onDelivered o then S (deliveredCalls s) else deliveredCalls s) /\
    exhaustedCalls s' = exhaustedCalls s /\
    confirmCalls s' = confirmCalls s /\
    sleeps s' = sleeps s ++ schedule o m.
Proof.
  intros Hc Hm Hthrows Hreturns. unfold deliver.
  destruct (deliverFrom_first_success o Hc m (Z.to_nat (maxRetries o + 1)) 0 s)
    as (s' & Hrun & Hac & Hd & Hf & He & Hdc & Hcc & Hsl); auto; try lia.
  exists s'. split; [exact Hrun|]. rewrite Hac, Hd, Hf, He, Hdc, Hcc, Hsl.
  repeat split; try lia. unfold delaysFrom, schedule.
  now rewrite Nat.sub_succ, Nat.sub_0_r.
Qed.

(** X7 on the test "retries on failure and succeeds on second attempt",
    with both callbacks supplied: [onDelivered] is called once,
    [onExhausted] never. *)
Lemma retries_until_first_success_witness :
  exists s',
    deliver (mkOptions (fun i => if (i <? 1)%nat then Throws else Returns) 3 10 None true true)
            init = Some (true, s') /\
    actionCalls s' = (actionCalls init + 1 + 1)%nat /\
    deliveredCount s' = deliveredCount init + 1 /\
    failedCount s' = failedCount init /\
    deliveredCalls s' = S (deliveredCalls init) /\
    exhaustedCalls s' = exhaustedCalls init /\
    confirmCalls s' = confirmCalls init /\
    sleeps s' = sleeps init
                ++ schedule (mkOptions (fun i => if (i <? 1)%nat then Throws else Returns)
                                       3 10 None true true) 1.
Proof.
  apply (retries_until_first_success
           (mkOptions (fun i => if (i <? 1)%nat then Throws else Returns) 3 10 None true true)
           init 1).
  - reflexivity.
  - cbn. lia.
  - intros j Hj. assert (j = 0%nat) by lia. subst j. reflexivity.
  - reflexivity.
Defined.

End DeliveryRetries.

(* ===================================================================== *)
(** * Further properties of the resilient watcher *)
(* ===================================================================== *)

Module WatcherHeartbeat.
Import Watcher.

Section WithPlatform.

Variable FS : Type.
Variable existsSync : FS -> string -> bool.
Variable mkdirSync : FS -> string -> FS.
Variable readdirDirs : FS -> string -> option (list string).
Variable watchThrows : FS -> string -> bool.
Variable join : string -> string -> string.
Variable linux : bool.
Variable depth : nat.
Variable o : Options.

Abbreviation State := (State FS).
Abbreviation Event := (Event FS).
Abbreviation step :=
  (step FS existsSync mkdirSync readdirDirs watchThrows join linux depth o).
Abbreviation run :=
  (run FS existsSync mkdirSync readdirDirs watchThrows join linux depth o).
Abbreviation start :=
  (start FS existsSync mkdirSync readdirDirs watchThrows join linux depth o).
Abbreviation initWatchers :=
  (initWatchers FS readdirDirs watchThrows join linux depth o).
Abbreviation ensureDirectories := (ensureDirectories FS existsSync mkdirSync o).
Abbreviation resetHeartbeat := (resetHeartbeat FS o).
Abbreviation heartbeat := (heartbeat FS o).
Abbreviation heartbeatExpired :=
  (heartbeatExpired FS existsSync mkdirSync readdirDirs watchThrows join linux depth o).
Abbreviation timerFired :=
  (timerFired FS existsSync mkdirSync readdirDirs watchThrows join linux depth o).
Abbreviation stop := (stop FS).
Abbreviation atMostOne := (atMostOne FS).
Abbreviation fresh := (fresh FS).
Abbreviation timed := (timed FS).
Abbreviation mkdirCreates := (mkdirCreates FS existsSync mkdirSync).
Abbreviation watchesExisting := (watchesExisting FS existsSync watchThrows).

(** Subscribing does not touch the file system. *)
Lemma watchSingle_fs dir r (s : State) :
  fs FS (watchSingle FS watchThrows dir r s) = fs FS s.
Proof. unfold watchSingle. destruct (watchThrows _ _); reflexivity. Qed.

Lemma initWatchers_fs (s : State) : fs FS (initWatchers s) = fs FS s.
Proof.
  unfold Watcher.initWatchers.
  change (fs FS s) with (fs FS (teardownWatchers FS s)).
  generalize (teardownWatchers FS s) as s0.
  induction (directories o) as [|dir dirs IH]; intro s0; [reflexivity|].
  cbn [fold_left]. rewrite IH.
  destruct (recursive o && linux); [|apply watchSingle_fs].
  generalize (walkDirs FS readdirDirs join depth (fs FS s0) dir) as subs.
  intro subs. revert s0.
  induction subs as [|sub subs IHs]; intro s0; [reflexivity|].
  cbn [fold_left]. rewrite IHs. apply watchSingle_fs.
Qed.

Lemma resetHeartbeat_fs (s : State) :
  fs FS (resetHeartbeat s) = fs FS s /\
  isActive FS (resetHeartbeat s) = isActive FS s /\
  reinitCount FS (resetHeartbeat s) = reinitCount FS s /\
  watchers FS (resetHeartbeat s) = watchers FS s.
Proof.
  unfold Watcher.resetHeartbeat.
  destruct ((heartbeatTimeoutMs o <=? 0) || negb (isActive FS s)); cbn; tauto.
Qed.

Lemma resetHeartbeat_timed (s : State) : timed s -> timed (resetHeartbeat s).
Proof.
  intros (Hone & Hfresh & Hh). unfold Watcher.resetHeartbeat.
  destruct ((heartbeatTimeoutMs o <=? 0) || negb (isActive FS s)); [repeat split; auto|].
  assert (Hc : match heartbeatTimer FS s with
               | Some id => clearTimeout id (timers FS s)
               | None => timers FS s
               end = []).
  { destruct Hone as [Ht|(h & Ht & Heq)].
    - rewrite Ht. destruct (heartbeatTimer FS s); reflexivity.
    - rewrite Heq, Ht. cbn. now rewrite Nat.eqb_refl. }
  rewrite Hc. split; [|split]; cbn.
  - right. eexists. split; reflexivity.
  - intros id [<-|[]]. cbn. lia.
  - intros h Heq. injection Heq as <-. lia.
Qed.

Lemma timed_same (s s' : State) :
  timers FS s' = timers FS s -> heartbeatTimer FS s' = heartbeatTimer FS s ->
  nextTimer FS s' = nextTimer FS s -> timed s -> timed s'.
Proof.
  intros Ht Hh Hn (Hone & Hfresh & Hlt). unfold Watcher.timed, Watcher.atMostOne, Watcher.fresh.
  rewrite Ht, Hh, Hn. auto.
Qed.

Lemma reinit_timed (s : State) :
  timed s -> timed (resetHeartbeat (initWatchers (ensureDirectories s))).
Proof.
  intro H. apply resetHeartbeat_timed.
  destruct (WatcherFacts.initWatchers_timers FS readdirDirs watchThrows join linux depth o
              (ensureDirectories s)) as (A & B & _ & _ & E).
  apply (timed_same s); [rewrite A|rewrite B|rewrite E|]; auto.
Qed.

Lemma emptied_timed (s s' : State) :
  timers FS s' = [] -> nextTimer FS s' = nextTimer FS s ->
  (heartbeatTimer FS s' = heartbeatTimer FS s \/ heartbeatTimer FS s' = None) ->
  timed s -> timed s'.
Proof.
  intros Ht Hn Hh (_ & _ & Hlt). repeat split.
  - now left.
  - intros id Hin. rewrite Ht in Hin. destruct Hin.
  - intros h Heq. rewrite Hn. destruct Hh as [Hh|Hh]; rewrite Hh in Heq;
      [now apply Hlt|discriminate].
Qed.

Lemma step_timed (s : State) e : timed s -> timed (step s e).
Proof.
  intro H. destruct e as [| | |dir|id|change]; cbn [Watcher.step].
  - apply (reinit_timed (mkState FS _ _ _ _ true 0%nat _ _)).
    apply (timed_same s); auto.
  - unfold Watcher.stop. cbn. destruct (heartbeatTimer FS s) as [h|] eqn:Hh; cbn.
    + apply (emptied_timed s); cbn; auto.
      destruct H as ([Ht|(h' & Ht & Heq)] & _); rewrite Ht; [reflexivity|].
      cbn. assert (h' = h) by congruence. subst. now rewrite Nat.eqb_refl.
    + destruct H as ([Ht|(h' & Ht & Heq)] & _); [|congruence].
      apply (emptied_timed s); cbn; auto.
      * repeat split; auto. now left. intros id Hin. rewrite Ht in Hin. destruct Hin.
        intros h0 Hh0. congruence.
  - now apply resetHeartbeat_timed.
  - unfold watchCallback. apply (timed_same (resetHeartbeat s)); auto.
    now apply resetHeartbeat_timed.
  - unfold Watcher.timerFired. destruct (existsb (Nat.eqb id) (timers FS s)) eqn:Hex; [|exact H].
    assert (Hc : timed (mkState FS (watchers FS s) (heartbeatTimer FS s)
                          (clearTimeout id (timers FS s)) (nextTimer FS s)
                          (isActive FS s) (reinitCount FS s) (fs FS s) (changes FS s))).
    { apply (emptied_timed s); cbn; auto.
      destruct H as ([Ht|(h & Ht & Heq)] & _); rewrite Ht in *; [reflexivity|].
      cbn in Hex. rewrite orb_false_r in Hex. apply Nat.eqb_eq in Hex. subst.
      cbn. now rewrite Nat.eqb_refl. }
    unfold Watcher.heartbeatExpired. cbn [isActive].
    destruct (negb (isActive FS s)); [exact Hc|].
    apply (reinit_timed (mkState FS _ _ _ _ _ _ _ _)).
    apply (timed_same (mkState FS (watchers FS s) (heartbeatTimer FS s)
                               (clearTimeout id (timers FS s)) (nextTimer FS s)
                               (isActive FS s) (reinitCount FS s) (fs FS s)
                               (changes FS s))); auto.
  - apply (timed_same s); auto.
Qed.

Lemma run_timed evs : forall s : State, timed s -> timed (run evs s).
Proof.
  induction evs as [|e evs IH]; intros s H; [exact H|].
  change (run (e :: evs) s) with (run evs (step s e)). apply IH. now apply step_timed.
Qed.

Lemma init_timed f : timed (init FS f).
Proof.
  repeat split; cbn; [now left|intros id []|discriminate].
Qed.

(** X8: after any history of a watcher, at most one heartbeat timeout is
    pending, and it is the one the watcher remembers: [resetHeartbeat]
    never leaves an older timeout armed. *)
Theorem one_heartbeat_pending (f : FS) (history : list Event) :
  let s := run history (init FS f) in
  (List.length (timers FS s) <= 1)%nat /\
  (forall id, In id (timers FS s) -> heartbeatTimer FS s = Some id).
Proof.
  intro s. destruct (run_timed history (init FS f) (init_timed f)) as (Hone & _).
  fold s in Hone. destruct Hone as [Ht|(h & Ht & Heq)]; rewrite Ht; cbn.
  - split; [lia|intros id []].
  - split; [lia|]. intros id [<-|[]]. exact Heq.
Qed.

(** X9: a manual [heartbeat()] on an active watcher postpones the
    expiry: the timeout that was pending is cancelled (if it is ever
    reported as firing, nothing happens), a new one is armed, and
    [reinitCount] does not move. *)
Theorem heartbeat_postpones (f : FS) (history : list Event) (h : nat) :
  let s := run history (init FS f) in
  isActive FS s = true -> 0 < heartbeatTimeoutMs o -> In h (timers FS s) ->
  timers FS (heartbeat s) = [nextTimer FS s] /\
  h <> nextTimer FS s /\
  timerFired h (heartbeat s) = heartbeat s /\
  reinitCount FS (heartbeat s) = reinitCount FS s.
Proof.
  intros s Hact Hms Hin.
  destruct (run_timed history (init FS f) (init_timed f)) as (Hone & Hfresh & _).
  fold s in Hone, Hfresh.
  destruct Hone as [Ht|(h' & Ht & Heq)]; [rewrite Ht in Hin; destruct Hin|].
  assert (h' = h) by (rewrite Ht in Hin; destruct Hin as [?|[]]; auto). subst h'.
  assert (Hlt : (h < nextTimer FS s)%nat) by (apply Hfresh; rewrite Ht; now left).
  assert (Hhb : heartbeat s =
                mkState FS (watchers FS s) (Some (nextTimer FS s)) [nextTimer FS s]
                        (S (nextTimer FS s)) (isActive FS s) (reinitCount FS s)
                        (fs FS s) (changes FS s)).
  { unfold Watcher.heartbeat, Watcher.resetHeartbeat. rewrite Hact, Heq, Ht.
    replace (heartbeatTimeoutMs o <=? 0) with false by (symmetry; apply Z.leb_gt; lia).
    cbn. now rewrite Nat.eqb_refl. }
  rewrite Hhb. cbn. repeat split; try lia.
  unfold Watcher.timerFired. cbn.
  destruct (Nat.eqb_spec h (nextTimer FS s)); [lia|reflexivity].
Qed.

(** X10: with the heartbeat disabled ([heartbeatTimeoutMs <= 0]) no
    timeout is ever armed and the watcher never re-initializes:
    [reinitCount] stays 0 through every history. *)
Theorem disabled_heartbeat_never_fires (f : FS) (history : list Event) :
  heartbeatTimeoutMs o <= 0 ->
  let s := run history (init FS f) in
  timers FS s = [] /\ heartbeatTimer FS s = None /\ reinitCount FS s = 0%nat.
Proof.
  intros Hoff.
  assert (Hreset : forall s : State, resetHeartbeat s = s).
  { intro s. unfold Watcher.resetHeartbeat.
    replace (heartbeatTimeoutMs o <=? 0) with true by (symmetry; apply Z.leb_le; lia).
    reflexivity. }
  assert (Hgen : forall evs (s : State),
             timers FS s = [] /\ heartbeatTimer FS s = None /\ reinitCount FS s = 0%nat ->
             timers FS (run evs s) = [] /\ heartbeatTimer FS (run evs s) = None /\
             reinitCount FS (run evs s) = 0%nat).
  { induction evs as [|e evs IH]; intros s Hs; [exact Hs|].
    change (run (e :: evs) s) with (run evs (step s e)). apply IH.
    destruct Hs as (Ht & Hh & Hr).
    destruct e as [| | |dir|id|change]; cbn [Watcher.step].
    - unfold Watcher.start. rewrite Hreset.
      destruct (WatcherFacts.initWatchers_timers FS readdirDirs watchThrows join linux depth o
                  (ensureDirectories (mkState FS (watchers FS s) (heartbeatTimer FS s)
                                              (timers FS s) (nextTimer FS s) true 0%nat
                                              (fs FS s) (changes FS s))))
        as (A & B & _ & D & _).
      rewrite A, B, D. cbn. auto.
    - unfold Watcher.stop. cbn. rewrite Hh. cbn. auto.
    - unfold Watcher.heartbeat. rewrite Hreset. auto.
    - unfold watchCallback. rewrite Hreset. cbn. auto.
    - unfold Watcher.timerFired. rewrite Ht. cbn. auto.
    - cbn. auto. }
  apply Hgen. cbn. auto.
Qed.

(** [ensureDirectories] on a file system where [mkdirSync] works. *)
Lemma ensure_fold dirs :
  mkdirCreates -> forall f,
  let f' := fold_left (fun f dir => if existsSync f dir then f else mkdirSync f dir) dirs f in
  (forall d, existsSync f d = true -> existsSync f' d = true) /\
  (forall d, In d dirs -> existsSync f' d = true).
Proof.
  intros [Hmk Hkeep]. induction dirs as [|dir dirs IH]; intro f; cbn.
  - split; [auto|intros d []].
  - set (f1 := if existsSync f dir then f else mkdirSync f dir).
    assert (H1 : (forall d, existsSync f d = true -> existsSync f1 d = true) /\
                 existsSync f1 dir = true).
    { unfold f1. destruct (existsSync f dir) eqn:He; auto. }
    destruct H1 as [Hk1 Hd1]. destruct (IH f1) as [Hk Hall]. split.
    + intros d Hd. apply Hk. now apply Hk1.
    + intros d [<-|Hin]; [now apply Hk|now apply Hall].
Qed.

(** Subscribing, without manual recursion, to directories that exist. *)
Lemma watch_fold r dirs :
  watchesExisting -> forall s : State,
  (forall d, In d dirs -> existsSync (fs FS s) d = true) ->
  watchers FS (fold_left (fun s' dir => watchSingle FS watchThrows dir r s') dirs s)
    = watchers FS s ++ map (fun d => (d, r)) dirs.
Proof.
  intro Hw. induction dirs as [|dir dirs IH]; intros s Hex; cbn.
  - now rewrite app_nil_r.
  - rewrite IH.
    + unfold watchSingle. rewrite (Hw _ _ (Hex dir (or_introl eq_refl))). cbn.
      now rewrite <- app_assoc.
    + intros d Hd. rewrite watchSingle_fs. apply Hex. now right.
Qed.

(** X11: [start()] on a file system where [mkdirSync] creates what it is
    asked to: afterwards the watcher is active, [reinitCount] is 0,
    every configured directory exists, and nothing that existed is gone.
    When [fs.watch] succeeds on existing directories and the platform
    needs no manual recursion, exactly the configured directories are
    watched, in order. *)
Theorem start_creates_and_watches (s : State) :
  mkdirCreates ->
  isActive FS (start s) = true /\
  reinitCount FS (start s) = 0%nat /\
  (forall d, In d (directories o) -> existsSync (fs FS (start s)) d = true) /\
  (forall d, existsSync (fs FS s) d = true -> existsSync (fs FS (start s)) d = true) /\
  (watchesExisting -> recursive o && linux = false ->
   watchers FS (start s) = map (fun d => (d, recursive o)) (directories o)).
Proof.
  intro Hmk. unfold Watcher.start.
  set (s1 := mkState FS (watchers FS s) (heartbeatTimer FS s) (timers FS s)
                     (nextTimer FS s) true 0%nat (fs FS s) (changes FS s)).
  destruct (resetHeartbeat_fs (initWatchers (ensureDirectories s1))) as (Hfs & Hact & Hre & Hw).
  destruct (WatcherFacts.initWatchers_timers FS readdirDirs watchThrows join linux depth o
              (ensureDirectories s1)) as (_ & _ & C & D & _).
  rewrite Hfs, Hact, Hre, Hw, initWatchers_fs, C, D.
  destruct (ensure_fold (directories o) Hmk (fs FS s)) as [Hkeep Hall].
  repeat split; auto.
  intros Hwatch Hrec. unfold Watcher.initWatchers. rewrite Hrec.
  rewrite watch_fold; [reflexivity|exact Hwatch|]. intros d Hd. now apply Hall.
Qed.

(** X12: the heartbeat expiring on an active watcher re-initializes it:
    [reinitCount] goes up by one, the watcher stays active, and on a file
    system where [mkdirSync] works every configured directory exists
    again, whatever had been deleted; with the heartbeat enabled the
    next timeout is armed. *)
Theorem expiry_reinitializes (s : State) (h : nat) :
  mkdirCreates ->
  isActive FS s = true -> In h (timers FS s) ->
  let s' := timerFired h s in
  reinitCount FS s' = S (reinitCount FS s) /\
  isActive FS s' = true /\
  (forall d, In d (directories o) -> existsSync (fs FS s') d = true) /\
  (0 < heartbeatTimeoutMs o -> In (nextTimer FS s) (timers FS s')).
Proof.
  intros Hmk Hact Hin s'. unfold s', Watcher.timerFired.
  assert (Hex : existsb (Nat.eqb h) (timers FS s) = true).
  { apply existsb_exists. exists h. split; [exact Hin|apply Nat.eqb_refl]. }
  rewrite Hex. unfold Watcher.heartbeatExpired.
  cbn [watchers heartbeatTimer timers nextTimer isActive reinitCount fs changes].
  rewrite Hact. cbn [negb]. cbv zeta.
  set (s1 := mkState FS (watchers FS s) (heartbeatTimer FS s)
                     (clearTimeout h (timers FS s)) (nextTimer FS s) true
                     (S (reinitCount FS s)) (fs FS s) (changes FS s)).
  destruct (resetHeartbeat_fs (initWatchers (ensureDirectories s1))) as (Hfs & Ha & Hre & _).
  destruct (WatcherFacts.initWatchers_timers FS readdirDirs watchThrows join linux depth o
              (ensureDirectories s1)) as (A & B & C & D & E).
  rewrite Hfs, Ha, Hre, initWatchers_fs, C, D.
  destruct (ensure_fold (directories o) Hmk (fs FS s)) as [_ Hall].
  repeat split; auto.
  intro Hms. unfold Watcher.resetHeartbeat. rewrite C.
  assert (Ha1 : isActive FS (ensureDirectories s1) = true) by reflexivity.
  rewrite Ha1.
  replace (heartbeatTimeoutMs o <=? 0) with false by (symmetry; apply Z.leb_gt; lia).
  cbn [orb negb timers]. rewrite E. cbn. apply in_or_app. right. now left.
Qed.

End WithPlatform.

(** The list host satisfies what the watcher relies on. *)
Lemma list_mkdirCreates : mkdirCreates (list string) listExists listMkdir.
Proof.
  split; unfold listExists, listMkdir; intros; rewrite existsb_app.
  - cbn. rewrite String.eqb_refl. now rewrite orb_true_r.
  - now rewrite H.
Qed.

Lemma list_watchesExisting : watchesExisting (list string) listExists listWatchThrows.
Proof. intros f d H. unfold listWatchThrows. now rewrite H. Qed.

Lemma heartbeat_postpones_witness :
  let o := mkOptions ["/teams/t"%string] 50 false in
  let s := run (list string) listExists listMkdir listReaddir listWatchThrows
               slashJoin true 2 o [EStart _] (init _ []) in
  (isActive _ s = true /\ 0 < heartbeatTimeoutMs o /\ In 0%nat (timers _ s)) /\
  timers _ (heartbeat _ o s) = [nextTimer _ s] /\
  0%nat <> nextTimer _ s /\
  timerFired (list string) listExists listMkdir listReaddir listWatchThrows
             slashJoin true 2 o 0 (heartbeat _ o s) = heartbeat _ o s /\
  reinitCount _ (heartbeat _ o s) = reinitCount _ s.
Proof.
  split; [split; [reflexivity|split; [reflexivity|now left]]|].
  apply (heartbeat_postpones (list string) listExists listMkdir listReaddir
           listWatchThrows slashJoin true 2 (mkOptions ["/teams/t"%string] 50 false)
           [] [EStart _] 0%nat); [reflexivity|reflexivity|now left].
Defined.

Lemma disabled_heartbeat_never_fires_witness :
  let o := mkOptions ["/teams/t"%string] 0 false in
  let s := run (list string) listExists listMkdir listReaddir listWatchThrows
               slashJoin true 2 o
               [EStart _; EHeartbeat _; ETimer _ 0; EFsEvent _ "/teams/t"%string]
               (init _ []) in
  heartbeatTimeoutMs o <= 0 /\
  timers _ s = [] /\ heartbeatTimer _ s = None /\ reinitCount _ s = 0%nat.
Proof.
  split; [cbn; lia|].
  apply (disabled_heartbeat_never_fires (list string) listExists listMkdir listReaddir
           listWatchThrows slashJoin true 2 (mkOptions ["/teams/t"%string] 0 false)
           [] [EStart _; EHeartbeat _; ETimer _ 0; EFsEvent _ "/teams/t"%string]).
  cbn; lia.
Defined.

Lemma start_creates_and_watches_witness :
  let o := mkOptions ["/teams/t"%string; "/tasks/t"%string] 50 true in
  let s := start (list string) listExists listMkdir listReaddir listWatchThrows
                 slashJoin false 2 o (init _ ["/teams/t"%string]) in
  mkdirCreates (list string) listExists listMkdir /\
  isActive _ s = true /\
  reinitCount _ s = 0%nat /\
  (forall d, In d (directories o) -> listExists (fs _ s) d = true) /\
  (forall d, listExists ["/teams/t"%string] d = true -> listExists (fs _ s) d = true) /\
  (watchesExisting (list string) listExists listWatchThrows ->
   recursive o && false = false ->
   watchers _ s = map (fun d => (d, recursive o)) (directories o)).
Proof.
  split; [exact list_mkdirCreates|].
  apply (start_creates_and_watches (list string) listExists listMkdir listReaddir
           listWatchThrows slashJoin false 2
           (mkOptions ["/teams/t"%string; "/tasks/t"%string] 50 true)
           (init _ ["/teams/t"%string]) list_mkdirCreates).
Defined.

Lemma expiry_reinitializes_witness :
  let o := mkOptions ["/teams/t"%string] 50 false in
  let s := mkState (list string) [] (Some 0%nat) [0%nat] 1 true 0 [] [] in
  let s' := timerFired (list string) listExists listMkdir listReaddir listWatchThrows
                       slashJoin true 2 o 0 s in
  (mkdirCreates (list string) listExists listMkdir /\
   isActive _ s = true /\ In 0%nat (timers _ s)) /\
  reinitCount _ s' = 1%nat /\
  isActive _ s' = true /\
  (forall d, In d (directories o) -> listExists (fs _ s') d = true) /\
  (0 < heartbeatTimeoutMs o -> In (nextTimer _ s) (timers _ s')).
Proof.
  split; [split; [exact list_mkdirCreates|split; [reflexivity|now left]]|].
  apply (expiry_reinitializes (list string) listExists listMkdir listReaddir
           listWatchThrows slashJoin true 2 (mkOptions ["/teams/t"%string] 50 false)
           (mkState (list string) [] (Some 0%nat) [0%nat] 1 true 0 [] []) 0%nat
           list_mkdirCreates); [reflexivity|now left].
Defined.

End WatcherHeartbeat.

(* ===================================================================== *)
(** * Further properties of the team supervisor *)
(* ===================================================================== *)

Module SupervisorCycles.
Import Types Supervisor.

(** The supervisor after [stopTeam]: inactive, no configuration, no
    process handle, nothing pending. *)
Lemma stopTeam_halted team now s :
  let s' := stopTeam team now s in
  teamActive s' = false /\ currentConfig s' = None /\ leadProcess s' = None /\
  pendingBoardChange s' = false /\ spawns s' = spawns s.
Proof.
  destruct s as [lead deb act pend last total cfg port onExit cs ps pers ts next sg sp calls err].
  unfold stopTeam. cbn.
  destruct deb as [h|]; cbn; destruct lead as [[p [|]]|]; cbn;
    try (repeat split; reflexivity);
    unfold getPersistedPid; cbn;
    destruct (leadPid (pers team)) as [q|]; cbn; try (repeat split; reflexivity);
    destruct (negb (q =? 0) && _); cbn; repeat split; reflexivity.
Qed.

Lemma halted_step s e :
  isStart e = false ->
  teamActive s = false -> currentConfig s = None -> leadProcess s = None ->
  pendingBoardChange s = false ->
  let s' := step s e in
  teamActive s' = false /\ currentConfig s' = None /\ leadProcess s' = None /\
  pendingBoardChange s' = false /\ spawns s' = spawns s.
Proof.
  intros He Ha Hc Hl Hp. unfold step. cbv zeta.
  destruct (hostError s); [auto|].
  destruct e as [cfg port onExit now newPid|team now| |n|p now|h now newPid];
    try discriminate.
  - destruct (stopTeam_halted team now s) as (A & B & C & D & E). auto.
  - unfold notifyBoardChanged. rewrite Ha. cbn. auto.
  - unfold childResult. cbn. auto.
  - unfold childExit. destruct (find _ (children s)) as [c|]; [|auto].
    unfold exitHandler. cbn. rewrite Ha. cbn. auto.
  - unfold timerFired. destruct (find _ (timers s)) as [t|]; [|auto].
    unfold timerCallback.
    destruct (kind t) as [| | |q]; cbn.
    + unfold spawnCycle. cbn. rewrite Hc. cbn. auto.
    + rewrite Ha. cbn. auto.
    + rewrite Hl. cbn. auto.
    + match goal with |- context [if ?b then _ else _] => destruct b end; cbn; auto.
Qed.

(** X13: [stopTeam] is final until the next [startTeam]: whatever
    happens afterwards (board changes, result lines, exits of earlier
    children, timeouts coming due, further stops), the supervisor stays
    in the state STOPPED with no process handle and spawns nothing. *)
Theorem stopTeam_is_final (s : State) (team : string) (now : Z) (later : list Event) :
  forallb (fun e => negb (isStart e)) later = true ->
  let s' := run later (stopTeam team now s) in
  phase s' = STOPPED /\ leadProcess s' = None /\ currentConfig s' = None /\
  pendingBoardChange s' = false /\ spawns s' = spawns s.
Proof.
  intro Hl.
  assert (Hgen : forall evs s0,
             forallb (fun e => negb (isStart e)) evs = true ->
             teamActive s0 = false -> currentConfig s0 = None -> leadProcess s0 = None ->
             pendingBoardChange s0 = false ->
             teamActive (run evs s0) = false /\ currentConfig (run evs s0) = None /\
             leadProcess (run evs s0) = None /\ pendingBoardChange (run evs s0) = false /\
             spawns (run evs s0) = spawns s0).
  { induction evs as [|e evs IH]; intros s0 Hev Ha Hc Hp Hq; [cbn; auto|].
    cbn [forallb] in Hev. apply andb_prop in Hev as [He Hev].
    apply negb_true_iff in He.
    destruct (halted_step s0 e He Ha Hc Hp Hq) as (A & B & C & D & E).
    change (run (e :: evs) s0) with (run evs (step s0 e)).
    destruct (IH (step s0 e) Hev A B C D) as (A' & B' & C' & D' & E').
    rewrite E'. auto. }
  destruct (stopTeam_halted team now s) as (A & B & C & D & E).
  destruct (Hgen later _ Hl A B C D) as (A' & B' & C' & D' & E').
  cbv zeta. unfold phase. rewrite A', B', C', D', E', E. cbn. auto.
Qed.

Lemma halted_passive_step s e :
  isPassive e = true ->
  teamActive s = false -> currentConfig s = None -> leadProcess s = None ->
  (forall t, In t (timers s) -> isKillPid (kind t) = false) ->
  let s' := step s e in
  teamActive s' = false /\ currentConfig s' = None /\ leadProcess s' = None /\
  (forall t, In t (timers s') -> isKillPid (kind t) = false) /\
  signals s' = signals s.
Proof.
  intros He Ha Hc Hl Hk. unfold step. cbv zeta.
  destruct (hostError s); [auto|].
  destruct e as [cfg port onExit now newPid|team now| |n|p now|h now newPid];
    try discriminate.
  - unfold notifyBoardChanged. rewrite Ha. cbn. auto.
  - unfold childResult. cbn. auto.
  - unfold childExit. destruct (find _ (children s)) as [c|]; [|auto].
    unfold exitHandler. cbn. rewrite Ha. cbn. auto.
  - unfold timerFired. destruct (find _ (timers s)) as [t|] eqn:Hf; [|auto].
    apply find_some in Hf as [Hin _].
    assert (Hk' : forall t', In t' (timers (clearTimeout h s)) -> isKillPid (kind t') = false).
    { cbn. intros t' Ht'. apply filter_In in Ht' as [Ht' _]. now apply Hk. }
    unfold timerCallback. pose proof (Hk t Hin) as Hkind.
    destruct (kind t) as [| | |q]; try discriminate; cbn.
    + unfold spawnCycle. cbn. rewrite Hc. cbn. auto.
    + rewrite Ha. cbn. auto.
    + rewrite Hl. cbn. auto.
Qed.

(** X15: when [stopTeam] finds a lead process, that process gets
    SIGTERM and nothing more: [stopTeam] clears [leadProcess] before the
    5 s timeout it armed can run, so as long as the team is not started
    again the timeout finds no process and sends no SIGKILL. *)
Theorem stopTeam_never_escalates
        (s : State) (team : string) (now p : Z) (later : list Event) :
  leadProcess s = Some (p, false) ->
  (forall t, In t (timers s) -> isKillPid (kind t) = false) ->
  forallb isPassive later = true ->
  signals (run later (stopTeam team now s)) = signals s ++ [(p, SIGTERM)] /\
  exists h, In (mkTimer h 5000 TKillLead) (timers (stopTeam team now s)).
Proof.
  intros Hl Hk Hev.
  assert (Hgen : forall evs s0,
             forallb isPassive evs = true ->
             teamActive s0 = false -> currentConfig s0 = None -> leadProcess s0 = None ->
             (forall t, In t (timers s0) -> isKillPid (kind t) = false) ->
             signals (run evs s0) = signals s0).
  { induction evs as [|e evs IH]; intros s0 Hp Ha Hc Hn Ht; [reflexivity|].
    cbn [forallb] in Hp. apply andb_prop in Hp as [He Hp].
    destruct (halted_passive_step s0 e He Ha Hc Hn Ht) as (A & B & C & D & E).
    change (run (e :: evs) s0) with (run evs (step s0 e)).
    rewrite (IH _ Hp A B C D). exact E. }
  destruct (stopTeam_halted team now s) as (A & B & C & _ & _).
  assert (Hs : signals (stopTeam team now s) = signals s ++ [(p, SIGTERM)] /\
               timers (stopTeam team now s)
               = withoutDebounce s ++ [mkTimer (nextTimer s) 5000 TKillLead]).
  { destruct s as [lead deb act pend last total cfg port onExit cs ps pers ts next sg sp calls err].
    cbn in Hl. subst lead. unfold stopTeam, withoutDebounce. cbn.
    destruct deb as [d|]; cbn; split; reflexivity. }
  destruct Hs as [Hsig Htim]. split.
  - rewrite Hgen; auto. intros t Ht. rewrite Htim in Ht.
    apply in_app_or in Ht as [Ht|[<-|[]]]; [|reflexivity].
    apply Hk. unfold withoutDebounce in Ht.
    destruct (debounceTimer s); [now apply filter_In in Ht|exact Ht].
  - exists (nextTimer s). rewrite Htim. apply in_or_app. right. now left.
Qed.

(** Timers whose handle is not [h]. *)
Lemma filter_other (l : list Timer) (h : nat) :
  (forall t, In t l -> timerId t <> h) ->
  filter (fun t => negb (Nat.eqb (timerId t) h)) l = l.
Proof.
  intro H. induction l as [|t l IH]; [reflexivity|]. cbn.
  destruct (Nat.eqb_spec (timerId t) h) as [E|_].
  - exfalso. apply (H t); [now left|exact E].
  - cbn. f_equal. apply IH. intros t' Ht'. apply H. now right.
Qed.

Lemma find_last (l : list Timer) (t : Timer) :
  (forall t', In t' l -> timerId t' <> timerId t) ->
  find (fun t' => Nat.eqb (timerId t') (timerId t)) (l ++ [t]) = Some t.
Proof.
  intro H. induction l as [|t' l IH]; cbn.
  - now rewrite Nat.eqb_refl.
  - destruct (Nat.eqb_spec (timerId t') (timerId t)) as [E|_].
    + exfalso. apply (H t'); [now left|exact E].
    + apply IH. intros t'' Ht''. apply H. now right.
Qed.

Lemma withoutDebounce_fresh s :
  freshTimers s -> forall t, In t (withoutDebounce s) -> (timerId t < nextTimer s)%nat.
Proof.
  intros H t Ht. apply H. unfold withoutDebounce in Ht.
  destruct (debounceTimer s); [now apply filter_In in Ht|exact Ht].
Qed.

(** The supervisor after [S n] notifications in the state IDLE. *)
Lemma notifications_idle s n :
  teamActive s = true -> leadProcess s = None -> freshTimers s ->
  notifications (S n) s
  = setDebounce (Some (nextTimer s + n)%nat)
      (setTimers (withoutDebounce s ++ [mkTimer (nextTimer s + n) 3000 TIdle])
                 (S (nextTimer s + n)) s).
Proof.
  intros Ha Hl Hf. pose proof (withoutDebounce_fresh s Hf) as Hw.
  induction n as [|n IH].
  - unfold notifications. cbn [Nat.iter]. rewrite Nat.add_0_r.
    destruct s as [lead deb act pend last total cfg port onExit cs ps pers ts next sg sp calls err].
    cbn in Ha, Hl. subst act lead.
    unfold notifyBoardChanged, withoutDebounce. cbn. destruct deb; reflexivity.
  - change (notifications (S (S n)) s) with (notifyBoardChanged (notifications (S n) s)).
    rewrite IH. unfold notifyBoardChanged, setDebounce, setTimers, setTimeout, clearTimeout.
    cbn. rewrite Ha. unfold leadRunning. cbn. rewrite Hl. cbn.
    rewrite filter_app. cbn. rewrite Nat.eqb_refl. cbn. rewrite app_nil_r.
    rewrite filter_other.
    + now rewrite Nat.add_succ_r.
    + intros t Ht. specialize (Hw t Ht). lia.
Qed.

(** X16: board changes that arrive while the team is IDLE are
    coalesced: after any number n >= 1 of [notifyBoardChanged()] calls
    in a row only the last 3 s timeout is armed (the earlier ones were
    cleared), nothing has been spawned yet, and when that timeout comes
    due exactly one cycle is spawned, with [--max-turns] the smaller of
    50 and the remaining budget. *)
Theorem notifications_coalesce
        (s : State) (n : nat) (cfg : TeamConfig) (now newPid : Z) :
  teamActive s = true -> leadProcess s = None -> freshTimers s ->
  currentConfig s = Some cfg -> totalTurnsUsed s < maxTurnsOr1000 cfg ->
  (1 <= n)%nat ->
  let s' := notifications n s in
  let h := (nextTimer s + n - 1)%nat in
  debounceTimer s' = Some h /\
  timers s' = withoutDebounce s ++ [mkTimer h 3000 TIdle] /\
  spawns s' = spawns s /\
  let s'' := timerFired h now newPid s' in
  spawns s'' = spawns s ++
               [mkSpawn newPid (Z.min 50 (maxTurnsOr1000 cfg - totalTurnsUsed s)) now] /\
  timers s'' = withoutDebounce s /\
  debounceTimer s'' = None /\
  phase s'' = RUNNING.
Proof.
  intros Ha Hl Hf Hc Hb Hn. destruct n as [|n]; [lia|].
  cbv zeta. replace (nextTimer s + S n - 1)%nat with (nextTimer s + n)%nat by lia.
  rewrite (notifications_idle s n Ha Hl Hf).
  pose proof (withoutDebounce_fresh s Hf) as Hw.
  set (t := mkTimer (nextTimer s + n) 3000 TIdle).
  assert (Hne : forall t', In t' (withoutDebounce s) -> timerId t' <> timerId t).
  { intros t' Ht'. specialize (Hw t' Ht'). cbn. lia. }
  repeat split; try reflexivity.
  all: unfold timerFired; cbn [timers setDebounce setTimers];
    change (nextTimer s + n)%nat with (timerId t);
    rewrite (find_last _ t Hne);
    unfold timerCallback, clearTimeout, setDebounce, setTimers; cbn;
    rewrite Ha, Hl; cbn; unfold spawnCycle; cbn; rewrite Hc; cbn;
    destruct (Z.leb_spec (maxTurnsOr1000 cfg - totalTurnsUsed s) 0) as [Hle|_]; [lia|]; cbn.
  - reflexivity.
  - rewrite filter_app. cbn. rewrite Nat.eqb_refl. cbn. rewrite app_nil_r.
    apply filter_other. exact Hne.
  - reflexivity.
  - reflexivity.
Qed.

(** X17: a board change that arrives while a cycle is RUNNING is not
    lost: it is remembered, and when the lead exits (5 s or more after
    it was spawned, with budget left) a 1 s timeout is armed; when that
    comes due the next cycle is spawned with the budget that remains
    after the turns the child reported.  Without the notification the
    same exit arms nothing. *)
Theorem pending_change_respawns
        (s : State) (cfg : TeamConfig) (p n now now' newPid : Z) :
  teamActive s = true -> leadProcess s = Some (p, false) ->
  currentConfig s = Some cfg ->
  find (fun c => Z.eqb (pid c) p) (children s) = Some (mkChild p cfg) ->
  freshTimers s ->
  5000 <= now - lastSpawnTime s ->
  totalTurnsUsed s + n < maxTurnsOr1000 cfg ->
  let h := nextTimer s in
  let s1 := childExit p now (childResult n (notifyBoardChanged s)) in
  let s2 := timerFired h now' newPid s1 in
  phase s1 = IDLE /\
  timers s1 = timers s ++ [mkTimer h 1000 TRespawn] /\
  debounceTimer s1 = Some h /\
  spawns s1 = spawns s /\
  phase s2 = RUNNING /\
  spawns s2 = spawns s ++
              [mkSpawn newPid (Z.min 50 (maxTurnsOr1000 cfg - (totalTurnsUsed s + n))) now'] /\
  pendingBoardChange s2 = false /\
  timers s2 = timers s /\
  (pendingBoardChange s = false ->
   timers (childExit p now (childResult n s)) = timers s /\
   phase (childExit p now (childResult n s)) = IDLE).
Proof.
  intros Ha Hl Hc Hfind Hf Hnow Hb.
  assert (Hne : forall t', In t' (timers s) ->
                           timerId t' <> timerId (mkTimer (nextTimer s) 1000 TRespawn)).
  { intros t' Ht'. specialize (Hf t' Ht'). cbn. lia. }
  destruct s as [lead deb act pend last total c port onExit cs ps pers ts next sg sp calls err].
  cbn in Ha, Hl, Hc, Hfind, Hnow, Hb. cbn [timers nextTimer] in Hne. subst act lead c.
  cbv zeta.
  assert (H1 : childExit p now
                 (childResult n
                    (notifyBoardChanged
                       (mkState (Some (p, false)) deb true pend last total (Some cfg) port
                                onExit cs ps pers ts next sg sp calls err)))
               = mkState None (Some next) true true last (total + n) (Some cfg) port onExit
                   (filter (fun c' => negb (Z.eqb (pid c') p)) cs)
                   (filter (fun q => negb (Z.eqb q p)) ps)
                   (fun t => if String.eqb t (teamName cfg) then mkPersisted None None None
                             else pers t)
                   (ts ++ [mkTimer next 1000 TRespawn]) (S next) sg sp
                   (if onExit then S calls else calls) err).
  { unfold notifyBoardChanged, childResult, childExit. cbn. rewrite Hfind.
    unfold exitHandler. cbn.
    destruct (Z.ltb_spec (now - last) 5000) as [Hlt|_]; [lia|].
    destruct (Z.geb_spec (total + n) (maxTurnsOr1000 cfg)) as [Hge|_]; [lia|].
    reflexivity. }
  rewrite H1. clear H1.
  assert (Hfd : find (fun t => Nat.eqb (timerId t) next)
                     (ts ++ [mkTimer next 1000 TRespawn])
                = Some (mkTimer next 1000 TRespawn))
    by exact (find_last ts (mkTimer next 1000 TRespawn) Hne).
  repeat split; try reflexivity.
  1-4: unfold timerFired; cbn [timers nextTimer];
    rewrite Hfd;
    unfold timerCallback, clearTimeout, setDebounce, setTimers, spawnCycle; cbn;
    destruct (Z.leb_spec (maxTurnsOr1000 cfg - (total + n)) 0) as [Hle|_]; [lia|]; cbn.
  - reflexivity.
  - reflexivity.
  - reflexivity.
  - rewrite filter_app. cbn. rewrite Nat.eqb_refl. cbn. rewrite app_nil_r.
    apply filter_other. exact Hne.
  - cbn in H. subst pend. unfold childResult, childExit. cbn. rewrite Hfind.
    unfold exitHandler. cbn.
    destruct (Z.ltb_spec (now - last) 5000) as [Hlt|_]; [lia|].
    destruct (Z.geb_spec (total + n) (maxTurnsOr1000 cfg)) as [Hge|_]; [lia|].
    reflexivity.
  - cbn in H. subst pend. unfold childResult, childExit. cbn. rewrite Hfind.
    unfold exitHandler. cbn.
    destruct (Z.ltb_spec (now - last) 5000) as [Hlt|_]; [lia|].
    destruct (Z.geb_spec (total + n) (maxTurnsOr1000 cfg)) as [Hge|_]; [lia|].
    reflexivity.
Qed.







(** X27: a team that was stopped can always be started again:
    [startTeam] right after [stopTeam] of the same team never throws
    "Team is already running", whatever state the supervisor was in.  It
    resets the turns used to 0 and, when the configured budget is
    positive, spawns the first cycle with [--max-turns] the smaller of 50
    and the budget and returns its pid; with a budget that is not
    positive it spawns nothing, returns pid 0 and leaves the team
    STOPPED. *)
Theorem restart_after_stop
        (s : State) (cfg : TeamConfig) (port : Z) (onExit : bool) (now now' newPid : Z) :
  exists p s',
    startTeam cfg port onExit now' newPid (stopTeam (teamName cfg) now s) = Started p s' /\
    totalTurnsUsed s' = 0 /\ currentConfig s' = Some cfg /\
    (0 < maxTurnsOr1000 cfg ->
     p = newPid /\ phase s' = RUNNING /\ lastSpawnTime s' = now' /\
     spawns s' = spawns s ++ [mkSpawn newPid (Z.min 50 (maxTurnsOr1000 cfg)) now']) /\
    (maxTurnsOr1000 cfg <= 0 ->
     p = 0 /\ phase s' = STOPPED /\ spawns s' = spawns s).
Proof.
  destruct (stopTeam_halted (teamName cfg) now s) as (Ha & Hc & Hl & Hp & Hs).
  assert (Hpid : getPersistedPid (teamName cfg) (stopTeam (teamName cfg) now s) = None).
  { unfold stopTeam, getPersistedPid, persistState. cbn. now rewrite String.eqb_refl. }
  remember (stopTeam (teamName cfg) now s) as s0 eqn:Es0. clear Es0.
  unfold startTeam, checkRunning. rewrite Ha, Hpid.
  unfold spawnCycle. cbn [currentConfig setConfig totalTurnsUsed setPending setTurns setActive].
  rewrite Z.sub_0_r.
  destruct (Z.leb_spec (maxTurnsOr1000 cfg) 0) as [Hle|Hgt].
  - eexists _, _. split; [reflexivity|]. cbn. rewrite Hl.
    repeat split; auto; try lia.
  - eexists _, _. split; [reflexivity|]. cbn.
    repeat split; auto; try lia. now rewrite Hs.
Qed.

Lemma stopTeam_is_final_witness :
  let s := startedState (startTeam demoConfig 3000 true 1000 4242 init) in
  let later := [ENotify; EExit 4242 9500; ETimer 0 15000 4243; EResult 7;
                EStop "alpha" 16000; ENotify] in
  let s' := run later (stopTeam "alpha" 9000 s) in
  forallb (fun e => negb (isStart e)) later = true /\
  phase s' = STOPPED /\ leadProcess s' = None /\ currentConfig s' = None /\
  pendingBoardChange s' = false /\ spawns s' = spawns s.
Proof.
  split; [reflexivity|].
  apply (stopTeam_is_final
           (startedState (startTeam demoConfig 3000 true 1000 4242 init)) "alpha" 9000
           [ENotify; EExit 4242 9500; ETimer 0 15000 4243; EResult 7;
            EStop "alpha" 16000; ENotify]).
  reflexivity.
Defined.

Lemma stopTeam_never_escalates_witness :
  let s := startedState (startTeam demoConfig 3000 true 1000 4242 init) in
  let later := [ENotify; ETimer 0 14000 4243; EExit 4242 14100] in
  (leadProcess s = Some (4242, false) /\
   (forall t, In t (timers s) -> isKillPid (kind t) = false) /\
   forallb isPassive later = true) /\
  signals (run later (stopTeam "alpha" 9000 s)) = signals s ++ [(4242, SIGTERM)] /\
  exists h, In (mkTimer h 5000 TKillLead) (timers (stopTeam "alpha" 9000 s)).
Proof.
  split; [split; [reflexivity|split; [intros t []|reflexivity]]|].
  apply (stopTeam_never_escalates
           (startedState (startTeam demoConfig 3000 true 1000 4242 init)) "alpha" 9000 4242
           [ENotify; ETimer 0 14000 4243; EExit 4242 14100]);
    [reflexivity|intros t []|reflexivity].
Defined.

Lemma notifications_coalesce_witness :
  let s := childExit 4242 9000
             (startedState (startTeam demoConfig 3000 true 1000 4242 init)) in
  let s' := notifications 3 s in
  let s'' := timerFired 2 12500 4243 s' in
  (teamActive s = true /\ leadProcess s = None /\ freshTimers s /\
   currentConfig s = Some demoConfig /\ totalTurnsUsed s < maxTurnsOr1000 demoConfig) /\
  debounceTimer s' = Some 2%nat /\
  timers s' = withoutDebounce s ++ [mkTimer 2 3000 TIdle] /\
  spawns s' = spawns s /\
  spawns s'' = spawns s ++ [mkSpawn 4243 50 12500] /\
  timers s'' = withoutDebounce s /\
  debounceTimer s'' = None /\
  phase s'' = RUNNING.
Proof.
  split; [repeat split; intros t []|].
  apply (notifications_coalesce
           (childExit 4242 9000
              (startedState (startTeam demoConfig 3000 true 1000 4242 init)))
           3 demoConfig 12500 4243);
    [reflexivity|reflexivity|intros t []|reflexivity|reflexivity|lia].
Defined.

Lemma pending_change_respawns_witness :
  let s := startedState (startTeam demoConfig 3000 true 1000 4242 init) in
  let s1 := childExit 4242 8000 (childResult 12 (notifyBoardChanged s)) in
  let s2 := timerFired 0 9100 4243 s1 in
  (teamActive s = true /\ leadProcess s = Some (4242, false) /\
   currentConfig s = Some demoConfig /\
   find (fun c => Z.eqb (pid c) 4242) (children s) = Some (mkChild 4242 demoConfig) /\
   freshTimers s /\ 5000 <= 8000 - lastSpawnTime s /\
   totalTurnsUsed s + 12 < maxTurnsOr1000 demoConfig) /\
  phase s1 = IDLE /\
  timers s1 = timers s ++ [mkTimer 0 1000 TRespawn] /\
  debounceTimer s1 = Some 0%nat /\
  spawns s1 = spawns s /\
  phase s2 = RUNNING /\
  spawns s2 = spawns s ++ [mkSpawn 4243 50 9100] /\
  pendingBoardChange s2 = false /\
  timers s2 = timers s /\
  (pendingBoardChange s = false ->
   timers (childExit 4242 8000 (childResult 12 s)) = timers s /\
   phase (childExit 4242 8000 (childResult 12 s)) = IDLE).
Proof.
  split; [repeat split; try (intros t []); cbn; lia|].
  apply (pending_change_respawns
           (startedState (startTeam demoConfig 3000 true 1000 4242 init))
           demoConfig 4242 12 8000 9100 4243);
    [reflexivity|reflexivity|reflexivity|reflexivity|intros t []|cbn; lia|cbn; lia].
Defined.

End SupervisorCycles.

(* ===================================================================== *)
(** * Further properties of the board routes *)
(* ===================================================================== *)

Module RouteBehaviour.
Import Types Routes JsFacts RouteFacts.

Local Open Scope string_scope.
Local Open Scope list_scope.

(** An in-place update of the task [i] changes that task only. *)
Lemma updTask_frame i f ts :
  (forall t, id (f t) = id t) ->
  map id (updTask i f ts) = map id ts /\
  (forall t, findTask i ts = Some t -> findTask i (updTask i f ts) = Some (f t)) /\
  (forall j, j <> i -> findTask j (updTask i f ts) = findTask j ts).
Proof.
  intro Hf. split; [now apply updTask_ids|]. split.
  - intros t Ht. rewrite findTask_updTask by exact Hf. rewrite Ht. cbn.
    now rewrite String.eqb_refl.
  - intros j Hj. rewrite findTask_updTask by exact Hf.
    destruct (findTask j ts) as [t|]; [|reflexivity]. cbn.
    destruct (String.eqb_spec j i); [contradiction|reflexivity].
Qed.

(** X19: PATCH /api/tasks/:id on an existing task answers 200 with the
    patched task and writes a board in which only that task differs.  The
    task keeps its id, comments, refs and [createdAt] whatever the body
    holds, a key that is absent from the body leaves its field as it
    was, and [updatedAt] is the time of the request. *)
Theorem patch_changes_one_task (e : Env) (i : string) (body : PatchBody)
        (b : Board) (t : Task) :
  findTask i (tasks b) = Some t ->
  let res := patchTask e i (Parsed body) (Some b) in
  exists t' b',
    outcome res = Responded 200 (RTask t') /\
    disk res = Some b' /\ writes res = [b'] /\
    map id (tasks b') = map id (tasks b) /\
    findTask i (tasks b') = Some t' /\
    (forall j, j <> i -> findTask j (tasks b') = findTask j (tasks b)) /\
    id t' = id t /\ comments t' = comments t /\ refs t' = refs t /\
    createdAt t' = createdAt t /\ updatedAt t' = clock e 0 /\
    (p_title body = None -> title t' = title t) /\
    (p_description body = None -> description t' = description t) /\
    (p_column body = None -> column t' = column t) /\
    (p_order body = None -> order t' = order t) /\
    (p_priority body = None -> priority t' = priority t) /\
    (p_type body = None -> type t' = type t) /\
    (p_tags body = None -> tags t' = tags t) /\
    (p_context body = None -> context t' = context t) /\
    (p_assignee body = None -> assignee t' = assignee t) /\
    (forall c, p_column body = Some c -> column t' = c).
Proof.
  intros Hfind res. unfold res, patchTask. cbn [readBoard]. rewrite Hfind.
  destruct (updTask_frame i (applyPatch body (clock e 0)) (tasks b))
    as (Hids & Hi & Hj); [intro; reflexivity|].
  exists (applyPatch body (clock e 0) t), (withTasks b (updTask i (applyPatch body (clock e 0)) (tasks b))).
  unfold writeAndRespond, respond. cbn [outcome disk writes app tasks withTasks].
  repeat split; auto; cbn; try (intros ->; reflexivity).
  intros c ->. reflexivity.
Qed.

(** X20: POST /api/tasks/:id/comments on an existing task appends one
    comment and touches nothing else: the earlier comments stay in
    place, the other fields of the task (its refs, context, column and
    order among them) and the other tasks are as before; a missing or
    empty author is "User". *)
Theorem comment_is_appended (e : Env) (i : string) (body : CommentBody)
        (b : Board) (t : Task) :
  findTask i (tasks b) = Some t ->
  let res := postComment e i (Parsed body) (Some b) in
  exists c t' b',
    outcome res = Responded 201 (RComment c) /\
    disk res = Some b' /\ writes res = [b'] /\
    author c = orDefault (c_author body) "User" /\
    text c = orDefault (c_text body) "" /\
    map id (tasks b') = map id (tasks b) /\
    findTask i (tasks b') = Some t' /\
    (forall j, j <> i -> findTask j (tasks b') = findTask j (tasks b)) /\
    comments t' = comments t ++ [c] /\
    t' = touch (updatedAt t') (setComments (comments t') t).
Proof.
  intros Hfind res. unfold res, postComment. cbn [readBoard]. rewrite Hfind.
  set (c := mkComment (newId e 0) (orDefault (c_author body) "User")
                      (orDefault (c_text body) "") (clock e 0)).
  set (f := fun t0 => touch (clock e 1) (setComments (comments t0 ++ [c]) t0)).
  destruct (updTask_frame i f (tasks b)) as (Hids & Hi & Hj); [intro; reflexivity|].
  exists c, (f t), (withTasks b (updTask i f (tasks b))).
  unfold writeAndRespond, respond. cbn [outcome disk writes app tasks withTasks].
  repeat split; auto.
Qed.

(** What a POST /api/tasks/i/refs that answers 201 found and wrote. *)
Lemma postRef_created e i body b :
  statusOf (postRef e i (Parsed body) (Some b)) = Some 201 ->
  exists target v inverse task tgt,
    body = mkRefBody (Some (Js.JStr target)) (Some v) /\
    String.eqb target "" = false /\ Js.truthy v = true /\
    findTask i (tasks b) = Some task /\ findTask target (tasks b) = Some tgt /\
    existsb (refMatches target v) (refsOf task) = false /\
    lookupInverse (host e) v = Some inverse /\
    disk (postRef e i (Parsed body) (Some b))
      = Some (withTasks b
                (updTask target (addInverseTo i inverse (clock e 1))
                   (updTask i
                      (addRefTo (mkTaskRef target (Some (Js.serialize v))) (clock e 0))
                      (tasks b)))).
Proof.
  unfold postRef. destruct body as [[tid|] [v|]]; cbn [readBoard r_taskId r_type];
    try (destruct (findTask i (tasks b)); discriminate).
  destruct (findTask i (tasks b)) as [task|] eqn:Hi; [|discriminate].
  destruct (Js.truthy tid) eqn:Htid; [|discriminate].
  destruct (Js.truthy v) eqn:Hv; [|discriminate]. cbn [negb orb].
  destruct tid as [| | |target| |]; cbn [findTarget]; try discriminate.
  destruct (findTask target (tasks b)) as [tgt|] eqn:Ht; [|discriminate].
  pose proof (findTask_some _ _ _ Ht) as [_ Hid]. rewrite Hid.
  destruct (existsb (refMatches target v) (refsOf task)) eqn:Hex; [discriminate|].
  destruct (lookupInverse (host e) v) as [inverse|] eqn:Hl; [|discriminate].
  intros _. exists target, v, inverse, task, tgt.
  cbn [Js.truthy] in Htid. apply negb_true_iff in Htid. repeat split; auto.
Qed.

Lemma existsb_addInverseTo (p : TaskRef -> bool) i inverse now t :
  existsb p (refsOf t) = true -> existsb p (refsOf (addInverseTo i inverse now t)) = true.
Proof.
  intro H. unfold addInverseTo.
  destruct (existsb (inverseMatches i inverse) (refsOf t)); cbn [refsOf refs setRefs touch];
    [exact H|].
  rewrite existsb_app, H. reflexivity.
Qed.

(** X21: POST /api/tasks/:id/refs is idempotent for a type that is
    read back from the board file equal ([===]) to what was sent: a
    string, a boolean or a finite number.  Once such a request has been
    answered 201 (or 200), repeating it is answered 200, nothing is
    written and the board file stays as the first request left it.  (An
    array or an object equals no stored value: see
    [object_type_posted_again].) *)
Theorem post_ref_twice (e e' : Env) (i : string) (body : RefBody) (b : Board) :
  let first := postRef e i (Parsed body) (Some b) in
  (forall v, r_type body = Some v -> Js.strictEq (Js.serialize v) v = true) ->
  statusOf first = Some 201 \/ statusOf first = Some 200 ->
  let second := postRef e' i (Parsed body) (disk first) in
  statusOf second = Some 200 /\ writes second = [] /\ disk second = disk first.
Proof.
  intros first Hback [H201|H200] second; unfold second, first in *.
  - destruct (postRef_created e i body b H201)
      as (target & v & inverse & task & tgt & -> & He & Hv & Hi & Ht & Hex & Hl & Hd).
    specialize (Hback v eq_refl).
    rewrite Hd. unfold postRef at 1 2 3.
    cbn [readBoard r_taskId r_type tasks withTasks findTarget Js.truthy].
    rewrite !findTask_updTask by
      (intro; first [apply id_addInverseTo | reflexivity]).
    rewrite Hi, Ht. cbn [option_map]. rewrite !String.eqb_refl, He, Hv. cbn [negb orb].
    pose proof (findTask_some _ _ _ Ht) as [_ Hid].
    assert (Hnew : existsb (refMatches target v)
                     (refsOf (addRefTo (mkTaskRef target (Some (Js.serialize v)))
                                       (clock e 0) task)) = true).
    { unfold addRefTo. cbn [refsOf refs setRefs touch]. rewrite existsb_app.
      cbn [existsb]. unfold refMatches at 2. cbn [taskId rtype].
      rewrite String.eqb_refl, Hback. cbn. apply orb_true_r. }
    assert (Hid2 : forall t0, id (if String.eqb target i
                                  then addRefTo (mkTaskRef target (Some (Js.serialize v)))
                                                (clock e 0) t0
                                  else t0) = id t0).
    { intro t0. now destruct (String.eqb target i). }
    destruct (String.eqb i target) eqn:Eit.
    + rewrite id_addInverseTo, Hid2, Hid.
      rewrite (existsb_addInverseTo _ _ _ _ _ Hnew). repeat split.
    + rewrite id_addInverseTo, Hid2, Hid. rewrite Hnew. repeat split.
  - revert H200. unfold postRef.
    destruct body as [[tid|] [v|]]; cbn [readBoard r_taskId r_type];
      try (destruct (findTask i (tasks b)); discriminate).
    destruct (findTask i (tasks b)) as [task|] eqn:Hi; [|discriminate].
    destruct (negb (Js.truthy tid) || negb (Js.truthy v)) eqn:Hf; [discriminate|].
    destruct (findTarget tid (tasks b)) as [tgt|] eqn:Ht; [|discriminate].
    destruct (existsb (refMatches (id tgt) v) (refsOf task)) eqn:Hex.
    + intros _. cbn [disk respond readBoard r_taskId r_type].
      rewrite ?Hi, ?Hf, ?Ht, ?Hex. repeat split.
    + destruct (lookupInverse (host e) v); discriminate.
Qed.

(** Beside X21: an object as type equals no stored type, so that the
    same request is answered 201 each time it is sent, and the source
    holds the ref twice. *)
Example object_type_posted_again :
  let body := mkRefBody (Some (Js.JStr "b2")) (Some (Js.JObj [])) in
  let first := postRef demoEnv "a1" (Parsed body) (Some unlinkedBoard) in
  let second := postRef demoEnv "a1" (Parsed body) (disk first) in
  statusOf first = Some 201 /\ statusOf second = Some 201 /\
  option_map (fun b => option_map refsOf (findTask "a1" (tasks b))) (disk second)
    = Some (Some [mkTaskRef "b2" (Some (Js.JObj []));
                  mkTaskRef "b2" (Some (Js.JObj []))]).
Proof. repeat split. Qed.

Lemma find_refIs_none i ty l : ~ In (mkRef i ty) l -> find (refIs i ty) l = None.
Proof.
  intro H. destruct (find (refIs i ty) l) as [r|] eqn:E; [|reflexivity].
  apply find_some in E as [Hin Hr]. apply refIs_true in Hr. subst. contradiction.
Qed.

Lemma find_refTo_none target l r : find (refTo target) l = None -> In r l -> taskId r <> target.
Proof.
  intros H Hin E. apply (find_none _ _ H) in Hin. unfold refTo in Hin.
  rewrite E, String.eqb_refl in Hin. discriminate.
Qed.

(** Deleting the ref that was just posted restores the refs of a task. *)
Lemma deleteRefs_postRefs i target ty a l :
  (a = i -> find (refTo target) l = None) ->
  (a = target -> ~ In (mkRef i (claimedInverse ty)) l) ->
  deleteRefs i target (Some ty) a (postRefs i target ty a l) = l.
Proof.
  intros Hi Ht. unfold deleteRefs, postRefs.
  assert (Hto : refTo target (mkRef target ty) = true)
    by (unfold refTo; cbn; apply String.eqb_refl).
  assert (Hinv : refIs i (claimedInverse ty) (mkRef i (claimedInverse ty)) = true)
    by (now apply refIs_true).
  destruct (String.eqb_spec a i) as [Eai|Eai], (String.eqb_spec a target) as [Eat|Eat].
  - (* a ref of a task to itself *)
    specialize (Hi Eai). specialize (Ht Eat). subst a. subst target.
    destruct (existsb (refIs i (claimedInverse ty)) (l ++ [mkRef i ty])) eqn:Hex.
    + rewrite (removeFirst_last _ l _ [] Hi Hto). rewrite app_nil_r.
      apply removeFirst_none. now apply find_refIs_none.
    + rewrite <- app_assoc. cbn [app].
      rewrite (removeFirst_last _ l _ [mkRef i (claimedInverse ty)] Hi Hto).
      rewrite (removeFirst_last _ l _ [] (find_refIs_none _ _ _ Ht) Hinv).
      apply app_nil_r.
  - specialize (Hi Eai). rewrite (removeFirst_last _ l _ [] Hi Hto). apply app_nil_r.
  - specialize (Ht Eat).
    assert (Hex : existsb (refIs i (claimedInverse ty)) l = false)
      by (now apply existsb_refIs_false).
    rewrite Hex. rewrite (removeFirst_last _ l _ [] (find_refIs_none _ _ _ Ht) Hinv).
    apply app_nil_r.
  - reflexivity.
Qed.

(** X22: adding a ref of one of the five types and deleting it again
    is a round trip on the refs.  When the source has no ref to the
    target and the target has no inverse ref yet, POST
    /api/tasks/:id/refs answers 201, the following DELETE
    /api/tasks/:id/refs/:target answers 200, and afterwards every task
    of the board has exactly the refs it had before, in the same order.
    (For a type outside the table the inverse may stay behind: see
    [inherited_type_stays_behind].) *)
Theorem ref_round_trip (e e' : Env) (i target : string) (ty : RefType)
        (b : Board) (task tgt : Task) :
  findTask i (tasks b) = Some task -> findTask target (tasks b) = Some tgt ->
  target <> "" ->
  (forall r, In r (refsOf task) -> taskId r <> target) ->
  ~ In (mkRef i (claimedInverse ty)) (refsOf tgt) ->
  let posted := postRef e i (Parsed (refBody target ty)) (Some b) in
  let deleted := deleteRef e' i target (disk posted) in
  statusOf posted = Some 201 /\ statusOf deleted = Some 200 /\
  exists b2, disk deleted = Some b2 /\
    map id (tasks b2) = map id (tasks b) /\
    forall a A, findTask a (tasks b) = Some A ->
      exists A2, findTask a (tasks b2) = Some A2 /\ refsOf A2 = refsOf A.
Proof.
  intros Hi Ht Hne Hfresh Hninv posted deleted.
  assert (Hnone : find (refTo target) (refsOf task) = None).
  { destruct (find (refTo target) (refsOf task)) as [r|] eqn:E; [|reflexivity].
    pose proof (find_refTo _ _ _ E) as Hr. apply find_some in E.
    now destruct (Hfresh r (proj1 E)). }
  assert (Hex : existsb (refIs target ty) (refsOf task) = false).
  { apply existsb_refIs_false. intro Hin.
    apply (find_refTo_none _ _ _ Hnone Hin). reflexivity. }
  assert (Hp : posted = writeAndRespond 201
                 (RTask (match findTask i (afterPost i target ty (clock e 0) (clock e 1) (tasks b))
                         with Some t => t | None => task end))
                 (withTasks b (afterPost i target ty (clock e 0) (clock e 1) (tasks b))) []).
  { unfold posted. rewrite (postRef_known e i target ty b task tgt Hi Ht Hne), Hex.
    reflexivity. }
  set (ts1 := afterPost i target ty (clock e 0) (clock e 1) (tasks b)) in *.
  pose proof (afterPost_view i target ty (clock e 0) (clock e 1) (tasks b) i) as Vi.
  rewrite Hi in Vi. destruct Vi as (task1 & Hi1 & Hr1). fold ts1 in Hi1.
  assert (Hto : refTo target (mkRef target ty) = true)
    by (unfold refTo; cbn; apply String.eqb_refl).
  assert (Hfind : find (refTo target) (refsOf task1) = Some (mkRef target ty)).
  { rewrite Hr1. unfold postRefs. cbv zeta. rewrite String.eqb_refl.
    destruct (String.eqb i target).
    - match goal with |- context [if ?c then _ else _] => destruct c end.
      + now rewrite (find_last_ref _ _ _ [] Hnone Hto).
      + rewrite <- app_assoc. cbn [app]. now rewrite (find_last_ref _ _ _ _ Hnone Hto).
    - now rewrite (find_last_ref _ _ _ [] Hnone Hto). }
  assert (Hrem : knownRemoved target (refsOf task1) = Some ty).
  { unfold knownRemoved. rewrite Hfind. apply knownType_mkRef. }
  assert (Hknown : forall r, find (refTo target) (refsOf task1) = Some r ->
                             exists ty0, r = mkRef (taskId r) ty0).
  { intros r Hr. rewrite Hfind in Hr. injection Hr as <-. now exists ty. }
  assert (Hd : deleted = writeAndRespond 200
                 (RTask (match findTask i (afterDelete i target (Some ty) (clock e' 0)
                                                       (clock e' 1) ts1)
                         with Some t => t | None => task1 end))
                 (withTasks b (afterDelete i target (Some ty) (clock e' 0) (clock e' 1) ts1))
                 []).
  { unfold deleted. rewrite Hp. unfold writeAndRespond, respond. cbn [disk].
    rewrite (deleteRef_known e' i target (withTasks b ts1) task1 Hi1 Hknown).
    cbv zeta. cbn [tasks withTasks]. rewrite Hrem. reflexivity. }
  rewrite Hp, Hd. unfold writeAndRespond, respond, statusOf. cbn [outcome disk].
  split; [reflexivity|]. split; [reflexivity|].
  eexists. split; [reflexivity|]. cbn [tasks withTasks]. split.
  - rewrite afterDelete_ids. apply afterPost_ids.
  - intros a A Ha.
    pose proof (afterPost_view i target ty (clock e 0) (clock e 1) (tasks b) a) as V1.
    rewrite Ha in V1. destruct V1 as (A1 & Ha1 & HrA1). fold ts1 in Ha1.
    pose proof (afterDelete_view i target (Some ty) (clock e' 0) (clock e' 1) ts1 a) as V2.
    rewrite Ha1 in V2. destruct V2 as (A2 & Ha2 & HrA2).
    exists A2. split; [exact Ha2|]. rewrite HrA2, HrA1.
    apply deleteRefs_postRefs.
    + intros ->. rewrite Hi in Ha. injection Ha as <-. exact Hnone.
    + intros ->. rewrite Ht in Ha. injection Ha as <-. exact Hninv.
Qed.

(** Beside X22: "constructor" is no key of the table but a property
    that every object inherits.  The inverse is stored without a type,
    and the DELETE that follows, looking for a ref whose type is that
    inherited function, leaves it on the target. *)
Example inherited_type_stays_behind :
  let body := mkRefBody (Some (Js.JStr "b2")) (Some (Js.JStr "constructor")) in
  let posted := postRef demoEnv "a1" (Parsed body) (Some unlinkedBoard) in
  let deleted := deleteRef demoEnv "a1" "b2" (disk posted) in
  statusOf posted = Some 201 /\ statusOf deleted = Some 200 /\
  option_map (fun b => option_map refsOf (findTask "a1" (tasks b))) (disk deleted)
    = Some (Some []) /\
  option_map (fun b => option_map refsOf (findTask "b2" (tasks b))) (disk deleted)
    = Some (Some [mkTaskRef "a1" None]).
Proof. repeat split. Qed.

(** X28: DELETE /api/tasks/:id/refs/:target for a ref that does not
    exist is not an error: when the task has no ref to the target the
    answer is still 200 and the board is written, with the refs of every
    task as they were (a missing [refs] array of the task reads as
    empty) and only [updatedAt] of the task set to the time of the
    request. *)
Theorem delete_missing_ref (e : Env) (i target : string) (b : Board) (task : Task) :
  findTask i (tasks b) = Some task ->
  find (refTo target) (refsOf task) = None ->
  let res := deleteRef e i target (Some b) in
  exists task' b',
    outcome res = Responded 200 (RTask task') /\
    writes res = [b'] /\ disk res = Some b' /\
    findTask i (tasks b') = Some task' /\
    task' = touch (clock e 0) (setRefs (refsOf task) task) /\
    map id (tasks b') = map id (tasks b) /\
    (forall j, j <> i -> findTask j (tasks b') = findTask j (tasks b)).
Proof.
  intros Hi Hnone res. unfold res, deleteRef. cbn [readBoard]. rewrite Hi.
  unfold removedType. rewrite Hnone.
  destruct (updTask_frame i (dropRefTo target (clock e 0)) (tasks b))
    as (Hids & Hfi & Hj); [intro; reflexivity|].
  rewrite (Hfi task Hi).
  exists (dropRefTo target (clock e 0) task),
         (withTasks b (updTask i (dropRefTo target (clock e 0)) (tasks b))).
  unfold writeAndRespond, respond. cbn [outcome writes disk app tasks withTasks].
  repeat split; auto.
  unfold dropRefTo. now rewrite (removeFirst_none _ _ Hnone).
Qed.

Section AnyPath.

Variable P : Paths.PathApi.

(** X23: POST /api/tasks/:id/context is idempotent: when a request was
    answered 201, repeating it is answered 201 again, but nothing is
    written: the file is in the context of the task only once. *)
Theorem post_context_twice (e e' : Env) (i : string) (body : ContextBody) (b : Board) :
  let first := postContext P e i (Parsed body) (Some b) in
  statusOf first = Some 201 ->
  let second := postContext P e' i (Parsed body) (disk first) in
  statusOf second = Some 201 /\ writes second = [] /\ disk second = disk first.
Proof.
  intros first H second.
  set (dir := orDefault (projectDirOf b) "").
  set (filePath := Paths.resolve P [dir; orDefault (x_path body) ""]).
  assert (Hinv : exists task,
             findTask i (tasks b) = Some task /\
             falsy (x_path body) = false /\
             Paths.isAbsolute P (orDefault (x_path body) "") = false /\
             falsy (projectDirOf b) = false /\
             staysWithin P dir filePath = true /\
             disk first
             = Some (if hasPath filePath (contextOf task) then b
                     else withTasks b
                            (updTask i (addContextTo
                                          (mkFileContext filePath (noteOf (x_note body)))
                                          (clock e 0)) (tasks b)))).
  { revert H. unfold first, postContext. cbn [readBoard].
    destruct (findTask i (tasks b)) as [task|]; [|discriminate].
    destruct (falsy (x_path body)); [discriminate|].
    destruct (Paths.isAbsolute P _); [discriminate|].
    destruct (falsy (projectDirOf b)); [discriminate|].
    fold dir. fold filePath.
    destruct (staysWithin P dir filePath); [|discriminate]. cbn [negb].
    intros _. exists task. repeat split.
    destruct (hasPath filePath (contextOf task)); reflexivity. }
  destruct Hinv as (task & Hi & Hp & Ha & Hd & Hs & Hdisk).
  unfold second. rewrite Hdisk. clear Hdisk second.
  assert (Hsecond : forall b2 task2,
             projectDirOf b2 = projectDirOf b ->
             findTask i (tasks b2) = Some task2 ->
             hasPath filePath (contextOf task2) = true ->
             let r := postContext P e' i (Parsed body) (Some b2) in
             statusOf r = Some 201 /\ writes r = [] /\ disk r = Some b2).
  { intros b2 task2 Hdir Hi2 Hh2. unfold postContext. cbn [readBoard].
    rewrite Hi2, Hp, Ha, Hdir, Hd. fold dir. fold filePath. rewrite Hs, Hh2.
    cbn [negb]. repeat split. }
  destruct (hasPath filePath (contextOf task)) eqn:Hh.
  - now apply (Hsecond b task).
  - eapply Hsecond; [reflexivity| |].
    + cbn [tasks withTasks]. rewrite findTask_updTask by (intro; reflexivity).
      rewrite Hi. cbn [option_map]. rewrite String.eqb_refl. reflexivity.
    + unfold hasPath, addContextTo. cbn. rewrite existsb_app. cbn.
      rewrite String.eqb_refl. now rewrite orb_true_r.
Qed.

(** X24: every route that names a task in its URL (PATCH and DELETE
    of a task, comments, context, refs) checks the id first: when no
    task has it the answer is 404 "Task not found", whatever else the
    body holds, and the board is not written.  On a missing board file
    the answer is the same, and the default board is left on disk. *)
Theorem unknown_task_is_404 (e : Env) (r : Request) (i : string) (d : Disk) :
  taskIdOf r = Some i -> malformed r = false ->
  match d with Some b => findTask i (tasks b) = None | None => True end ->
  let res := handleRoute P e r d in
  outcome res = Responded 404 (RError "Task not found") /\
  match d with
  | Some b => disk res = Some b /\ writes res = []
  | None => disk res = Some (defaultBoard (clock e 0)) /\
            writes res = [defaultBoard (clock e 0)]
  end.
Proof.
  intros Hi Hm Hd.
  destruct r as [|body|j body|j|j body|j body|j body|j target];
    try discriminate; injection Hi as Hi; subst j;
    try (destruct body as [|body]; [discriminate|]);
    cbn [handleRoute];
    unfold patchTask, deleteTask, postComment, postContext, postRef, deleteRef;
    (destruct d as [b|]; cbn [readBoard tasks defaultBoard findTask find];
     [rewrite Hd|]; split; try split; reflexivity).
Qed.

(** X25: no task route writes on failure.  A request either leaves the
    board file as it was and writes nothing, or writes exactly one board
    and answers 200 or 201; the written board has the [meta] and the
    [columns] of the old one. *)
Theorem only_success_writes (e : Env) (r : Request) (b : Board) :
  let res := handleRoute P e r (Some b) in
  (writes res = [] /\ disk res = Some b) \/
  (exists b', writes res = [b'] /\ disk res = Some b' /\
              meta b' = meta b /\ columns b' = columns b /\
              (statusOf res = Some 200 \/ statusOf res = Some 201)).
Proof.
  assert (Hleft : forall o, (writes (mkResult o (Some b) []) = [] /\
                             disk (mkResult o (Some b) []) = Some b) \/
                            (exists b', writes (mkResult o (Some b) []) = [b'] /\
                               disk (mkResult o (Some b) []) = Some b' /\
                               meta b' = meta b /\ columns b' = columns b /\
                               (statusOf (mkResult o (Some b) []) = Some 200 \/
                                statusOf (mkResult o (Some b) []) = Some 201)))
    by (intro o; left; split; reflexivity).
  assert (Hright : forall st body ts, st = 200 \/ st = 201 ->
            let res := writeAndRespond st body (withTasks b ts) [] in
            (writes res = [] /\ disk res = Some b) \/
            (exists b', writes res = [b'] /\ disk res = Some b' /\
                        meta b' = meta b /\ columns b' = columns b /\
                        (statusOf res = Some 200 \/ statusOf res = Some 201))).
  { intros st body ts Hst. right. exists (withTasks b ts).
    repeat split. destruct Hst as [-> | ->]; [now left|now right]. }
  cbv zeta.
  destruct r as [|body|j body|j|j body|j body|j body|j target]; cbn [handleRoute].
  - apply Hleft.
  - destruct body as [|body]; [apply Hleft|]. unfold postTask. cbn [readBoard].
    destruct (Js.toNumbers _ _); [apply Hright; now right|apply Hleft].
  - destruct body as [|body]; [apply Hleft|]. unfold patchTask. cbn [readBoard].
    destruct (findTask j (tasks b)); [apply Hright; now left|apply Hleft].
  - unfold deleteTask. cbn [readBoard].
    destruct (findTask j (tasks b)); [apply Hright; now left|apply Hleft].
  - destruct body as [|body]; [apply Hleft|]. unfold postComment. cbn [readBoard].
    destruct (findTask j (tasks b)); [apply Hright; now right|apply Hleft].
  - destruct body as [|body]; [apply Hleft|]. unfold postContext. cbn [readBoard].
    destruct (findTask j (tasks b)); [|apply Hleft].
    destruct (falsy (x_path body)); [apply Hleft|].
    destruct (Paths.isAbsolute P _); [apply Hleft|].
    destruct (falsy (projectDirOf b)); [apply Hleft|].
    destruct (negb _); [apply Hleft|].
    destruct (hasPath _ _); [apply Hleft|apply Hright; now right].
  - destruct body as [|body]; [apply Hleft|]. unfold postRef. cbn [readBoard].
    destruct (findTask j (tasks b)); [|apply Hleft].
    destruct (r_taskId body) as [target|]; [|apply Hleft].
    destruct (r_type body) as [ty|]; [|apply Hleft].
    destruct (negb _ || negb _); [apply Hleft|].
    destruct (findTarget target (tasks b)); [|apply Hleft].
    destruct (existsb _ _); [apply Hleft|].
    destruct (lookupInverse _ _); [apply Hright; now right|apply Hleft].
  - unfold deleteRef. cbn [readBoard].
    destruct (findTask j (tasks b)) as [task|]; [|apply Hleft].
    destruct (removedType target task) as [removed|]; [|apply Hright; now left].
    destruct (Js.truthy removed); [|apply Hright; now left].
    destruct (findTask target _) as [tgt|]; [|apply Hright; now left].
    destruct (refs tgt); [|apply Hright; now left].
    destruct (lookupInverse _ _); [apply Hright; now left|apply Hleft].
Qed.

End AnyPath.

Lemma unknown_task_is_404_witness :
  let r := PostContext "zz" (Parsed (mkContextBody None None)) in
  let res := handleRoute (Paths.posix "/srv") demoEnv r (Some demoBoard) in
  (taskIdOf r = Some "zz" /\ malformed r = false /\
   findTask "zz" (tasks demoBoard) = None) /\
  outcome res = Responded 404 (RError "Task not found") /\
  disk res = Some demoBoard /\ writes res = [].
Proof.
  split; [repeat split|].
  apply (unknown_task_is_404 (Paths.posix "/srv") demoEnv
           (PostContext "zz" (Parsed (mkContextBody None None))) "zz" (Some demoBoard));
    reflexivity.
Defined.

Lemma patch_changes_one_task_witness :
  let body := mkPatchBody None None (Some "done") None None None None None None in
  let res := patchTask demoEnv "a1" (Parsed body) (Some demoBoard) in
  findTask "a1" (tasks demoBoard)
  = Some (plainTask "a1" "backlog" 1%float [mkRef "b2" blocks]) /\
  exists t' b',
    outcome res = Responded 200 (RTask t') /\ disk res = Some b' /\
    findTask "a1" (tasks b') = Some t' /\
    column t' = "done" /\ title t' = "A task" /\
    refs t' = Some [mkRef "b2" blocks] /\
    findTask "b2" (tasks b') = findTask "b2" (tasks demoBoard).
Proof.
  split; [reflexivity|].
  destruct (patch_changes_one_task demoEnv "a1"
              (mkPatchBody None None (Some "done") None None None None None None)
              demoBoard (plainTask "a1" "backlog" 1%float [mkRef "b2" blocks]) eq_refl)
    as (t' & b' & Ho & Hd & _ & _ & Hf & Hj & _ & _ & Hr & _ & _ & Ht & _ & _ & _ & _ & _
        & _ & _ & _ & Hc).
  exists t', b'. repeat split; auto.
  - now apply Hj.
Defined.

Lemma comment_is_appended_witness :
  let body := mkCommentBody None (Some "looks good") in
  let res := postComment demoEnv "b2" (Parsed body) (Some demoBoard) in
  findTask "b2" (tasks demoBoard)
  = Some (plainTask "b2" "backlog" 2.5%float [mkRef "a1" blocked_by]) /\
  exists c t' b',
    outcome res = Responded 201 (RComment c) /\ disk res = Some b' /\
    author c = "User" /\ text c = "looks good" /\
    findTask "b2" (tasks b') = Some t' /\ comments t' = [c] /\
    findTask "a1" (tasks b') = findTask "a1" (tasks demoBoard).
Proof.
  split; [reflexivity|].
  destruct (comment_is_appended demoEnv "b2" (mkCommentBody None (Some "looks good"))
              demoBoard (plainTask "b2" "backlog" 2.5%float [mkRef "a1" blocked_by]) eq_refl)
    as (c & t' & b' & Ho & Hd & _ & Ha & Ht & _ & Hf & Hj & Hc & _).
  exists c, t', b'. repeat split; auto.
  - now apply Hj.
Defined.

Lemma post_ref_twice_witness :
  let body := refBody "b2" related in
  let first := postRef demoEnv "a1" (Parsed body) (Some demoBoard) in
  let second := postRef demoEnv "a1" (Parsed body) (disk first) in
  (forall v, r_type body = Some v -> Js.strictEq (Js.serialize v) v = true) /\
  (statusOf first = Some 201 \/ statusOf first = Some 200) /\
  statusOf second = Some 200 /\ writes second = [] /\ disk second = disk first.
Proof.
  split; [intros v Hv; injection Hv as <-; reflexivity|].
  split; [now left|].
  apply (post_ref_twice demoEnv demoEnv "a1" (refBody "b2" related) demoBoard).
  - intros v Hv. injection Hv as <-. reflexivity.
  - now left.
Defined.

Lemma ref_round_trip_witness :
  let posted := postRef demoEnv "a1" (Parsed (refBody "b2" parent))
                        (Some unlinkedBoard) in
  let deleted := deleteRef demoEnv "a1" "b2" (disk posted) in
  (findTask "a1" (tasks unlinkedBoard) = Some (plainTask "a1" "backlog" 1%float []) /\
   findTask "b2" (tasks unlinkedBoard) = Some (plainTask "b2" "backlog" 2.5%float []) /\
   "b2" <> "" /\
   (forall r, In r (refsOf (plainTask "a1" "backlog" 1%float [])) -> taskId r <> "b2") /\
   ~ In (mkRef "a1" (claimedInverse parent))
        (refsOf (plainTask "b2" "backlog" 2.5%float []))) /\
  statusOf posted = Some 201 /\ statusOf deleted = Some 200 /\
  exists b2, disk deleted = Some b2 /\
    map id (tasks b2) = map id (tasks unlinkedBoard) /\
    forall a A, findTask a (tasks unlinkedBoard) = Some A ->
      exists A2, findTask a (tasks b2) = Some A2 /\ refsOf A2 = refsOf A.
Proof.
  split; [repeat split; try discriminate; try (intros r []); intros []|].
  apply (ref_round_trip demoEnv demoEnv "a1" "b2" parent unlinkedBoard
           (plainTask "a1" "backlog" 1%float []) (plainTask "b2" "backlog" 2.5%float []));
    [reflexivity|reflexivity|discriminate|intros r []|intros []].
Defined.

Lemma delete_missing_ref_witness :
  let res := deleteRef demoEnv "a1" "b2" (Some unlinkedBoard) in
  (findTask "a1" (tasks unlinkedBoard) = Some (plainTask "a1" "backlog" 1%float []) /\
   find (refTo "b2") (refsOf (plainTask "a1" "backlog" 1%float [])) = None) /\
  exists task' b',
    outcome res = Responded 200 (RTask task') /\
    writes res = [b'] /\ disk res = Some b' /\
    findTask "a1" (tasks b') = Some task' /\
    task' = touch (clock demoEnv 0) (setRefs [] (plainTask "a1" "backlog" 1%float [])) /\
    map id (tasks b') = map id (tasks unlinkedBoard) /\
    (forall j, j <> "a1" -> findTask j (tasks b') = findTask j (tasks unlinkedBoard)).
Proof.
  split; [split; reflexivity|].
  apply (delete_missing_ref demoEnv "a1" "b2" unlinkedBoard
           (plainTask "a1" "backlog" 1%float [])); reflexivity.
Defined.

Lemma post_context_twice_witness :
  let body := mkContextBody (Some "src/a.ts") (Some "entry point") in
  let first := postContext (Paths.posix "/srv") demoEnv "a1" (Parsed body)
                           (Some demoBoard) in
  let second := postContext (Paths.posix "/srv") demoEnv "a1" (Parsed body)
                            (disk first) in
  statusOf first = Some 201 /\
  statusOf second = Some 201 /\ writes second = [] /\ disk second = disk first.
Proof.
  split; [reflexivity|].
  apply (post_context_twice (Paths.posix "/srv") demoEnv demoEnv "a1"
           (mkContextBody (Some "src/a.ts") (Some "entry point")) demoBoard).
  reflexivity.
Defined.

End RouteBehaviour.
